(** * dev/generate_headers.py: the incremental header generator of CoolProp

    A shallow embedding of the script that packages the fluid JSON files and
    turns them into C++ headers, together with the properties of its
    staleness tests, its content-hash gate and its hex encoding.

    Conventions of the embedding:
    - the script runs on a POSIX system; paths are strings relative to the
      repository root ([repo_root_path]); the directories of the
      repository exist, every path names a regular file that can be read
      and written, so [Path.exists], [os.path.exists] and
      [os.path.isfile] agree and a write never fails;
    - file contents are byte strings ([string], one [ascii] per byte); a
      text is the same bytes after the translation of the line ends, and
      it encodes to ASCII when every byte is below 128; CMakeLists.txt,
      gitrevision.txt and the output of git decode;
    - modification times are integers;
    - the interpreter's libraries that the script imports (json, pickle,
      zlib, datetime, subprocess, the clock behind the modification times)
      are the fields of a record [libs]; hashlib's SHA-224 is implemented;
    - the script's effects are threaded through a state and exception
      monad [M]; what the script prints is not modelled. *)

From Stdlib Require Import ZArith NArith Ascii String List Bool Lia.
From stdpp Require Import base option list gmap strings.
Import ListNotations.

Local Open Scope string_scope.
Local Open Scope Z_scope.

(** ** Hexadecimal encoding of a payload (TO_CPP, lines 84-87, 114-124, 161-171) *)

Module Hex.

Definition nl : string := String "010"%char EmptyString.

(** One digit of [format(x, '02x')]. *)
Definition hex_digit (n : N) : ascii :=
  match n with
  | 0 => "0" | 1 => "1" | 2 => "2" | 3 => "3" | 4 => "4" | 5 => "5"
  | 6 => "6" | 7 => "7" | 8 => "8" | 9 => "9" | 10 => "a" | 11 => "b"
  | 12 => "c" | 13 => "d" | 14 => "e" | _ => "f"
  end%N%char.

(** ["0x{:02x}".format(int(b))] *)
Definition literal (b : ascii) : string :=
  String "0" (String "x"
    (String (hex_digit (N_of_ascii b / 16)) (String (hex_digit (N_of_ascii b mod 16)) EmptyString))).

(** [l[i:i + n] for i in range(0, len(l), n)], by recursion on the number of
    slices still to take. *)
Fixpoint slices {A} (fuel : nat) (l : list A) (n : nat) : list (list A) :=
  match fuel, l with
  | O, _ | _, [] => []
  | S fuel', _ => take n l :: slices fuel' (drop n l) n
  end.

Definition to_chunks {A} (l : list A) (n : Z) : list (list A) :=
  let n := if n <? 1 then 1 else n in
  slices (length l) l (Z.to_nat n).

(** [h = [... for b in json_] + ['0x00']] *)
Definition literals (payload : string) : list string :=
  map literal (list_ascii_of_string payload) ++ ["0x00"].

(** [',\n'.join([', '.join(chunk) for chunk in to_chunks(h, 16)])] *)
Definition hex_string (payload : string) : string :=
  String.concat ("," ++ nl) (map (String.concat ", ") (to_chunks (literals payload) 16)).

(** *** The reader of the encoding

    The script has no decoder: the C++ compiler reads the array.  This one
    follows the words of the specification, "parsing the hex literals and
    dropping the terminating zero byte". *)

Definition hex_value (c : ascii) : option N :=
  let n := N_of_ascii c in
  if ((48 <=? n) && (n <=? 57))%N then Some (n - 48)%N
  else if ((97 <=? n) && (n <=? 102))%N then Some (n - 87)%N
  else None.

Definition is_separator (c : ascii) : bool :=
  Ascii.eqb c " " || Ascii.eqb c "010".

Fixpoint parse_literals (s : string) : option (list ascii) :=
  match s with
  | String z (String x (String h (String l rest))) =>
      if Ascii.eqb z "0" && Ascii.eqb x "x" then
        match hex_value h, hex_value l with
        | Some hv, Some lv =>
            let b := ascii_of_N (16 * hv + lv) in
            match rest with
            | EmptyString => Some [b]
            | String comma (String c rest') =>
                if Ascii.eqb comma "," && is_separator c
                then option_map (cons b) (parse_literals rest')
                else None
            | _ => None
            end
        | _, _ => None
        end
      else None
  | _ => None
  end.

(** What [parse_literals] reads after a literal: nothing more, or a comma,
    a separator and the next literals. *)
Definition parse_rest (k : string) : option (list ascii) :=
  match k with
  | EmptyString => Some []
  | String comma (String c k') =>
      if Ascii.eqb comma "," && is_separator c then parse_literals k' else None
  | _ => None
  end.

Definition drop_terminator (bs : list ascii) : option (list ascii) :=
  match rev bs with
  | z :: r => if Ascii.eqb z zero then Some (rev r) else None
  | [] => None
  end.

Definition decode (s : string) : option string :=
  match parse_literals s with
  | Some bs => option_map string_of_list_ascii (drop_terminator bs)
  | None => None
  end.

End Hex.

(** ** hashlib.sha224 and get_hash (lines 22-26) *)

Module SHA224.

Definition w32 (x : Z) : Z := Z.land x 0xffffffff.
Definition rotr (n x : Z) : Z := Z.lor (Z.shiftr x n) (w32 (Z.shiftl x (32 - n))).
Definition add32 (x y : Z) : Z := w32 (x + y).

Definition ssig0 x := Z.lxor (Z.lxor (rotr 7 x) (rotr 18 x)) (Z.shiftr x 3).
Definition ssig1 x := Z.lxor (Z.lxor (rotr 17 x) (rotr 19 x)) (Z.shiftr x 10).
Definition bsig0 x := Z.lxor (Z.lxor (rotr 2 x) (rotr 13 x)) (rotr 22 x).
Definition bsig1 x := Z.lxor (Z.lxor (rotr 6 x) (rotr 11 x)) (rotr 25 x).
Definition ch x y z := Z.lxor (Z.land x y) (Z.land (Z.lxor x 0xffffffff) z).
Definition maj x y z := Z.lxor (Z.lxor (Z.land x y) (Z.land x z)) (Z.land y z).

(** The constants of FIPS 180-4, from their definition: the primes, the
    fractional parts of their cube roots and of their square roots. *)
Definition is_prime (n : Z) : bool :=
  forallb (fun d => negb (n mod Z.of_nat d =? 0)) (seq 2 (Z.to_nat n - 2)).

Definition primes : list Z :=
  List.filter is_prime (map Z.of_nat (seq 2 310)).

Fixpoint cube_root_bits (k : nat) (r n : Z) : Z :=
  match k with
  | O => r
  | S k' =>
      let r' := r + 2 ^ Z.of_nat k' in
      if r' * r' * r' <=? n then cube_root_bits k' r' n else cube_root_bits k' r n
  end.

(** The first 32 bits of the fractional part of the cube root of each of
    the first 64 primes. *)
Definition K : list Z :=
  Eval vm_compute in
    map (fun p => w32 (cube_root_bits 40 0 (Z.shiftl p 96))) (take 64 primes).

(** The second 32 bits of the fractional part of the square root of the
    9th to the 16th prime. *)
Definition H0 : list Z :=
  Eval vm_compute in
    map (fun p => w32 (Z.sqrt (Z.shiftl p 128))) (take 8 (drop 8 primes)).

(** Message padding: a one bit, zeros up to 56 modulo 64, the bit length
    on eight bytes. *)
Definition be_bytes (n : nat) (x : Z) : list Z :=
  map (fun i => Z.land (Z.shiftr x (8 * Z.of_nat i)) 0xff) (rev (seq 0 n)).

Definition pad (msg : list Z) : list Z :=
  let len := Z.of_nat (length msg) in
  let zeros := Z.to_nat ((55 - len) mod 64) in
  msg ++ [0x80] ++ repeat 0 zeros ++ be_bytes 8 (8 * len).

Definition be_word (bs : list Z) : Z :=
  fold_left (fun acc b => Z.lor (Z.shiftl acc 8) b) bs 0.

(** The message schedule, most recent word first. *)
Fixpoint expand (k : nat) (rw : list Z) : list Z :=
  match k with
  | O => rw
  | S k' =>
      let x := add32 (add32 (ssig1 (nth 1 rw 0)) (nth 6 rw 0))
                     (add32 (ssig0 (nth 14 rw 0)) (nth 15 rw 0)) in
      expand k' (x :: rw)
  end.

Definition schedule (block : list Z) : list Z :=
  rev (expand 48 (rev (map be_word (Hex.slices 16 block 4)))).

Definition round (st : list Z) (kw : Z * Z) : list Z :=
  match st with
  | [a; b; c; d; e; f; g; h] =>
      let t1 := add32 (add32 (add32 h (bsig1 e)) (add32 (ch e f g) (fst kw))) (snd kw) in
      let t2 := add32 (bsig0 a) (maj a b c) in
      [add32 t1 t2; a; b; c; add32 d t1; e; f; g]
  | _ => st
  end.

Definition compress (hs block : list Z) : list Z :=
  zip_with add32 hs (fold_left round (zip K (schedule block)) hs).

Definition hex8 (x : Z) : string :=
  string_of_list_ascii
    (map (fun i => Hex.hex_digit (Z.to_N (Z.land (Z.shiftr x (4 * Z.of_nat i)) 0xf))) (rev (seq 0 8))).

Definition bytes_of (s : string) : list Z :=
  map (fun c => Z.of_N (N_of_ascii c)) (list_ascii_of_string s).

(** [hashlib.sha224(data).hexdigest()] *)
Definition hexdigest (data : string) : string :=
  let padded := pad (bytes_of data) in
  let blocks := Hex.slices (length padded) padded 64 in
  String.concat "" (map hex8 (take 7 (fold_left compress blocks H0))).

End SHA224.

(** ** The interpreter: exceptions, the file tree, the state monad *)

Inductive exn :=
| ValueError (msg : string)
| FileNotFoundError (path : string)
| UnpicklingError (path : string)
| UnicodeError
| IndexError
| NameError (name : string).

Record file := File { mtime : Z; data : string }.

(** What a run of the script reads and changes: the files under the
    repository root, the number of files written so far (the clock is read
    once per write), the paths opened for writing (most recent first) and
    the module-level dictionary [hashes]. *)
Record state := State {
  files : gmap string file;
  tick : nat;
  written : list string;
  hashes : gmap string string
}.

Inductive outcome (A : Type) :=
| Ok (a : A) (s : state)
| Raise (e : exn) (s : state).
Arguments Ok {A} a s.
Arguments Raise {A} e s.

Definition M (A : Type) : Type := state -> outcome A.

Definition ret {A} (a : A) : M A := fun s => Ok a s.
Definition raise {A} (e : exn) : M A := fun s => Raise e s.
Definition bind {A B} (m : M A) (k : A -> M B) : M B :=
  fun s => match m s with
           | Ok a s' => k a s'
           | Raise e s' => Raise e s'
           end.

Notation "x <- m ;; k" := (bind m (fun x => k))
  (at level 100, m at next level, right associativity).
Notation "m ;;; k" := (bind m (fun _ => k))
  (at level 100, right associativity).

Definition final_state {A} (o : outcome A) : state :=
  match o with Ok _ s => s | Raise _ s => s end.

Definition succeeds {A} (o : outcome A) : bool :=
  match o with Ok _ _ => true | Raise _ _ => false end.

Definition result {A} (o : outcome A) : option A :=
  match o with Ok a _ => Some a | Raise _ _ => None end.

Definition exception {A} (o : outcome A) : option exn :=
  match o with Ok _ _ => None | Raise e _ => Some e end.

(** What [json.load] does with the contents of a file: a value, a
    [json.JSONDecodeError], or a [UnicodeDecodeError] while reading the
    text.  Both errors are [ValueError]s. *)
Inductive parsed (A : Type) :=
| Parsed (a : A)
| JSONDecodeError
| UnicodeDecodeError.
Arguments Parsed {A} a.
Arguments JSONDecodeError {A}.
Arguments UnicodeDecodeError {A}.

(** What the two calls of git do: [git --version] fails
    ([CalledProcessError]), a process cannot be started ([OSError]), or
    [git rev-parse HEAD] ends with a return code and an output. *)
Inductive git_result :=
| GitNotFound
| GitOSError
| GitRevParse (returncode : Z) (stdout : string).

(** The libraries of the interpreter and the world outside the repository.
    [pickle_loads] answers [None] where unpickling or the lookup of
    ['sorted_sources'] raises; [hashes_loads] is [json.load] on a document
    that, when it parses, is an object of strings; [clock n] is the time
    stamp the file system gives to the n-th write, [datetime_now n] the
    text of [str(datetime.now())] at that moment. *)
Record libs := Libs {
  json : Type;
  json_loads : string -> parsed json;
  json_dumps : list json -> string;
  json_dumps_indent : list json -> string;
  hashes_loads : string -> parsed (gmap string string);
  hashes_dumps : gmap string string -> string;
  pickle_dumps : list string -> string;
  pickle_loads : string -> option (list string);
  zlib_compress : string -> string;
  clock : nat -> Z;
  datetime_now : nat -> string;
  git : git_result
}.

(** [os.path.exists], [Path.exists], [os.path.isfile] *)
Definition exists_ (p : string) : M bool :=
  fun s => Ok (bool_decide (is_Some (files s !! p))) s.

(** [os.path.getmtime] *)
Definition getmtime (p : string) : M Z :=
  fun s => match files s !! p with
           | Some f => Ok (mtime f) s
           | None => Raise (FileNotFoundError p) s
           end.

(** [open(p, 'rb').read()], and the bytes that [json.load] and
    [pickle.load] are given *)
Definition read (p : string) : M string :=
  fun s => match files s !! p with
           | Some f => Ok (data f) s
           | None => Raise (FileNotFoundError p) s
           end.

(** What a file opened in text mode gives: [\r\n] and [\r] are read as
    [\n]. *)
Fixpoint universal_newlines (s : string) : string :=
  match s with
  | EmptyString => EmptyString
  | String c s' =>
      if Ascii.eqb c "013" then
        match s' with
        | String c' s'' =>
            if Ascii.eqb c' "010" then String "010" (universal_newlines s'')
            else String "010" (universal_newlines s')
        | EmptyString => String "010" EmptyString
        end
      else String c (universal_newlines s')
  end.

(** [open(p, 'r').read()] *)
Definition read_text (p : string) : M string :=
  fun s => match files s !! p with
           | Some f => Ok (universal_newlines (data f)) s
           | None => Raise (FileNotFoundError p) s
           end.

(** [open(p, 'w')], [write], [close] *)
Definition write (L : libs) (p content : string) : M unit :=
  fun s => Ok tt {| files := <[p := File (clock L (tick s)) content]> (files s);
                    tick := S (tick s);
                    written := p :: written s;
                    hashes := hashes s |}.

Definition get_hashes : M (gmap string string) := fun s => Ok (hashes s) s.

Definition set_hashes (h : gmap string string) : M unit :=
  fun s => Ok tt {| files := files s; tick := tick s; written := written s; hashes := h |}.

(** [hashes[key] = value] *)
Definition store_hash (key value : string) : M unit :=
  h <- get_hashes ;; set_hashes (<[key := value]> h).

Definition now (L : libs) : M string := fun s => Ok (datetime_now L (tick s)) s.

(** ** Strings *)

Definition is_ascii (s : string) : bool :=
  forallb (fun c => (N_of_ascii c <? 128)%N) (list_ascii_of_string s).

(** [s.encode('ascii')] *)
Definition encode_ascii (s : string) : M string :=
  if is_ascii s then ret s else raise UnicodeError.

(** [get_hash] on bytes *)
Definition get_hash (data : string) : string := SHA224.hexdigest data.

(** [get_hash] on a str: hashlib refuses it with a TypeError and the
    handler encodes it. *)
Definition get_hash_str (s : string) : M string :=
  b <- encode_ascii s ;; ret (get_hash b).

(** The blanks of [str.isspace].  A text is held as the bytes of its
    UTF-8 encoding: the ASCII blanks are one byte each (9 to 13 and 28 to
    32), U+0085 and U+00A0 are two bytes, U+1680, U+2000 to U+200A,
    U+2028, U+2029, U+202F, U+205F and U+3000 are three. *)
Definition is_space (c : ascii) : bool :=
  let n := N_of_ascii c in
  (((9 <=? n) && (n <=? 13)) || ((28 <=? n) && (n <=? 32)))%N.

Definition is_space2 (c1 c2 : ascii) : bool :=
  let '(a, b) := (N_of_ascii c1, N_of_ascii c2) in
  ((a =? 194) && ((b =? 133) || (b =? 160)))%N.

Definition is_space3 (c1 c2 c3 : ascii) : bool :=
  let '(a, b, c) := (N_of_ascii c1, N_of_ascii c2, N_of_ascii c3) in
  (((a =? 225) && (b =? 154) && (c =? 128))
   || ((a =? 226) && (b =? 128)
       && (((128 <=? c) && (c <=? 138)) || (c =? 168) || (c =? 169) || (c =? 175)))
   || ((a =? 226) && (b =? 129) && (c =? 159))
   || ((a =? 227) && (b =? 128) && (c =? 128)))%N.

(** The blanks taken from the front of a text; with [backwards], from the
    front of a text whose bytes come in reverse order. *)
Fixpoint strip_front (backwards : bool) (s : string) : string :=
  match s with
  | String c1 s1 =>
      if is_space c1 then strip_front backwards s1 else
      match s1 with
      | String c2 s2 =>
          if (if backwards then is_space2 c2 c1 else is_space2 c1 c2)
          then strip_front backwards s2 else
          match s2 with
          | String c3 s3 =>
              if (if backwards then is_space3 c3 c2 c1 else is_space3 c1 c2 c3)
              then strip_front backwards s3 else s
          | EmptyString => s
          end
      | EmptyString => s
      end
  | EmptyString => EmptyString
  end.

(** [s.lstrip()] *)
Definition lstrip (s : string) : string := strip_front false s.

Definition rev_string (s : string) : string :=
  string_of_list_ascii (rev (list_ascii_of_string s)).

(** [s.strip()] *)
Definition strip (s : string) : string :=
  rev_string (strip_front true (rev_string (lstrip s))).

Fixpoint string_drop (n : nat) (s : string) : string :=
  match n, s with
  | S n', String _ s' => string_drop n' s'
  | _, _ => s
  end.

(** The text before and after the first occurrence of [sub]. *)
Fixpoint find_sub (sub s : string) : option (string * string) :=
  if String.prefix sub s then Some (EmptyString, string_drop (String.length sub) s)
  else match s with
       | EmptyString => None
       | String c s' =>
           match find_sub sub s' with
           | Some (b, a) => Some (String c b, a)
           | None => None
           end
       end.

(** [sub in s] *)
Definition contains (sub s : string) : bool :=
  match find_sub sub s with Some _ => true | None => false end.

(** [s.split(sep)[0]] and [s.split(sep)[1]] *)
Definition split0 (sep s : string) : string :=
  match find_sub sep s with Some (b, _) => b | None => s end.

Definition split1 (sep s : string) : option string :=
  match find_sub sep s with
  | Some (_, a) => Some (split0 sep a)
  | None => None
  end.

Definition is_newline (c : ascii) : bool := Ascii.eqb c "010".

(** The lines of a text, without their terminators (the script only
    searches and strips them). *)
Fixpoint lines (s : string) : list string :=
  match s with
  | EmptyString => [EmptyString]
  | String c s' =>
      if is_newline c then EmptyString :: lines s'
      else match lines s' with
           | l :: ls => String c l :: ls
           | [] => [String c EmptyString]
           end
  end.

Definition ends_with (suffix s : string) : bool :=
  String.prefix (rev_string suffix) (rev_string s).

(** [sorted] on paths *)
Fixpoint insert_sorted (x : string) (l : list string) : list string :=
  match l with
  | [] => [x]
  | y :: l' => if String.leb x y then x :: l else y :: insert_sorted x l'
  end.

Definition sorted (l : list string) : list string :=
  fold_right insert_sorted [] l.

(** [old] is not empty. *)
Fixpoint replace_upto (fuel : nat) (old new s : string) : string :=
  match fuel with
  | O => s
  | S fuel' =>
      match find_sub old s with
      | Some (b, a) => b ++ new ++ replace_upto fuel' old new a
      | None => s
      end
  end.

(** [s.replace(old, new)] *)
Definition replace (old new s : string) : string :=
  replace_upto (String.length s) old new s.

Definition dq : string := String "034"%char EmptyString.
Definition nl : string := Hex.nl.

(** ** Directory listings *)

(** The name of [p] when it lies directly in the directory [dir]. *)
Definition entry_name (dir p : string) : option string :=
  if String.prefix (dir ++ "/") p then
    let name := string_drop (String.length dir + 1) p in
    if contains "/" name then None else Some name
  else None.

(** The entries of [dir] in the order the file system lists them, here
    the order of the map. *)
Definition scandir (dir : string) (fs : gmap string file) : list (string * string) :=
  omap (fun p => match entry_name dir p with
                 | Some name => Some (p, name)
                 | None => None
                 end) (map fst (map_to_list fs)).

(** [Path(dir).glob('*.json')]: hidden files match. *)
Definition pathlib_matches (dir : string) (fs : gmap string file) : list string :=
  map fst (List.filter (fun e => ends_with ".json" (snd e)) (scandir dir fs)).

Definition pathlib_glob_json (dir : string) : M (list string) :=
  fun s => Ok (pathlib_matches dir (files s)) s.

(** [glob.glob(os.path.join(dir, '*.json'))]: hidden files do not match. *)
Definition glob_matches (dir : string) (fs : gmap string file) : list string :=
  map fst (List.filter (fun e => ends_with ".json" (snd e) && negb (String.prefix "." (snd e)))
                       (scandir dir fs)).

Definition glob_json (dir : string) : M (list string) :=
  fun s => Ok (glob_matches dir (files s)) s.

(** ** The paths of the script *)

Definition hashes_fname : string := "dev/hashes.json".
Definition dev (name : string) : string := "dev/" ++ name.
Definition include (name : string) : string := "include/" ++ name.

(** Lines 33-43: the dictionary is loaded when the module is imported. *)
Definition load_hashes (L : libs) : M unit :=
  e <- exists_ hashes_fname ;;
  if e then
    text <- read hashes_fname ;;
    match hashes_loads L text with
    | Parsed h => set_hashes h
    | JSONDecodeError => set_hashes ∅
    | UnicodeDecodeError => raise UnicodeError
    end
  else set_hashes ∅.

Definition values : list (string * string * string) :=
  [ ("all_fluids.json", "all_fluids_JSON.h", "all_fluids_JSON");
    ("all_incompressibles.json", "all_incompressibles_JSON.h", "all_incompressibles_JSON");
    ("mixtures/mixture_departure_functions.json", "mixture_departure_functions_JSON.h", "mixture_departure_functions_JSON");
    ("mixtures/mixture_binary_pairs.json", "mixture_binary_pairs_JSON.h", "mixture_binary_pairs_JSON");
    ("mixtures/predefined_mixtures.json", "predefined_mixtures_JSON.h", "predefined_mixtures_JSON");
    ("cubics/all_cubic_fluids.json", "all_cubics_JSON.h", "all_cubics_JSON");
    ("cubics/cubic_fluids_schema.json", "cubic_fluids_schema_JSON.h", "cubic_fluids_schema_JSON");
    ("pcsaft/pcsaft_fluids_schema.json", "pcsaft_fluids_schema_JSON.h", "pcsaft_fluids_schema_JSON");
    ("pcsaft/all_pcsaft_fluids.json", "all_pcsaft_JSON.h", "all_pcsaft_JSON");
    ("pcsaft/mixture_binary_pairs_pcsaft.json", "mixture_binary_pairs_pcsaft_JSON.h", "mixture_binary_pairs_pcsaft_JSON") ].

Definition zvalues : list (string * string * string) :=
  [ ("all_fluids.json.z", "all_fluids_JSON_z.h", "all_fluids_JSON_z") ].

Definition incbin_template : string :=
  "/* File generated for use with incbin */" ++ nl ++ nl ++
  "#ifdef __cplusplus" ++ nl ++
  "extern " ++ dq ++ "C" ++ dq ++ " {" ++ nl ++
  "#endif" ++ nl ++ nl ++
  "/* INCBIN(%SYMBOL%, " ++ dq ++ "all_fluids.json.z" ++ dq ++ "); */" ++ nl ++
  "INCBIN_CONST INCBIN_ALIGN unsigned char g%SYMBOL%Data[] = {" ++ nl ++
  "%DATA%" ++ nl ++
  "};" ++ nl ++
  "INCBIN_CONST INCBIN_ALIGN unsigned char *const g%SYMBOL%End = g%SYMBOL%Data + sizeof(g%SYMBOL%Data);" ++ nl ++
  "INCBIN_CONST unsigned int g%SYMBOL%Size = sizeof(g%SYMBOL%Data);" ++ nl ++ nl ++
  "#ifdef __cplusplus" ++ nl ++
  "}" ++ nl ++
  "#endif" ++ nl.

(** ** get_version and version_to_file (lines 195-255) *)

(** [[line for line in lines if (key in line and other not in line)][0]
    .strip().split(key)[1].split(')')[0].strip()] *)
Definition version_field (key other : string) (ls : list string) : option string :=
  match List.filter (fun line => contains key line && negb (contains other line)) ls with
  | [] => None
  | line :: _ =>
      match split1 key (strip line) with
      | Some part => Some (strip (split0 ")" part))
      | None => None
      end
  end.

(** The four fields joined, or [None] where a list of lines is empty and
    its index [0] raises. *)
Definition parse_version (text : string) : option string :=
  let ls := lines text in
  match version_field "VERSION_MAJOR" "MINOR" ls,
        version_field "VERSION_MINOR" "MAJOR" ls,
        version_field "VERSION_PATCH" "MINOR" ls,
        version_field "VERSION_REVISION" "MINOR" ls with
  | Some MAJOR, Some MINOR, Some PATCH, Some REVISION =>
      Some (String.concat "." [MAJOR; MINOR; PATCH] ++ REVISION)
  | _, _, _, _ => None
  end.

Definition get_version : M string :=
  text <- read_text "CMakeLists.txt" ;;
  match parse_version text with
  | Some version => ret version
  | None => raise IndexError
  end.

Definition version_to_file (L : libs) : M unit :=
  version <- get_version ;;
  h <- get_hashes ;;
  stale <- match h !! "version" with
           | None => ret true
           | Some stored =>
               b <- encode_ascii version ;;
               ret (bool_decide (stored ≠ get_hash b))
           end ;;
  (if stale : bool then
     digest <- get_hash_str version ;;
     store_hash "version" digest ;;;
     t <- now L ;;
     let string_for_file :=
       "//Generated by the generate_headers.py script on " ++ t ++ nl ++ nl ++
       "static char version [] =" ++ dq ++ version ++ dq ++ ";" in
     write L (include "cpversion.h") string_for_file
   else ret tt) ;;;
  write L ".version" version.

(** ** gitrev_to_file (lines 258-319) *)

(** The body of the outer [try]; [None] where [CalledProcessError] or
    [OSError] is caught by the outer handler. *)
Definition get_gitrev (L : libs) : M (option string) :=
  match git L with
  | GitOSError => ret None
  | GitNotFound => ret (Some "???")
  | GitRevParse returncode stdout =>
      if bool_decide (returncode ≠ 0) then
        e <- exists_ (dev "gitrevision.txt") ;;
        if e then
          text <- read_text (dev "gitrevision.txt") ;;
          ret (Some (strip text))
        else ret (Some "???")
      else
        let gitrev := strip stdout in
        if contains " " gitrev then raise (NameError "rev")
        else ret (Some gitrev)
  end.

Definition gitrev_to_file (L : libs) : M unit :=
  r <- get_gitrev L ;;
  match r with
  | None => ret tt
  | Some gitrev =>
      h <- get_hashes ;;
      stale <- match h !! "gitrevision" with
               | None => ret true
               | Some stored =>
                   digest <- get_hash_str gitrev ;;
                   ret (bool_decide (stored ≠ digest))
               end ;;
      if stale : bool then
        t <- now L ;;
        let gitstring :=
          "//Generated by the generate_headers.py script on " ++ t ++ nl ++ nl ++
          "std::string gitrevision = " ++ dq ++ gitrev ++ dq ++ ";" in
        write L (include "gitrevision.h") gitstring ;;;
        digest <- get_hash_str gitrev ;;
        store_hash "gitrevision" digest
      else ret tt
  end.

(** ** class DependencyManager (lines 321-347) *)

Module DependencyManager.

(** What [sources] can be: a list, as the signature of [__init__] says,
    or a generator, as [Path.glob] returns.  A generator holds what it has
    not yielded yet and yields it once. *)
Inductive iterable :=
| PyList (l : list string)
| Generator (rest : list string).

Record t := Make {
  sources : iterable;
  destination : string;
  cachefile : string
}.

Definition with_sources (self : t) (it : iterable) : t :=
  {| sources := it; destination := destination self; cachefile := cachefile self |}.

Definition pending (it : iterable) : list string :=
  match it with PyList l => l | Generator rest => rest end.

(** The iterable after a loop has taken everything but [rest] from it. *)
Definition advance (it : iterable) (rest : list string) : iterable :=
  match it with PyList l => PyList l | Generator _ => Generator rest end.

(** [sorted(self.sources)] *)
Definition sorted_sources (self : t) : list string * t :=
  (sorted (pending (sources self)), with_sources self (advance (sources self) [])).

(** The [for] loop of [needs_build]: the first source that is not older
    than the destination, and what the loop has not reached. *)
Inductive scan :=
| Newer (source : string) (rest : list string)
| NoneNewer.

Fixpoint scan_sources (dest_mtime : Z) (l : list string) : M scan :=
  match l with
  | [] => ret NoneNewer
  | source :: rest =>
      t <- getmtime source ;;
      if dest_mtime <=? t then ret (Newer source rest)
      else scan_sources dest_mtime rest
  end.

(** [f"source file {source} is newer than destination"] *)
Definition newer_reason (source : string) : string :=
  "source file " ++ source ++ " is newer than destination".

Definition needs_build (L : libs) (self : t) : M ((bool * string) * t) :=
  d <- exists_ (destination self) ;;
  if negb d then ret ((true, "destination does not exist"), self) else
  c <- exists_ (cachefile self) ;;
  if negb c then ret ((true, "cache file does not exist"), self) else
  dest_mtime <- getmtime (destination self) ;;
  sc <- scan_sources dest_mtime (pending (sources self)) ;;
  match sc with
  | Newer source rest =>
      ret ((true, newer_reason source), with_sources self (advance (sources self) rest))
  | NoneNewer =>
      let self := with_sources self (advance (sources self) []) in
      c <- exists_ (cachefile self) ;;
      if c then
        raw <- read (cachefile self) ;;
        match pickle_loads L raw with
        | None => raise (UnpicklingError (cachefile self))
        | Some previous_sources =>
            let (current, self) := sorted_sources self in
            if bool_decide (current ≠ previous_sources)
            then ret ((true, "source list has changed"), self)
            else ret ((false, ""), self)
        end
      else ret ((false, ""), self)
  end.

Definition write_cache (L : libs) (self : t) : M t :=
  let (current, self) := sorted_sources self in
  write L (cachefile self) (pickle_dumps L current) ;;;
  ret self.

End DependencyManager.

(** ** combine_json (lines 349-421) *)

(** The loops over the fragment files: [master += [json.load(open(file))]],
    or [ValueError] at the first file that does not decode. *)
Fixpoint load_fragments (L : libs) (paths : list string) (master : list (json L))
  : M (list (json L)) :=
  match paths with
  | [] => ret master
  | file :: rest =>
      text <- read file ;;
      match json_loads L text with
      | Parsed fluid => load_fragments L rest (master ++ [fluid])
      | _ => raise (ValueError ("unable to decode file " ++ file))
      end
  end.

(** The truth value of the pair that [needs_build] returns, when the pair
    itself is the condition of an [if]: a tuple of two items is true. *)
Definition tuple_truth {A B} (p : A * B) : bool := true.

Definition package_fluids (L : libs) (depfluids : DependencyManager.t) : M unit :=
  paths <- glob_json "dev/fluids" ;;
  master <- load_fragments L paths [] ;;
  write L (dev "all_fluids.json.z") (zlib_compress L (json_dumps L master)) ;;;
  write L (dev "all_fluids_verbose.json") (json_dumps_indent L master) ;;;
  write L (dev "all_fluids.json") (json_dumps L master) ;;;
  _ <- DependencyManager.write_cache L depfluids ;;
  ret tt.

Definition package_incompressibles (L : libs) (depincomp : DependencyManager.t) : M unit :=
  paths <- glob_json "dev/incompressible_liquids/json" ;;
  master <- load_fragments L paths [] ;;
  write L (dev "all_incompressibles_verbose.json") (json_dumps_indent L master) ;;;
  write L (dev "all_incompressibles.json") (json_dumps L master) ;;;
  _ <- DependencyManager.write_cache L depincomp ;;
  ret tt.

(** The managers of the two jobs.  [Path.glob] returns a generator, which
    lists its directory when it is first advanced; the script writes
    nothing into the two fragment directories, so the listing is taken
    here. *)
Definition new_depfluids : M DependencyManager.t :=
  found <- pathlib_glob_json "dev/fluids" ;;
  ret (DependencyManager.Make (DependencyManager.Generator found)
         (dev "all_fluids.json.z") (dev ".fluiddepcache")).

Definition new_depincomp : M DependencyManager.t :=
  found <- pathlib_glob_json "dev/incompressible_liquids/json" ;;
  ret (DependencyManager.Make (DependencyManager.Generator found)
         (dev "all_incompressibles.json") (dev ".incompdepcache")).

Definition combine_fluids (L : libs) : M unit :=
  depfluids <- new_depfluids ;;
  r <- DependencyManager.needs_build L depfluids ;;
  let '((needs, reason), depfluids) := r in
  if needs : bool then package_fluids L depfluids else ret tt.

Definition combine_incompressibles (L : libs) : M unit :=
  depincomp <- new_depincomp ;;
  r <- DependencyManager.needs_build L depincomp ;;
  if tuple_truth (fst r) then package_incompressibles L (snd r) else ret tt.

Definition combine_json (L : libs) : M unit :=
  combine_fluids L ;;; combine_incompressibles L.

(** ** TO_CPP (lines 83-193) *)

(** The local function [needs_build] of [TO_CPP]. *)
Definition needs_build (inpath outpath : string) : M bool :=
  o <- exists_ outpath ;;
  if negb o then ret true else
  i <- exists_ inpath ;;
  if negb i then raise (ValueError (inpath ++ " cannot be found")) else
  tin <- getmtime inpath ;;
  tout <- getmtime outpath ;;
  ret (tout <? tin).

(** The condition of lines 127 and 174.  The hex string is ASCII, so its
    [encode('ascii')] is the string itself. *)
Definition must_write (outpath variable hex_string : string) : M bool :=
  o <- exists_ outpath ;;
  h <- get_hashes ;;
  ret (negb o
       || bool_decide (h !! variable = None)
       || bool_decide (h !! variable ≠ Some (get_hash hex_string))).

(** The body of the loop over [zvalues], lines 103-137. *)
Definition embed_z (L : libs) (job : string * string * string) : M unit :=
  let '(infile, outfile, variable) := job in
  let inpath := dev infile in
  let outpath := include outfile in
  stale <- needs_build inpath outpath ;;
  if negb stale then ret tt else
  json_ <- read inpath ;;
  let hex_string := Hex.hex_string json_ in
  w <- must_write outpath variable hex_string ;;
  if w : bool then
    write L outpath
      (replace "%DATA%" hex_string (replace "%SYMBOL%" variable incbin_template)) ;;;
    store_hash variable (get_hash hex_string)
  else ret tt.

(** The body of the loop over [values], lines 140-193. *)
Definition embed_json (L : libs) (job : string * string * string) : M unit :=
  let '(infile, outfile, variable) := job in
  let inpath := dev infile in
  let outpath := include outfile in
  stale <- needs_build inpath outpath ;;
  if negb stale then ret tt else
  text <- read inpath ;;
  match json_loads L text with
  | Parsed _ =>
      text <- read_text inpath ;;
      json_ <- encode_ascii text ;;
      let hex_string := Hex.hex_string json_ in
      w <- must_write outpath variable hex_string ;;
      if w : bool then
        t <- now L ;;
        let output :=
          "// File generated by the script dev/generate_headers.py on " ++ t ++ nl ++ nl ++
          "// JSON file encoded in binary form" ++ nl ++
          "const unsigned char " ++ variable ++ "_binary[] = {" ++ nl ++ hex_string ++ nl ++ "};" ++ nl ++ nl ++
          "// Combined into a single std::string " ++ nl ++
          "std::string " ++ variable ++ "(" ++ variable ++ "_binary, " ++ variable ++
          "_binary + sizeof(" ++ variable ++ "_binary)/sizeof(" ++ variable ++ "_binary[0]));" in
        write L outpath output ;;;
        store_hash variable (get_hash hex_string)
      else ret tt
  | _ => raise (ValueError ("unable to decode file " ++ inpath))
  end.

Fixpoint for_each {A} (body : A -> M unit) (l : list A) : M unit :=
  match l with
  | [] => ret tt
  | x :: rest => body x ;;; for_each body rest
  end.

Definition TO_CPP (L : libs) : M unit :=
  combine_json L ;;;
  for_each (embed_z L) zvalues ;;;
  for_each (embed_json L) values.

(** ** generate (lines 424-440) and the run of the script *)

Definition generate (L : libs) : M unit :=
  version_to_file L ;;;
  gitrev_to_file L ;;;
  TO_CPP L ;;;
  h <- get_hashes ;;
  if bool_decide (h ≠ ∅) then write L hashes_fname (hashes_dumps L h) else ret tt.

Definition main (L : libs) : M unit :=
  load_hashes L ;;; generate L.

(** A new process on the files an earlier one has left: its record of
    written paths is empty, its dictionary is not loaded yet. *)
Definition new_process (s : state) : state :=
  {| files := files s; tick := tick s; written := []; hashes := ∅ |}.

(** ** Vocabulary of the properties *)

(** A computation that only reads: it ends in the state it started in. *)
Definition pure {A} (m : M A) : Prop := forall s, final_state (m s) = s.

(** A computation that opens for writing only files among [paths] and
    assigns in [hashes] only keys among [keys]. *)
Definition touches (paths keys : list string) {A} (m : M A) : Prop :=
  forall s, let s' := final_state (m s) in
    (exists new, written s' = (new ++ written s)%list /\ forall p, In p new -> In p paths)
    /\ (forall p, ~ In p paths -> files s' !! p = files s !! p)
    /\ (forall k, ~ In k keys -> hashes s' !! k = hashes s !! k).

Definition fluids_paths : list string :=
  [ dev "all_fluids.json.z"; dev "all_fluids_verbose.json"; dev "all_fluids.json";
    dev ".fluiddepcache" ].

Definition incomp_paths : list string :=
  [ dev "all_incompressibles_verbose.json"; dev "all_incompressibles.json";
    dev ".incompdepcache" ].

Definition job_outpath (job : string * string * string) : string := include (snd (fst job)).
Definition job_variable (job : string * string * string) : string := snd job.

Definition to_cpp_paths : list string :=
  (fluids_paths ++ incomp_paths ++ map job_outpath (zvalues ++ values))%list.

Definition to_cpp_keys : list string := map job_variable (zvalues ++ values).

(** The condition of lines 127 and 174 as a proposition. *)
Definition gate_open (s : state) (outpath variable hex_string : string) : Prop :=
  files s !! outpath = None
  \/ hashes s !! variable = None
  \/ hashes s !! variable <> Some (get_hash hex_string).

(** An embed job writes nothing but its destination, writes it only
    through an open gate, and leaves the state as it is when the
    destination exists and the stored digest is the digest of the encoded
    payload, whatever the modification times are.  [payload] is what the
    job makes of the contents of its input: the bytes themselves, or the
    text read from them. *)
Definition hash_gated (payload : string -> string)
           (embed : string * string * string -> M unit) : Prop :=
  forall (infile outfile variable : string) (s : state),
    let s' := final_state (embed (infile, outfile, variable) s) in
    (written s' <> written s ->
       exists fi, files s !! dev infile = Some fi
                  /\ written s' = include outfile :: written s
                  /\ gate_open s (include outfile) variable (Hex.hex_string (payload (data fi))))
    /\ (forall fi fo,
          files s !! dev infile = Some fi ->
          files s !! include outfile = Some fo ->
          hashes s !! variable = Some (get_hash (Hex.hex_string (payload (data fi)))) ->
          s' = s).

(** A fragment that [json.load] refuses. *)
Definition undecodable (L : libs) (s : state) (p : string) : Prop :=
  exists f, files s !! p = Some f /\ forall j, json_loads L (data f) <> Parsed j.

(** The body of an aggregation job stops at a fragment of [dir] it cannot
    decode: it raises, names the fragment, and has written nothing. *)
Definition stops_at_bad_fragment (L : libs) (dir : string) (package : M unit) : Prop :=
  forall s,
    (exists p, In p (glob_matches dir (files s)) /\ undecodable L s p) ->
    exists p, In p (glob_matches dir (files s)) /\ undecodable L s p
              /\ package s = Raise (ValueError ("unable to decode file " ++ p)) s.

(** ** A sample interpreter and a sample repository

    Stand-ins for the libraries, to run the script on concrete files: a
    text decodes as JSON when it starts with a bracket or a brace, the
    dictionary is stored one [key:value] per line, a pickle is a line [P]
    followed by one path per line, compression prefixes a [z], every write
    advances the clock by one. *)

Module Sample.

Definition loads (text : string) : parsed string :=
  match text with
  | String c _ => if Ascii.eqb c "[" || Ascii.eqb c "{" then Parsed text else JSONDecodeError
  | EmptyString => JSONDecodeError
  end.

Definition dumps (master : list string) : string :=
  "[" ++ String.concat ", " master ++ "]".

Definition dumps_indent (master : list string) : string :=
  "[" ++ nl ++ "  " ++ String.concat ("," ++ nl ++ "  ") master ++ nl ++ "]".

Definition nonempty (s : string) : bool := negb (String.eqb s "").

Definition entry (line : string) : option (string * string) := find_sub ":" line.

Definition dict_loads (text : string) : parsed (gmap string string) :=
  let ls := List.filter nonempty (lines text) in
  if forallb (fun l => contains ":" l) ls
  then Parsed (list_to_map (omap entry ls))
  else JSONDecodeError.

Definition dict_dumps (h : gmap string string) : string :=
  String.concat nl (map (fun kv => fst kv ++ ":" ++ snd kv) (map_to_list h)).

Definition pickle (l : list string) : string :=
  String.concat nl ("P" :: l).

Definition unpickle (raw : string) : option (list string) :=
  match lines raw with
  | "P" :: l => Some l
  | _ => None
  end.

Definition L : libs :=
  {| json := string;
     json_loads := loads;
     json_dumps := dumps;
     json_dumps_indent := dumps_indent;
     hashes_loads := dict_loads;
     hashes_dumps := dict_dumps;
     pickle_dumps := pickle;
     pickle_loads := unpickle;
     zlib_compress := fun s => "z" ++ s;
     clock := Z.of_nat;
     datetime_now := fun _ => "2024-01-01 00:00:00.000000";
     git := GitRevParse 0 ("0123456789abcdef0123456789abcdef01234567" ++ nl) |}.

Definition cmakelists : string :=
  "project(CoolProp)" ++ nl ++
  "set (CoolProp_VERSION_MAJOR 6)" ++ nl ++
  "set (CoolProp_VERSION_MINOR 4)" ++ nl ++
  "set (CoolProp_VERSION_PATCH 2)" ++ nl ++
  "set (CoolProp_VERSION_REVISION dev)" ++ nl.

Definition old (content : string) : file := File 0 content.

(** A checkout that has never been built: three fluids, one
    incompressible liquid, the hand-written JSON files. *)
Definition sources : gmap string file :=
  list_to_map
    [ ("CMakeLists.txt", old cmakelists);
      ("dev/fluids/a.json", old "{a}");
      ("dev/fluids/b.json", old "{b}");
      ("dev/fluids/c.json", old "{c}");
      ("dev/incompressible_liquids/json/w.json", old "{w}");
      ("dev/mixtures/mixture_departure_functions.json", old "[1]");
      ("dev/mixtures/mixture_binary_pairs.json", old "[2]");
      ("dev/mixtures/predefined_mixtures.json", old "[3]");
      ("dev/cubics/all_cubic_fluids.json", old "[4]");
      ("dev/cubics/cubic_fluids_schema.json", old "{5}");
      ("dev/pcsaft/pcsaft_fluids_schema.json", old "{6}");
      ("dev/pcsaft/all_pcsaft_fluids.json", old "[7]");
      ("dev/pcsaft/mixture_binary_pairs_pcsaft.json", old "[8]") ].

Definition checkout : state :=
  {| files := sources; tick := 1; written := []; hashes := ∅ |}.

(** The state a run leaves, for the next process. *)
Definition run (s : state) : state := new_process (final_state (main L s)).

Definition with_files (s : state) (fs : gmap string file) : state :=
  {| files := fs; tick := tick s; written := written s; hashes := hashes s |}.

(** The checkout after two runs of the script. *)
Definition built : state := run (run checkout).

(** ... after which one fluid is removed, *)
Definition removed : state :=
  with_files built (delete "dev/fluids/c.json" (files built)).

(** ... or the record of the fluid sources is damaged, *)
Definition corrupt_manifest : state :=
  with_files built (<["dev/.fluiddepcache" := File 0 "garbage"]> (files built)).

(** ... or the file of the digests is damaged, *)
Definition corrupt_hashes : state :=
  with_files built (<["dev/hashes.json" := File 0 "garbage"]> (files built)).

(** ... or one fluid no longer decodes. *)
Definition bad_fragment : state :=
  with_files built (<["dev/fluids/b.json" := File 0 "b}"]> (files built)).

(** An input and a destination with given modification times. *)
Definition two_files (tin tout : Z) : state :=
  {| files := {[ "dev/all_fluids.json" := File tin "[]";
                 "include/all_fluids_JSON.h" := File tout "" ]};
     tick := 0; written := []; hashes := ∅ |}.

Definition nothing : state := {| files := ∅; tick := 0; written := []; hashes := ∅ |}.

(** The compressed fluids without their header, their digest recorded. *)
Definition header_lost : state :=
  {| files := {[ "dev/all_fluids.json.z" := File 3 "z[{a}]" ]};
     tick := 10; written := [];
     hashes := {[ "all_fluids_JSON_z" := get_hash (Hex.hex_string "z[{a}]") ]} |}.

(** The same with the header in place, older than its input. *)
Definition header_kept : state :=
  {| files := {[ "dev/all_fluids.json.z" := File 3 "z[{a}]";
                 "include/all_fluids_JSON_z.h" := File 1 "" ]};
     tick := 10; written := [];
     hashes := {[ "all_fluids_JSON_z" := get_hash (Hex.hex_string "z[{a}]") ]} |}.

(** A manager over a list of two sources, built at time 5. *)
Definition manager : DependencyManager.t :=
  DependencyManager.Make (DependencyManager.PyList ["dev/fluids/b.json"; "dev/fluids/a.json"])
    "dev/all_fluids.json.z" "dev/.fluiddepcache".

Definition manager_state (ta tb : Z) (recorded : list string) : state :=
  {| files := {[ "dev/fluids/a.json" := File ta "{a}";
                 "dev/fluids/b.json" := File tb "{b}";
                 "dev/all_fluids.json.z" := File 5 "z";
                 "dev/.fluiddepcache" := File 5 (pickle recorded) ]};
     tick := 10; written := []; hashes := ∅ |}.

(** The three lines that the docstring of [version_to_file] gives. *)
Definition docstring_cmakelists : string :=
  "set (CoolProp_VERSION_MAJOR 5)" ++ nl ++
  "set (CoolProp_VERSION_MINOR 0)" ++ nl ++
  "set (CoolProp_VERSION_PATCH 0)" ++ nl.

Definition only_cmakelists (text : string) : state :=
  {| files := {[ "CMakeLists.txt" := File 0 text ]}; tick := 1; written := []; hashes := ∅ |}.

(** The sample libraries with another outcome of git. *)
Definition with_git (g : git_result) : libs :=
  {| json := string;
     json_loads := loads;
     json_dumps := dumps;
     json_dumps_indent := dumps_indent;
     hashes_loads := dict_loads;
     hashes_dumps := dict_dumps;
     pickle_dumps := pickle;
     pickle_loads := unpickle;
     zlib_compress := fun s => "z" ++ s;
     clock := Z.of_nat;
     datetime_now := fun _ => "2024-01-01 00:00:00.000000";
     git := g |}.

(** A combined file that is JSON and holds the two bytes of a letter with
    an accent. *)
Definition accented : string :=
  String "[" (String (ascii_of_nat 195) (String (ascii_of_nat 169) "]")).

Definition non_ascii_input : state :=
  {| files := {[ "dev/all_fluids.json" := File 8 accented ]};
     tick := 0; written := []; hashes := ∅ |}.

(** A fluid whose name starts with a dot, newer than the compressed file
    and not JSON, beside one that is visible. *)
Definition hidden_fluid : state :=
  {| files := {[ "dev/fluids/a.json" := File 1 "{a}";
                 "dev/fluids/.x.json" := File 9 "garbage";
                 "dev/all_fluids.json.z" := File 5 "z";
                 "dev/.fluiddepcache" := File 5 (pickle []) ]};
     tick := 10; written := []; hashes := ∅ |}.

End Sample.

(** ** More vocabulary *)

(** The characters of a digest and of an encoded payload. *)
Definition hex_char (c : ascii) : bool :=
  match Hex.hex_value c with Some _ => true | None => false end.

Definition encoding_char (c : ascii) : bool :=
  hex_char c || Ascii.eqb c "x" || Ascii.eqb c "," || Ascii.eqb c " " || Ascii.eqb c "010".

(** Every file that [generate] may open for writing, every key that it
    may assign. *)
Definition generate_paths : list string :=
  include "cpversion.h" :: ".version" :: include "gitrevision.h" :: hashes_fname :: to_cpp_paths.

Definition generate_keys : list string := "version" :: "gitrevision" :: to_cpp_keys.

(** The inputs that only people write: the build configuration, the
    cached revision, the JSON files that no job of the script produces. *)
Definition hand_written : list string :=
  "CMakeLists.txt" :: dev "gitrevision.txt" :: map (fun job => dev (fst (fst job))) (drop 2 values).

(** A computation under which no entry of [hashes] disappears. *)
Definition keeps_entries {A} (m : M A) : Prop :=
  forall s k, is_Some (hashes s !! k) -> is_Some (hashes (final_state (m s)) !! k).

(** A computation that, run again where it has ended well, ends well and
    changes nothing. *)
Definition settles (m : M unit) : Prop :=
  forall s s', m s = Ok tt s' -> m s' = Ok tt s'.

(** A computation that has changed nothing when it raises. *)
Definition all_or_nothing {A} (m : M A) : Prop :=
  forall s e s', m s = Raise e s' -> s' = s.

(** A computation that never raises. *)
Definition never_raises {A} (m : M A) : Prop :=
  forall s, succeeds (m s) = true.

(** The fragment at [p] decodes to [j]. *)
Definition decodes_to (L : libs) (s : state) (p : string) (j : json L) : Prop :=
  exists f, files s !! p = Some f /\ json_loads L (data f) = Parsed j.

(** What [TO_CPP] may write and assign apart from the header and the key
    of one job of [values], the jobs before it being [pre] and those after
    it [post]; and what [TO_CPP] does before it reaches that job. *)
Definition other_paths (pre post : list (string * string * string)) : list string :=
  (fluids_paths ++ incomp_paths ++ map job_outpath (zvalues ++ pre ++ post))%list.

Definition other_keys (pre post : list (string * string * string)) : list string :=
  map job_variable (zvalues ++ pre ++ post).

Definition before_job (L : libs) (pre : list (string * string * string)) : M unit :=
  combine_json L ;;; for_each (embed_z L) zvalues ;;; for_each (embed_json L) pre.

(** * Properties *)

(** ** The interpreter *)

Lemma exists_missing (p : string) (s : state) :
  files s !! p = None -> exists_ p s = Ok false s.
Proof.
  intros H. unfold exists_. rewrite H. rewrite bool_decide_eq_false_2; [reflexivity|].
  intros [x Hx]. discriminate.
Qed.

Lemma exists_present (p : string) (s : state) (f : file) :
  files s !! p = Some f -> exists_ p s = Ok true s.
Proof.
  intros H. unfold exists_. rewrite H. rewrite bool_decide_eq_true_2; [reflexivity|]. eauto.
Qed.

Lemma getmtime_present (p : string) (s : state) (f : file) :
  files s !! p = Some f -> getmtime p s = Ok (mtime f) s.
Proof. intros H. unfold getmtime. now rewrite H. Qed.

Lemma read_present (p : string) (s : state) (f : file) :
  files s !! p = Some f -> read p s = Ok (data f) s.
Proof. intros H. unfold read. now rewrite H. Qed.

Lemma read_text_present (p : string) (s : state) (f : file) :
  files s !! p = Some f -> read_text p s = Ok (universal_newlines (data f)) s.
Proof. intros H. unfold read_text. now rewrite H. Qed.

Lemma read_missing (p : string) (s : state) :
  files s !! p = None -> read p s = Raise (FileNotFoundError p) s.
Proof. intros H. unfold read. now rewrite H. Qed.

Lemma bind_ok {A B} (m : M A) (k : A -> M B) (s s' : state) (a : A) :
  m s = Ok a s' -> bind m k s = k a s'.
Proof. intros H. unfold bind. now rewrite H. Qed.

Lemma bind_raise {A B} (m : M A) (k : A -> M B) (s s' : state) (e : exn) :
  m s = Raise e s' -> bind m k s = Raise e s'.
Proof. intros H. unfold bind. now rewrite H. Qed.

Lemma bind_ok_inv {A B} (m : M A) (k : A -> M B) (s s' : state) (b : B) :
  bind m k s = Ok b s' -> exists a s1, m s = Ok a s1 /\ k a s1 = Ok b s'.
Proof. unfold bind. destruct (m s) as [a s1|e s1]; [eauto | discriminate]. Qed.

(** ** Computations that only read *)

Create HintDb pure.

Lemma pure_ret {A} (a : A) : pure (ret a).
Proof. intros s. reflexivity. Qed.

Lemma pure_raise {A} (e : exn) : pure (@raise A e).
Proof. intros s. reflexivity. Qed.

Lemma pure_bind {A B} (m : M A) (k : A -> M B) :
  pure m -> (forall a, pure (k a)) -> pure (bind m k).
Proof.
  intros Hm Hk s. unfold bind. specialize (Hm s).
  destruct (m s) as [a s'|e s']; cbn in Hm; subst s'; [apply Hk | reflexivity].
Qed.

Lemma pure_exists p : pure (exists_ p).
Proof. intros s. reflexivity. Qed.

Lemma pure_getmtime p : pure (getmtime p).
Proof. intros s. unfold getmtime. destruct (files s !! p); reflexivity. Qed.

Lemma pure_read p : pure (read p).
Proof. intros s. unfold read. destruct (files s !! p); reflexivity. Qed.

Lemma pure_read_text p : pure (read_text p).
Proof. intros s. unfold read_text. destruct (files s !! p); reflexivity. Qed.

Lemma pure_get_hashes : pure get_hashes.
Proof. intros s. reflexivity. Qed.

Lemma pure_now L : pure (now L).
Proof. intros s. reflexivity. Qed.

Lemma pure_pathlib_glob dir : pure (pathlib_glob_json dir).
Proof. intros s. reflexivity. Qed.

Lemma pure_glob dir : pure (glob_json dir).
Proof. intros s. reflexivity. Qed.

Lemma pure_encode_ascii text : pure (encode_ascii text).
Proof. unfold encode_ascii. destruct (is_ascii text); [apply pure_ret | apply pure_raise]. Qed.

#[local] Hint Resolve pure_ret pure_raise pure_exists pure_getmtime pure_read pure_read_text
  pure_get_hashes pure_now pure_pathlib_glob pure_glob pure_encode_ascii : pure.

(** Walks through a computation made of binds, conditionals and matches. *)
Ltac walk bind_lemma leaf :=
  repeat first
    [ leaf
    | apply bind_lemma; [|intros ?]
    | match goal with
      | |- context [if ?b then _ else _] => destruct b
      | |- context [match ?x with _ => _ end] => destruct x
      end ].

Ltac pure_walk := walk @pure_bind ltac:(solve [eauto with pure]).

Lemma pure_get_hash_str text : pure (get_hash_str text).
Proof. unfold get_hash_str. pure_walk. Qed.

Lemma pure_scan_sources d l : pure (DependencyManager.scan_sources d l).
Proof. induction l as [|x l IH]; cbn [DependencyManager.scan_sources]; pure_walk. Qed.

#[local] Hint Resolve pure_get_hash_str pure_scan_sources : pure.

Lemma pure_manager_needs_build L self : pure (DependencyManager.needs_build L self).
Proof. unfold DependencyManager.needs_build. pure_walk. Qed.

Lemma pure_needs_build inpath outpath : pure (needs_build inpath outpath).
Proof. unfold needs_build. pure_walk. Qed.

Lemma pure_must_write outpath variable hex : pure (must_write outpath variable hex).
Proof. unfold must_write. pure_walk. Qed.

Lemma pure_load_fragments L paths master : pure (load_fragments L paths master).
Proof.
  revert master. induction paths as [|p paths IH]; intros master; cbn [load_fragments]; pure_walk.
Qed.

Lemma pure_get_version : pure get_version.
Proof. unfold get_version. pure_walk. Qed.

Lemma pure_get_gitrev L : pure (get_gitrev L).
Proof. unfold get_gitrev. pure_walk. Qed.

Lemma pure_new_depfluids : pure new_depfluids.
Proof. unfold new_depfluids. pure_walk. Qed.

Lemma pure_new_depincomp : pure new_depincomp.
Proof. unfold new_depincomp. pure_walk. Qed.

#[local] Hint Resolve pure_manager_needs_build pure_needs_build pure_must_write
  pure_load_fragments pure_get_version pure_get_gitrev pure_new_depfluids pure_new_depincomp : pure.

(** ** What a computation may write *)

Lemma touches_pure {A} paths keys (m : M A) : pure m -> touches paths keys m.
Proof.
  intros Hm s. cbv zeta. rewrite (Hm s). split; [|split]; try reflexivity.
  exists []. split; [reflexivity | intros p []].
Qed.

Lemma touches_bind_post {A B} paths keys (Q : A -> Prop) (m : M A) (k : A -> M B) :
  touches paths keys m ->
  (forall s a s', m s = Ok a s' -> Q a) ->
  (forall a, Q a -> touches paths keys (k a)) ->
  touches paths keys (bind m k).
Proof.
  intros Hm HQ Hk s. cbv zeta. unfold bind.
  pose proof (Hm s) as Hs. cbv zeta in Hs.
  destruct (m s) as [a s1|e s1] eqn:E; cbn [final_state] in Hs; [|exact Hs].
  destruct Hs as [[new1 [Hw1 Hn1]] [Hf1 Hh1]].
  destruct (Hk a (HQ _ _ _ E) s1) as [[new2 [Hw2 Hn2]] [Hf2 Hh2]].
  split; [|split].
  - exists (new2 ++ new1)%list. split.
    + rewrite Hw2, Hw1. now rewrite app_assoc.
    + intros p Hp. apply in_app_or in Hp. destruct Hp; auto.
  - intros p Hp. now rewrite Hf2, Hf1.
  - intros x Hx. now rewrite Hh2, Hh1.
Qed.

Lemma touches_bind {A B} paths keys (m : M A) (k : A -> M B) :
  touches paths keys m -> (forall a, touches paths keys (k a)) ->
  touches paths keys (bind m k).
Proof.
  intros Hm Hk. apply (touches_bind_post paths keys (fun _ => True)); auto.
Qed.

Lemma touches_write L paths keys p content :
  In p paths -> touches paths keys (write L p content).
Proof.
  intros Hp s. cbn. split; [|split].
  - exists [p]. split; [reflexivity|]. intros q [<-|[]]. exact Hp.
  - intros q Hq. apply lookup_insert_ne. intros ->. contradiction.
  - reflexivity.
Qed.

Lemma touches_store_hash paths keys key value :
  In key keys -> touches paths keys (store_hash key value).
Proof.
  intros Hk s. cbn. split; [|split].
  - exists []. split; [reflexivity | intros p []].
  - reflexivity.
  - intros q Hq. apply lookup_insert_ne. intros ->. contradiction.
Qed.

Lemma touches_for_each {A} paths keys (body : A -> M unit) (l : list A) :
  (forall x, In x l -> touches paths keys (body x)) ->
  touches paths keys (for_each body l).
Proof.
  induction l as [|x l IH]; intros H; cbn [for_each].
  - apply touches_pure, pure_ret.
  - apply touches_bind; [apply H; now left|]. intros _. apply IH. intros y Hy. apply H. now right.
Qed.

Lemma touches_weaken {A} paths keys paths' keys' (m : M A) :
  incl paths paths' -> incl keys keys' -> touches paths keys m -> touches paths' keys' m.
Proof.
  intros Hp Hk Hm s. destruct (Hm s) as [[new [Hw Hn]] [Hf Hh]]. cbv zeta.
  split; [|split].
  - exists new. split; [exact Hw|]. intros p H. apply Hp, Hn, H.
  - intros p H. apply Hf. intros H'. apply H, Hp, H'.
  - intros x H. apply Hh. intros H'. apply H, Hk, H'.
Qed.

Ltac in_list := cbn; repeat (first [left; reflexivity | right]).

Ltac touches_leaf :=
  first [ apply touches_pure; solve [eauto with pure]
        | apply touches_write; solve [in_list | assumption]
        | apply touches_store_hash; solve [in_list | assumption] ].

Ltac touches_walk := walk @touches_bind touches_leaf.

Lemma touches_write_cache L paths keys self :
  In (DependencyManager.cachefile self) paths ->
  touches paths keys (DependencyManager.write_cache L self).
Proof.
  intros H. unfold DependencyManager.write_cache, DependencyManager.sorted_sources.
  cbn [DependencyManager.with_sources DependencyManager.cachefile]. touches_walk.
Qed.

Lemma manager_needs_build_same_files L self s r self' s' :
  DependencyManager.needs_build L self s = Ok (r, self') s' ->
  DependencyManager.cachefile self' = DependencyManager.cachefile self.
Proof.
  unfold DependencyManager.needs_build, bind, ret, raise, DependencyManager.sorted_sources.
  repeat match goal with
         | |- context [match ?x with _ => _ end] => destruct x
         end; intros H; try discriminate; injection H as <- <- <-; reflexivity.
Qed.

Lemma touches_package_fluids L keys self :
  DependencyManager.cachefile self = dev ".fluiddepcache" ->
  touches fluids_paths keys (package_fluids L self).
Proof.
  intros H. unfold package_fluids.
  walk @touches_bind ltac:(first [touches_leaf | apply touches_write_cache; rewrite H; in_list]).
Qed.

Lemma touches_package_incompressibles L keys self :
  DependencyManager.cachefile self = dev ".incompdepcache" ->
  touches incomp_paths keys (package_incompressibles L self).
Proof.
  intros H. unfold package_incompressibles.
  walk @touches_bind ltac:(first [touches_leaf | apply touches_write_cache; rewrite H; in_list]).
Qed.

Lemma touches_combine_fluids L keys : touches fluids_paths keys (combine_fluids L).
Proof.
  unfold combine_fluids.
  apply (touches_bind_post _ _ (fun dm => DependencyManager.cachefile dm = dev ".fluiddepcache")).
  - touches_leaf.
  - intros s a s' H. unfold new_depfluids, bind, pathlib_glob_json, ret in H. now injection H as <- _.
  - intros dm Hdm.
    apply (touches_bind_post _ _ (fun r => DependencyManager.cachefile (snd r) = dev ".fluiddepcache")).
    + touches_leaf.
    + intros s [r dm'] s' H. cbn. rewrite <- Hdm. eapply manager_needs_build_same_files, H.
    + intros [[needs reason] dm'] H. cbn in H. destruct needs.
      * now apply touches_package_fluids.
      * touches_leaf.
Qed.

Lemma touches_combine_incompressibles L keys :
  touches incomp_paths keys (combine_incompressibles L).
Proof.
  unfold combine_incompressibles.
  apply (touches_bind_post _ _ (fun dm => DependencyManager.cachefile dm = dev ".incompdepcache")).
  - touches_leaf.
  - intros s a s' H. unfold new_depincomp, bind, pathlib_glob_json, ret in H. now injection H as <- _.
  - intros dm Hdm.
    apply (touches_bind_post _ _ (fun r => DependencyManager.cachefile (snd r) = dev ".incompdepcache")).
    + touches_leaf.
    + intros s [r dm'] s' H. cbn. rewrite <- Hdm. eapply manager_needs_build_same_files, H.
    + intros [r dm'] H. cbn in H. cbn [tuple_truth fst snd].
      now apply touches_package_incompressibles.
Qed.

Lemma touches_embed_z L paths keys job :
  In (job_outpath job) paths -> In (job_variable job) keys ->
  touches paths keys (embed_z L job).
Proof.
  destruct job as [[infile outfile] variable]. cbn [job_outpath job_variable fst snd].
  intros Hp Hk. cbn [embed_z]. touches_walk.
Qed.

Lemma touches_embed_json L paths keys job :
  In (job_outpath job) paths -> In (job_variable job) keys ->
  touches paths keys (embed_json L job).
Proof.
  destruct job as [[infile outfile] variable]. cbn [job_outpath job_variable fst snd].
  intros Hp Hk. cbn [embed_json]. touches_walk.
Qed.

Lemma touches_TO_CPP L : touches to_cpp_paths to_cpp_keys (TO_CPP L).
Proof.
  unfold TO_CPP, combine_json.
  apply touches_bind; [apply touches_bind; [|intros _] | intros _; apply touches_bind; [|intros _]].
  - eapply touches_weaken; [| |apply (touches_combine_fluids L to_cpp_keys)].
    + unfold to_cpp_paths. apply incl_appl, incl_refl.
    + apply incl_refl.
  - eapply touches_weaken; [| |apply (touches_combine_incompressibles L to_cpp_keys)].
    + unfold to_cpp_paths. apply incl_appr, incl_appl, incl_refl.
    + apply incl_refl.
  - apply touches_for_each. intros job Hjob. apply touches_embed_z.
    + unfold to_cpp_paths. apply in_or_app. right. apply in_or_app. right.
      apply in_map, in_or_app. now left.
    + unfold to_cpp_keys. apply in_map, in_or_app. now left.
  - apply touches_for_each. intros job Hjob. apply touches_embed_json.
    + unfold to_cpp_paths. apply in_or_app. right. apply in_or_app. right.
      apply in_map, in_or_app. now right.
    + unfold to_cpp_keys. apply in_map, in_or_app. now right.
Qed.

Lemma touches_gitrev_to_file L :
  touches [include "gitrevision.h"] ["gitrevision"] (gitrev_to_file L).
Proof. unfold gitrev_to_file. touches_walk. Qed.

Lemma touches_version_to_file L :
  touches [include "cpversion.h"; ".version"] ["version"] (version_to_file L).
Proof. unfold version_to_file. touches_walk. Qed.

(** ** The hexadecimal encoding *)

Section Encoding.

Import Hex.

Lemma append_assoc (a b c : string) : (a ++ b) ++ c = a ++ (b ++ c).
Proof.
  induction a as [|x a IH]; [reflexivity|].
  change (String x ((a ++ b) ++ c) = String x (a ++ (b ++ c))). now rewrite IH.
Qed.

Lemma append_empty_r (a : string) : a ++ "" = a.
Proof.
  induction a as [|x a IH]; [reflexivity|].
  change (String x (a ++ "") = String x a). now rewrite IH.
Qed.

Lemma hex_value_digit (n : N) : (n < 16)%N -> hex_value (hex_digit n) = Some n.
Proof.
  intros Hn.
  destruct n as [|p]; [reflexivity|].
  do 4 (destruct p as [p|p|]; try reflexivity); exfalso; lia.
Qed.

Lemma literal_value (b : ascii) :
  ascii_of_N (16 * (N_of_ascii b / 16) + N_of_ascii b mod 16) = b.
Proof.
  rewrite <- N.div_mod by discriminate. apply ascii_N_embedding.
Qed.

Lemma parse_literal (b : ascii) (k : string) :
  parse_literals (literal b ++ k) =
  match parse_rest k with Some bs => Some (b :: bs) | None => None end.
Proof.
  assert (Hb : (N_of_ascii b < 256)%N) by apply N_ascii_bounded.
  change (literal b ++ k) with
    (String "0" (String "x" (String (hex_digit (N_of_ascii b / 16))
       (String (hex_digit (N_of_ascii b mod 16)) k)))).
  cbn [parse_literals Ascii.eqb Bool.eqb andb].
  rewrite !hex_value_digit.
  2: { apply N.mod_lt. discriminate. }
  2: { apply N.Div0.div_lt_upper_bound. exact Hb. }
  rewrite literal_value.
  destruct k as [|comma [|c k']]; cbn [parse_rest]; try reflexivity.
  destruct (Ascii.eqb comma "," && is_separator c); [|reflexivity].
  destruct (parse_literals k'); reflexivity.
Qed.

Lemma parse_line (c : list ascii) (k : string) :
  c <> [] ->
  parse_literals (String.concat ", " (map literal c) ++ k) =
  match parse_rest k with Some bs => Some (c ++ bs)%list | None => None end.
Proof.
  induction c as [|b c IH]; [congruence|]. intros _.
  destruct c as [|b' c].
  - cbn [map String.concat]. apply parse_literal.
  - change (String.concat ", " (map literal (b :: b' :: c)))
      with (literal b ++ ", " ++ String.concat ", " (map literal (b' :: c))).
    rewrite !append_assoc, parse_literal.
    change (parse_rest (", " ++ String.concat ", " (map literal (b' :: c)) ++ k))
      with (parse_literals (String.concat ", " (map literal (b' :: c)) ++ k)).
    rewrite IH by discriminate.
    destruct (parse_rest k); reflexivity.
Qed.

Lemma parse_lines (cs : list (list ascii)) :
  cs <> [] -> Forall (fun c => c <> []) cs ->
  parse_literals (String.concat ("," ++ nl) (map (String.concat ", ") (map (map literal) cs))) =
  Some (List.concat cs).
Proof.
  induction cs as [|c cs IH]; [congruence|]. intros _ Hne.
  inversion Hne as [|? ? Hc Hcs]; subst.
  destruct cs as [|c' cs].
  - cbn [map String.concat List.concat].
    rewrite <- (append_empty_r (String.concat ", " (map literal c))).
    rewrite parse_line by assumption. cbn. now rewrite app_nil_r.
  - change (String.concat ("," ++ nl) (map (String.concat ", ") (map (map literal) (c :: c' :: cs))))
      with (String.concat ", " (map literal c) ++ ("," ++ nl) ++
            String.concat ("," ++ nl) (map (String.concat ", ") (map (map literal) (c' :: cs)))).
    rewrite parse_line by assumption.
    change (parse_rest (("," ++ nl) ++ ?x)) with (parse_literals x).
    cbn [parse_rest append nl].
    change (parse_rest _) with
      (parse_literals (String.concat ("," ++ nl) (map (String.concat ", ") (map (map literal) (c' :: cs))))).
    rewrite IH by (discriminate || assumption). reflexivity.
Qed.

Lemma slices_concat {A} (fuel : nat) (l : list A) (n : nat) :
  (0 < n)%nat -> (length l <= fuel)%nat -> List.concat (slices fuel l n) = l.
Proof.
  intros Hn. revert l.
  induction fuel as [|fuel IH]; intros l Hl.
  - destruct l; [reflexivity | simpl in Hl; lia].
  - destruct l as [|x l]; [reflexivity|].
    cbn [slices List.concat].
    rewrite IH; [apply take_drop|].
    rewrite length_drop. simpl in *. lia.
Qed.

Lemma slices_nonempty {A} (fuel : nat) (l : list A) (n : nat) :
  (0 < n)%nat -> Forall (fun c => c <> []) (slices fuel l n).
Proof.
  intros Hn. revert l.
  induction fuel as [|fuel IH]; intros l; [constructor|].
  destruct l as [|x l]; [constructor|].
  cbn [slices]. constructor; [|apply IH].
  destruct n; [lia | discriminate].
Qed.

Lemma slices_map {A B} (f : A -> B) (fuel : nat) (l : list A) (n : nat) :
  slices fuel (map f l) n = map (map f) (slices fuel l n).
Proof.
  revert l. induction fuel as [|fuel IH]; intros l; [reflexivity|].
  destruct l as [|x l]; [reflexivity|].
  change (map f (x :: l)) with (f x :: map f l) at 1.
  cbn [slices map].
  rewrite <- (IH (drop n (x :: l))).
  change (f x :: map f l) with (map f (x :: l)).
  now rewrite firstn_map, skipn_map.
Qed.

Lemma slices_nil_inv {A} (fuel : nat) (l : list A) (n : nat) :
  (length l <= fuel)%nat -> slices fuel l n = [] -> l = [].
Proof.
  destruct fuel, l; simpl; try reflexivity; try discriminate; lia.
Qed.

Lemma slices_lengths {A} (fuel : nat) (l : list A) (n : nat) :
  (0 < n)%nat -> (length l <= fuel)%nat ->
  forall (i : nat) (c : list A), slices fuel l n !! i = Some c ->
    (length c <= n)%nat /\ ((S i < length (slices fuel l n))%nat -> length c = n).
Proof.
  intros Hn. revert l.
  induction fuel as [|fuel IH]; intros l Hl i c Hi.
  - destruct l; discriminate.
  - destruct l as [|x l]; [discriminate|].
    cbn [slices] in *.
    assert (Hd : (length (drop n (x :: l)) <= fuel)%nat).
    { rewrite length_drop. simpl in *. lia. }
    destruct i as [|i].
    + injection Hi as <-. rewrite length_take. split; [apply Nat.le_min_l|].
      cbn [length]. intros Hlen.
      destruct (slices fuel (drop n (x :: l)) n) eqn:E; [simpl in Hlen; lia|].
      assert (drop n (x :: l) <> []).
      { intros H0. rewrite H0 in E. destruct fuel; discriminate. }
      apply Nat.min_l.
      destruct (le_lt_dec (length (x :: l)) n) as [Hle|Hlt].
      2: { cbn [length] in *. lia. }
      exfalso. apply H. now apply drop_ge.
    + cbn in Hi. destruct (IH _ Hd i c Hi) as [H1 H2]. split; [exact H1|].
      cbn [length]. intros Hlen. apply H2. lia.
Qed.

Lemma literals_map (payload : string) :
  literals payload = map literal (list_ascii_of_string payload ++ [zero]).
Proof. unfold literals. now rewrite map_app. Qed.

Lemma drop_terminator_app (bs : list ascii) : drop_terminator (bs ++ [zero]) = Some bs.
Proof. unfold drop_terminator. rewrite rev_app_distr. cbn. now rewrite rev_involutive. Qed.

Lemma decode_hex_string (payload : string) : decode (hex_string payload) = Some payload.
Proof.
  unfold decode, hex_string, to_chunks.
  rewrite literals_map, length_map, slices_map.
  set (B := (list_ascii_of_string payload ++ [zero])%list).
  change (Z.to_nat (if 16 <? 1 then 1 else 16)) with 16%nat.
  rewrite parse_lines.
  - rewrite slices_concat by lia. unfold B.
    rewrite drop_terminator_app. cbn. now rewrite string_of_list_ascii_of_string.
  - intros H0. apply slices_nil_inv in H0; [|lia].
    unfold B in H0. destruct (list_ascii_of_string payload); discriminate.
  - apply slices_nonempty. lia.
Qed.

(** C9: the encoder writes every byte as [0x] and two lowercase hex
    digits, adds one [0x00], puts sixteen literals on a line, [", "]
    between the literals of a line and [",\n"] between lines; reading the
    literals back and dropping the last one gives the bytes that were
    encoded.  The payload is any byte string, as read from a compressed or
    from a plain input. *)
Theorem embed_encoding_roundtrip (payload : string) :
  let chunks := to_chunks (literals payload) 16 in
  (forall b : ascii, exists h l : ascii,
      literal b = String "0" (String "x" (String h (String l EmptyString)))
      /\ hex_value h = Some (N_of_ascii b / 16)%N
      /\ hex_value l = Some (N_of_ascii b mod 16)%N)
  /\ hex_string payload = String.concat ("," ++ nl) (map (String.concat ", ") chunks)
  /\ List.concat chunks = (map literal (list_ascii_of_string payload) ++ ["0x00"])%list
  /\ (forall (i : nat) (c : list string), chunks !! i = Some c ->
        (length c <= 16)%nat /\ ((S i < length chunks)%nat -> length c = 16%nat))
  /\ decode (hex_string payload) = Some payload.
Proof.
  cbv zeta. split; [|split; [reflexivity|split; [|split]]].
  - intros b. exists (hex_digit (N_of_ascii b / 16)), (hex_digit (N_of_ascii b mod 16)).
    assert (Hb : (N_of_ascii b < 256)%N) by apply N_ascii_bounded.
    split; [reflexivity|]. split; apply hex_value_digit.
    + apply N.Div0.div_lt_upper_bound. exact Hb.
    + apply N.mod_lt. discriminate.
  - unfold to_chunks. change (Z.to_nat (if 16 <? 1 then 1 else 16)) with 16%nat.
    now rewrite slices_concat by lia.
  - unfold to_chunks. change (Z.to_nat (if 16 <? 1 then 1 else 16)) with 16%nat.
    apply slices_lengths; lia.
  - apply decode_hex_string.
Qed.

End Encoding.

Lemma embed_encoding_roundtrip_witness :
  Hex.to_chunks (Hex.literals "abcdefghijklmnopqr") 16 !! 0%nat
    = Some (map Hex.literal (list_ascii_of_string "abcdefghijklmnop"))
  /\ (length (map Hex.literal (list_ascii_of_string "abcdefghijklmnop")) <= 16)%nat
  /\ Hex.decode (Hex.hex_string "abcdefghijklmnopqr") = Some "abcdefghijklmnopqr".
Proof.
  pose proof (embed_encoding_roundtrip "abcdefghijklmnopqr") as (_ & _ & _ & Hlen & Hdec).
  split; [reflexivity|]. split; [|exact Hdec].
  exact (proj1 (Hlen 0%nat _ eq_refl)).
Defined.

Example hex_string_18 :
  Hex.hex_string "abcdefghijklmnopqr" =
  "0x61, 0x62, 0x63, 0x64, 0x65, 0x66, 0x67, 0x68, 0x69, 0x6a, 0x6b, 0x6c, 0x6d, 0x6e, 0x6f, 0x70," ++ Hex.nl ++ "0x71, 0x72, 0x00".
Proof. reflexivity. Qed.

(** ** The digests *)

Example sha224_empty :
  SHA224.hexdigest "" = "d14a028c2a3a2bc9476102bb288234c415a2b01f828ea62ac5b3e42f".
Proof. vm_compute. reflexivity. Qed.

Example sha224_abc :
  SHA224.hexdigest "abc" = "23097d223405d8228642a477bda255b32aadbce4bda0b3f7e36c9da7".
Proof. vm_compute. reflexivity. Qed.

Example sha224_a56 :
  SHA224.hexdigest "aaaaaaaaaaaaaaaaaaaaaaaaaaaaaaaaaaaaaaaaaaaaaaaaaaaaaaaa" =
  "d40854fc9caf172067136f2e29e1380b14626bf6f0dd06779f820dcd".
Proof. vm_compute. reflexivity. Qed.

Example sha224_a64 :
  SHA224.hexdigest "aaaaaaaaaaaaaaaaaaaaaaaaaaaaaaaaaaaaaaaaaaaaaaaaaaaaaaaaaaaaaaaa" =
  "a88cd5cde6d6fe9136a4e58b49167461ea95d388ca2bdb7afdc3cbf4".
Proof. vm_compute. reflexivity. Qed.

(** ** The staleness test of the embed jobs *)

Section InnerNeedsBuild.

Variables (inpath outpath : string) (s : state).

Lemma needs_build_no_output :
  files s !! outpath = None -> needs_build inpath outpath s = Ok true s.
Proof.
  intros Ho. unfold needs_build.
  rewrite (bind_ok _ _ _ _ _ (exists_missing _ _ Ho)). reflexivity.
Qed.

Lemma needs_build_no_input (fo : file) :
  files s !! outpath = Some fo -> files s !! inpath = None ->
  needs_build inpath outpath s = Raise (ValueError (inpath ++ " cannot be found")) s.
Proof.
  intros Ho Hi. unfold needs_build.
  rewrite (bind_ok _ _ _ _ _ (exists_present _ _ _ Ho)). cbn [negb].
  rewrite (bind_ok _ _ _ _ _ (exists_missing _ _ Hi)). reflexivity.
Qed.

Lemma needs_build_both (fi fo : file) :
  files s !! inpath = Some fi -> files s !! outpath = Some fo ->
  needs_build inpath outpath s = Ok (mtime fo <? mtime fi) s.
Proof.
  intros Hi Ho. unfold needs_build.
  rewrite (bind_ok _ _ _ _ _ (exists_present _ _ _ Ho)). cbn [negb].
  rewrite (bind_ok _ _ _ _ _ (exists_present _ _ _ Hi)). cbn [negb].
  rewrite (bind_ok _ _ _ _ _ (getmtime_present _ _ _ Hi)).
  rewrite (bind_ok _ _ _ _ _ (getmtime_present _ _ _ Ho)). reflexivity.
Qed.

End InnerNeedsBuild.

(** C10: when the output file does not exist, the local [needs_build]
    answers True at once, whether the input exists or not; it raises only
    when the output exists and the input does not, and then it raises the
    [ValueError] that names the input. *)
Theorem needs_build_missing_input (inpath outpath : string) (s : state) :
  (files s !! outpath = None -> needs_build inpath outpath s = Ok true s)
  /\ (forall (e : exn) (s' : state),
        needs_build inpath outpath s = Raise e s' ->
        is_Some (files s !! outpath) /\ files s !! inpath = None
        /\ e = ValueError (inpath ++ " cannot be found") /\ s' = s)
  /\ (is_Some (files s !! outpath) -> files s !! inpath = None ->
        needs_build inpath outpath s = Raise (ValueError (inpath ++ " cannot be found")) s).
Proof.
  split; [apply needs_build_no_output|]. split.
  - intros e s' H.
    destruct (files s !! outpath) as [fo|] eqn:Ho.
    + destruct (files s !! inpath) as [fi|] eqn:Hi.
      * rewrite (needs_build_both _ _ _ _ _ Hi Ho) in H. discriminate.
      * rewrite (needs_build_no_input _ _ _ _ Ho Hi) in H.
        injection H as <- <-. eauto.
    + rewrite (needs_build_no_output _ _ _ Ho) in H. discriminate.
  - intros [fo Ho] Hi. exact (needs_build_no_input _ _ _ _ Ho Hi).
Qed.

Lemma needs_build_missing_input_witness :
  needs_build "dev/lost.json" "include/all_fluids_JSON.h" Sample.nothing = Ok true Sample.nothing
  /\ needs_build "dev/lost.json" "include/all_fluids_JSON.h" (Sample.two_files 1 2)
     = Raise (ValueError "dev/lost.json cannot be found") (Sample.two_files 1 2).
Proof.
  split.
  - apply (needs_build_missing_input "dev/lost.json" "include/all_fluids_JSON.h" Sample.nothing).
    reflexivity.
  - apply (needs_build_missing_input "dev/lost.json" "include/all_fluids_JSON.h" (Sample.two_files 1 2)).
    + exists (File 2 ""). reflexivity.
    + reflexivity.
Defined.

(** Where the two modification times are equal the input is not older
    than the destination, and the test answers False. *)
Lemma needs_build_equal_mtime_counterexample :
  mtime <$> files (Sample.two_files 7 7) !! "dev/all_fluids.json" = Some 7
  /\ mtime <$> files (Sample.two_files 7 7) !! "include/all_fluids_JSON.h" = Some 7
  /\ needs_build "dev/all_fluids.json" "include/all_fluids_JSON.h" (Sample.two_files 7 7)
     = Ok false (Sample.two_files 7 7).
Proof. repeat split; vm_compute; reflexivity. Qed.

(** The rule of line 100: the local [needs_build] answers True when the
    destination does not exist; when input and destination exist it answers
    True exactly when the input is strictly newer than the destination. *)
Theorem needs_build_timestamp_rule (inpath outpath : string) (s : state) :
  (files s !! outpath = None -> needs_build inpath outpath s = Ok true s)
  /\ (forall fi fo : file,
        files s !! inpath = Some fi -> files s !! outpath = Some fo ->
        needs_build inpath outpath s = Ok (bool_decide (mtime fo < mtime fi)) s).
Proof.
  split; [apply needs_build_no_output|].
  intros fi fo Hi Ho. rewrite (needs_build_both _ _ _ _ _ Hi Ho).
  f_equal. destruct (Z.ltb_spec (mtime fo) (mtime fi)).
  - now rewrite bool_decide_eq_true_2.
  - rewrite bool_decide_eq_false_2; [reflexivity | lia].
Qed.

Lemma needs_build_timestamp_rule_witness :
  needs_build "dev/all_fluids.json" "include/all_fluids_JSON.h" Sample.nothing = Ok true Sample.nothing
  /\ needs_build "dev/all_fluids.json" "include/all_fluids_JSON.h" (Sample.two_files 8 7)
     = Ok true (Sample.two_files 8 7)
  /\ needs_build "dev/all_fluids.json" "include/all_fluids_JSON.h" (Sample.two_files 7 7)
     = Ok false (Sample.two_files 7 7).
Proof.
  split; [|split].
  - apply (needs_build_timestamp_rule "dev/all_fluids.json" "include/all_fluids_JSON.h" Sample.nothing).
    reflexivity.
  - apply (proj2 (needs_build_timestamp_rule "dev/all_fluids.json" "include/all_fluids_JSON.h"
                    (Sample.two_files 8 7)) (File 8 "[]") (File 7 "")); reflexivity.
  - apply (proj2 (needs_build_timestamp_rule "dev/all_fluids.json" "include/all_fluids_JSON.h"
                    (Sample.two_files 7 7)) (File 7 "[]") (File 7 "")); reflexivity.
Defined.

(** C6: the embed job whose input and header carry the same modification
    time: the local [needs_build] answers False and the job writes
    nothing, where the claim has the input stale.  The evaluator of the
    aggregation jobs, on a source and a destination that carry the same
    modification time, answers that the source is newer. *)
Theorem embed_precheck_trusts_equal_mtime :
  mtime <$> files (Sample.two_files 7 7) !! dev "all_fluids.json" = Some 7
  /\ mtime <$> files (Sample.two_files 7 7) !! include "all_fluids_JSON.h" = Some 7
  /\ result (needs_build (dev "all_fluids.json") (include "all_fluids_JSON.h")
               (Sample.two_files 7 7)) = Some false
  /\ final_state (embed_json Sample.L ("all_fluids.json", "all_fluids_JSON.h", "all_fluids_JSON")
                    (Sample.two_files 7 7)) = Sample.two_files 7 7
  /\ mtime <$> files (Sample.manager_state 5 1 []) !! "dev/fluids/a.json" = Some 5
  /\ mtime <$> files (Sample.manager_state 5 1 []) !! "dev/all_fluids.json.z" = Some 5
  /\ fst <$> result (DependencyManager.needs_build Sample.L Sample.manager
                       (Sample.manager_state 5 1 []))
     = Some (true, DependencyManager.newer_reason "dev/fluids/a.json").
Proof. repeat split; vm_compute; reflexivity. Qed.

(** The pre-check reads and never writes: it returns in the state it started in. *)
Lemma needs_build_state inpath outpath s :
  final_state (needs_build inpath outpath s) = s.
Proof.
  destruct (files s !! outpath) as [fo|] eqn:Ho.
  - destruct (files s !! inpath) as [fi|] eqn:Hi.
    + now rewrite (needs_build_both _ _ _ _ _ Hi Ho).
    + now rewrite (needs_build_no_input _ _ _ _ Ho Hi).
  - now rewrite (needs_build_no_output _ _ _ Ho).
Qed.

(** ** The gate of the embed jobs *)

Lemma must_write_spec outpath variable hex_string s :
  must_write outpath variable hex_string s =
  Ok (bool_decide (gate_open s outpath variable hex_string)) s.
Proof.
  unfold must_write, gate_open, bind, exists_, get_hashes, ret.
  f_equal.
  destruct (files s !! outpath) as [fo|] eqn:Ho.
  - rewrite (bool_decide_eq_true_2 (is_Some (Some fo))) by eauto. cbn [negb orb].
    destruct (hashes s !! variable) as [d|] eqn:Hv.
    + rewrite (bool_decide_eq_false_2 (Some d = None)) by discriminate. cbn [orb].
      apply bool_decide_ext. split; [tauto|]. intros [H|[H|H]]; [discriminate|discriminate|exact H].
    + rewrite (bool_decide_eq_true_2 (None = None)) by reflexivity. cbn [orb].
      symmetry. apply bool_decide_eq_true_2. tauto.
  - rewrite (bool_decide_eq_false_2 (is_Some None)) by (intros [? ?]; discriminate).
    cbn [negb orb]. symmetry. apply bool_decide_eq_true_2. tauto.
Qed.

Lemma embed_z_gated (L : libs) : hash_gated (fun bytes => bytes) (embed_z L).
Proof.
  intros infile outfile variable s. cbv zeta. cbn [embed_z].
  destruct (needs_build (dev infile) (include outfile) s) as [stale s0|e s0] eqn:Hnb.
  2: { rewrite (bind_raise _ _ _ _ _ Hnb). cbn [final_state].
       pose proof (needs_build_state (dev infile) (include outfile) s) as Hs.
       rewrite Hnb in Hs. cbn in Hs. subst s0. split; [congruence|reflexivity]. }
  pose proof (needs_build_state (dev infile) (include outfile) s) as Hs.
  rewrite Hnb in Hs. cbn in Hs. subst s0.
  rewrite (bind_ok _ _ _ _ _ Hnb).
  destruct stale; cbn [negb]; [|split; [cbn; congruence | reflexivity]].
  destruct (files s !! dev infile) as [fi|] eqn:Hi.
  2: { rewrite (bind_raise _ _ _ _ _ (read_missing _ _ Hi)). cbn. split; [congruence|reflexivity]. }
  rewrite (bind_ok _ _ _ _ _ (read_present _ _ _ Hi)).
  rewrite (bind_ok _ _ _ _ _ (must_write_spec _ _ _ _)).
  destruct (bool_decide (gate_open s (include outfile) variable (Hex.hex_string (data fi)))) eqn:Hg.
  - apply bool_decide_eq_true_1 in Hg. split.
    + intros _. exists fi. repeat split; auto.
    + intros fi' fo Hi' Ho Hv. injection Hi' as <-.
      exfalso. unfold gate_open in Hg. rewrite Ho, Hv in Hg. destruct Hg as [H|[H|H]]; congruence.
  - split; [cbn; congruence | reflexivity].
Qed.

Lemma encode_ascii_state (text : string) (s : state) :
  final_state (encode_ascii text s) = s.
Proof. unfold encode_ascii. destruct (is_ascii text); reflexivity. Qed.

Lemma embed_json_gated (L : libs) : hash_gated universal_newlines (embed_json L).
Proof.
  intros infile outfile variable s. cbv zeta. cbn [embed_json].
  destruct (needs_build (dev infile) (include outfile) s) as [stale s0|e s0] eqn:Hnb.
  2: { rewrite (bind_raise _ _ _ _ _ Hnb). cbn [final_state].
       pose proof (needs_build_state (dev infile) (include outfile) s) as Hs.
       rewrite Hnb in Hs. cbn in Hs. subst s0. split; [congruence|reflexivity]. }
  pose proof (needs_build_state (dev infile) (include outfile) s) as Hs.
  rewrite Hnb in Hs. cbn in Hs. subst s0.
  rewrite (bind_ok _ _ _ _ _ Hnb).
  destruct stale; cbn [negb]; [|split; [cbn; congruence | reflexivity]].
  destruct (files s !! dev infile) as [fi|] eqn:Hi.
  2: { rewrite (bind_raise _ _ _ _ _ (read_missing _ _ Hi)). cbn. split; [congruence|reflexivity]. }
  rewrite (bind_ok _ _ _ _ _ (read_present _ _ _ Hi)).
  destruct (json_loads L (data fi)); try (split; [cbn; congruence | reflexivity]).
  rewrite (bind_ok _ _ _ _ _ (read_text_present _ _ _ Hi)).
  unfold encode_ascii. destruct (is_ascii (universal_newlines (data fi))).
  2: { split; [cbn; congruence | reflexivity]. }
  rewrite (bind_ok _ _ s s (universal_newlines (data fi)) eq_refl).
  rewrite (bind_ok _ _ _ _ _ (must_write_spec _ _ _ _)).
  destruct (bool_decide (gate_open s (include outfile) variable
                           (Hex.hex_string (universal_newlines (data fi))))) eqn:Hg.
  - apply bool_decide_eq_true_1 in Hg. split.
    + intros _. exists fi. repeat split; auto.
    + intros fi' fo Hi' Ho Hv. injection Hi' as <-.
      exfalso. unfold gate_open in Hg. rewrite Ho, Hv in Hg. destruct Hg as [H|[H|H]]; congruence.
  - split; [cbn; congruence | reflexivity].
Qed.

(** C2, as the specification states it, fails where the destination is
    missing: the stored digest is the digest of the encoded payload, and
    the job writes the destination all the same. *)
Lemma embed_gate_counterexample :
  hashes Sample.header_lost !! "all_fluids_JSON_z" = Some (get_hash (Hex.hex_string "z[{a}]"))
  /\ data <$> files Sample.header_lost !! dev "all_fluids.json.z" = Some "z[{a}]"
  /\ written (final_state (embed_z Sample.L
                 ("all_fluids.json.z", "all_fluids_JSON_z.h", "all_fluids_JSON_z")
                 Sample.header_lost))
     = ["include/all_fluids_JSON_z.h"].
Proof. repeat split; vm_compute; reflexivity. Qed.

(** C2, amended: an embed job, of either kind, writes its destination
    only if the destination does not exist, or [hashes] has no entry for
    its variable, or the entry differs from the digest of the encoded
    payload; when the destination exists and the entry is that digest, the
    job changes nothing, also when the modification times call for a
    rebuild. *)
Theorem embed_jobs_hash_gated (L : libs) :
  hash_gated (fun bytes => bytes) (embed_z L) /\ hash_gated universal_newlines (embed_json L).
Proof. split; [apply embed_z_gated | apply embed_json_gated]. Qed.

Lemma embed_jobs_hash_gated_witness :
  needs_build (dev "all_fluids.json.z") (include "all_fluids_JSON_z.h") Sample.header_kept
    = Ok true Sample.header_kept
  /\ final_state (embed_z Sample.L ("all_fluids.json.z", "all_fluids_JSON_z.h", "all_fluids_JSON_z")
                    Sample.header_kept) = Sample.header_kept.
Proof.
  split; [reflexivity|].
  apply (proj2 (proj1 (embed_jobs_hash_gated Sample.L)
                  "all_fluids.json.z" "all_fluids_JSON_z.h" "all_fluids_JSON_z" Sample.header_kept)
           (File 3 "z[{a}]") (File 1 "")); reflexivity.
Defined.

(** ** The staleness test of the aggregation jobs *)

Section ManagerFacts.
Import DependencyManager.

Lemma scan_all_older (d : Z) (l : list string) (s : state) :
  (forall src, In src l -> exists f, files s !! src = Some f /\ mtime f < d) ->
  scan_sources d l s = Ok NoneNewer s.
Proof.
  induction l as [|src l IH]; intros H; [reflexivity|].
  destruct (H src (or_introl eq_refl)) as (f & Hf & Hlt).
  cbn [scan_sources]. rewrite (bind_ok _ _ _ _ _ (getmtime_present _ _ _ Hf)).
  destruct (Z.leb_spec d (mtime f)); [lia|].
  apply IH. intros x Hx. apply H. now right.
Qed.

Lemma scan_finds (d : Z) (l : list string) (s : state) :
  (forall src, In src l -> is_Some (files s !! src)) ->
  (exists src f, In src l /\ files s !! src = Some f /\ d <= mtime f) ->
  exists src f rest, In src l /\ files s !! src = Some f /\ d <= mtime f /\
                     scan_sources d l s = Ok (Newer src rest) s.
Proof.
  induction l as [|x l IH]; intros Hall (src & f & Hin & Hf & Hle); [destruct Hin|].
  destruct (Hall x (or_introl eq_refl)) as [fx Hfx].
  cbn [scan_sources]. rewrite (bind_ok _ _ _ _ _ (getmtime_present _ _ _ Hfx)).
  destruct (Z.leb_spec d (mtime fx)) as [Hx|Hx].
  - exists x, fx, l. split; [now left|]. auto.
  - destruct IH as (src' & f' & rest & Hin' & Hf' & Hle' & Hscan).
    + intros y Hy. apply Hall. now right.
    + destruct Hin as [->|Hin].
      * rewrite Hf in Hfx. injection Hfx as <-. lia.
      * eauto.
    + exists src', f', rest. split; [now right|]. auto.
Qed.

Section Decision.


Variables (L : libs) (self : t) (s : state) (l : list string).
Hypothesis Hlist : sources self = PyList l.

Lemma with_sources_list (rest : list string) :
  with_sources self (advance (sources self) rest) = self.
Proof. destruct self as [src d c]. cbn in *. subst src. reflexivity. Qed.

Lemma sorted_sources_list : sorted_sources self = (sorted l, self).
Proof. unfold sorted_sources. rewrite with_sources_list, Hlist. reflexivity. Qed.

Lemma manager_no_destination :
  files s !! destination self = None ->
  needs_build L self s = Ok ((true, "destination does not exist"), self) s.
Proof.
  intros Hd. unfold needs_build.
  rewrite (bind_ok _ _ _ _ _ (exists_missing _ _ Hd)). reflexivity.
Qed.

Lemma manager_no_cache (fd : file) :
  files s !! destination self = Some fd -> files s !! cachefile self = None ->
  needs_build L self s = Ok ((true, "cache file does not exist"), self) s.
Proof.
  intros Hd Hc. unfold needs_build.
  rewrite (bind_ok _ _ _ _ _ (exists_present _ _ _ Hd)). cbn [negb].
  rewrite (bind_ok _ _ _ _ _ (exists_missing _ _ Hc)). reflexivity.
Qed.

Lemma manager_newer (fd fc : file) (src : string) (rest : list string) :
  files s !! destination self = Some fd -> files s !! cachefile self = Some fc ->
  scan_sources (mtime fd) l s = Ok (Newer src rest) s ->
  needs_build L self s = Ok ((true, newer_reason src), self) s.
Proof.
  intros Hd Hc Hscan. unfold needs_build.
  rewrite (bind_ok _ _ _ _ _ (exists_present _ _ _ Hd)). cbn [negb].
  rewrite (bind_ok _ _ _ _ _ (exists_present _ _ _ Hc)). cbn [negb].
  rewrite (bind_ok _ _ _ _ _ (getmtime_present _ _ _ Hd)).
  rewrite Hlist. cbn [pending].
  rewrite (bind_ok _ _ _ _ _ Hscan).
  rewrite <- Hlist, with_sources_list. reflexivity.
Qed.

Lemma manager_compare (fd fc : file) (previous : list string) :
  files s !! destination self = Some fd -> files s !! cachefile self = Some fc ->
  scan_sources (mtime fd) l s = Ok NoneNewer s ->
  pickle_loads L (data fc) = Some previous ->
  needs_build L self s =
  Ok (if bool_decide (sorted l <> previous)
      then (true, "source list has changed") else (false, ""), self) s.
Proof.
  intros Hd Hc Hscan Hp. unfold needs_build.
  rewrite (bind_ok _ _ _ _ _ (exists_present _ _ _ Hd)). cbn [negb].
  rewrite (bind_ok _ _ _ _ _ (exists_present _ _ _ Hc)). cbn [negb].
  rewrite (bind_ok _ _ _ _ _ (getmtime_present _ _ _ Hd)).
  rewrite Hlist. cbn [pending].
  rewrite (bind_ok _ _ _ _ _ Hscan).
  rewrite <- Hlist, with_sources_list.
  rewrite (bind_ok _ _ _ _ _ (exists_present _ _ _ Hc)).
  rewrite (bind_ok _ _ _ _ _ (read_present _ _ _ Hc)).
  rewrite Hp, sorted_sources_list.
  destruct (bool_decide (sorted l <> previous)); reflexivity.
Qed.

End Decision.

Lemma reasons_distinct (source : string) :
  NoDup [ "destination does not exist"; "cache file does not exist";
          newer_reason source; "source list has changed"; "" ].
Proof.
  unfold newer_reason.
  repeat (constructor; [rewrite ?not_elem_of_cons; repeat split; try discriminate; try apply not_elem_of_nil|]).
  constructor.
Qed.



(** On a list of sources, as the signature of [__init__] declares them,
    [DependencyManager.needs_build] decides in this order: no destination,
    stale; no cache file, stale; a source whose modification time is
    greater than or equal to that of the destination, stale; the sorted
    sources differ from the recorded ones, stale; otherwise up to date.
    The four reasons for a rebuild differ from each other and from the
    empty reason. *)
Theorem manager_needs_build_order (L : libs) (self : t) (s : state) (l : list string) :
  sources self = PyList l ->
  let run := needs_build L self s in
  let dest := files s !! destination self in
  let cache := files s !! cachefile self in
  (dest = None -> run = Ok ((true, "destination does not exist"), self) s)
  /\ (is_Some dest -> cache = None -> run = Ok ((true, "cache file does not exist"), self) s)
  /\ (forall fd, dest = Some fd -> is_Some cache ->
        (forall src, In src l -> is_Some (files s !! src)) ->
        (exists src f, In src l /\ files s !! src = Some f /\ mtime fd <= mtime f) ->
        exists src f, In src l /\ files s !! src = Some f /\ mtime fd <= mtime f
                      /\ run = Ok ((true, newer_reason src), self) s)
  /\ (forall fd fc previous, dest = Some fd -> cache = Some fc ->
        (forall src, In src l -> exists f, files s !! src = Some f /\ mtime f < mtime fd) ->
        pickle_loads L (data fc) = Some previous ->
        (sorted l <> previous -> run = Ok ((true, "source list has changed"), self) s)
        /\ (sorted l = previous -> run = Ok ((false, ""), self) s))
  /\ (forall source,
        NoDup [ "destination does not exist"; "cache file does not exist";
                newer_reason source; "source list has changed"; "" ]).
Proof.
  intros Hlist. cbv zeta. split; [|split; [|split; [|split]]].
  - now apply manager_no_destination.
  - intros [fd Hd] Hc. now apply (manager_no_cache L self s fd).
  - intros fd Hd [fc Hc] Hall Hex.
    destruct (scan_finds (mtime fd) l s Hall Hex) as (src & f & rest & Hin & Hf & Hle & Hscan).
    exists src, f. repeat split; try assumption.
    now apply (manager_newer L self s l Hlist fd fc src rest).
  - intros fd fc previous Hd Hc Hall Hp.
    pose proof (manager_compare L self s l Hlist fd fc previous Hd Hc
                  (scan_all_older _ _ _ Hall) Hp) as H.
    split; intros Hs; rewrite H.
    + now rewrite bool_decide_eq_true_2.
    + rewrite bool_decide_eq_false_2; [reflexivity | tauto].
  - apply reasons_distinct.
Qed.

End ManagerFacts.

Lemma manager_needs_build_order_witness :
  DependencyManager.needs_build Sample.L Sample.manager Sample.nothing
    = Ok ((true, "destination does not exist"), Sample.manager) Sample.nothing
  /\ (exists src f,
        In src ["dev/fluids/b.json"; "dev/fluids/a.json"]
        /\ files (Sample.manager_state 5 2 []) !! src = Some f /\ 5 <= mtime f
        /\ DependencyManager.needs_build Sample.L Sample.manager (Sample.manager_state 5 2 [])
           = Ok ((true, DependencyManager.newer_reason src), Sample.manager)
                (Sample.manager_state 5 2 []))
  /\ DependencyManager.needs_build Sample.L Sample.manager
       (Sample.manager_state 1 2 ["dev/fluids/a.json"])
     = Ok ((true, "source list has changed"), Sample.manager)
          (Sample.manager_state 1 2 ["dev/fluids/a.json"])
  /\ DependencyManager.needs_build Sample.L Sample.manager
       (Sample.manager_state 1 2 ["dev/fluids/a.json"; "dev/fluids/b.json"])
     = Ok ((false, ""), Sample.manager)
          (Sample.manager_state 1 2 ["dev/fluids/a.json"; "dev/fluids/b.json"]).
Proof.
  assert (Hold : forall recorded src,
            In src ["dev/fluids/b.json"; "dev/fluids/a.json"] ->
            exists f, files (Sample.manager_state 1 2 recorded) !! src = Some f /\ mtime f < 5).
  { intros recorded src [<-|[<-|[]]]; eexists; (split; [reflexivity | reflexivity]). }
  split; [|split; [|split]].
  - apply (manager_needs_build_order Sample.L Sample.manager Sample.nothing _ eq_refl).
    reflexivity.
  - apply (proj1 (proj2 (proj2
      (manager_needs_build_order Sample.L Sample.manager (Sample.manager_state 5 2 []) _ eq_refl)))
      (File 5 "z") eq_refl).
    + exists (File 5 (Sample.pickle [])). reflexivity.
    + intros src [<-|[<-|[]]]; eexists; reflexivity.
    + exists "dev/fluids/a.json", (File 5 "{a}"). split; [right; now left|].
      split; [reflexivity | cbn; lia].
  - refine (proj1 (proj1 (proj2 (proj2 (proj2
      (manager_needs_build_order Sample.L Sample.manager
         (Sample.manager_state 1 2 ["dev/fluids/a.json"]) _ eq_refl))))
      (File 5 "z") (File 5 (Sample.pickle ["dev/fluids/a.json"])) ["dev/fluids/a.json"]
      eq_refl eq_refl (Hold _) eq_refl) _).
    discriminate.
  - refine (proj2 (proj1 (proj2 (proj2 (proj2
      (manager_needs_build_order Sample.L Sample.manager
         (Sample.manager_state 1 2 ["dev/fluids/a.json"; "dev/fluids/b.json"]) _ eq_refl))))
      (File 5 "z") (File 5 (Sample.pickle ["dev/fluids/a.json"; "dev/fluids/b.json"]))
      ["dev/fluids/a.json"; "dev/fluids/b.json"]
      eq_refl eq_refl (Hold _) eq_refl) _).
    reflexivity.
Defined.

(** With a generator for sources the loop leaves nothing to sort: the
    recorded sources are compared with the empty list. *)
Lemma manager_generator_compare (L : libs) (self : DependencyManager.t) (s : state)
      (rest : list string) (fd fc : file) (previous : list string) :
  DependencyManager.sources self = DependencyManager.Generator rest ->
  files s !! DependencyManager.destination self = Some fd ->
  files s !! DependencyManager.cachefile self = Some fc ->
  DependencyManager.scan_sources (mtime fd) rest s = Ok DependencyManager.NoneNewer s ->
  pickle_loads L (data fc) = Some previous ->
  DependencyManager.needs_build L self s =
  Ok (if bool_decide ([] <> previous) then (true, "source list has changed") else (false, ""),
      DependencyManager.with_sources self (DependencyManager.Generator [])) s.
Proof.
  intros Hgen Hd Hc Hscan Hp. unfold DependencyManager.needs_build.
  rewrite (bind_ok _ _ _ _ _ (exists_present _ _ _ Hd)). cbn [negb].
  rewrite (bind_ok _ _ _ _ _ (exists_present _ _ _ Hc)). cbn [negb].
  rewrite (bind_ok _ _ _ _ _ (getmtime_present _ _ _ Hd)).
  rewrite Hgen. cbn [DependencyManager.pending].
  rewrite (bind_ok _ _ _ _ _ Hscan).
  cbn [DependencyManager.advance DependencyManager.with_sources DependencyManager.cachefile].
  rewrite (bind_ok _ _ _ _ _ (exists_present _ _ _ Hc)).
  rewrite (bind_ok _ _ _ _ _ (read_present _ _ _ Hc)).
  rewrite Hp. cbn.
  destruct (bool_decide ([] <> previous)); reflexivity.
Qed.

(** C3: two fluids, both older than the compressed file, and a cache that
    records exactly these two, sorted.  On the list of the two the
    evaluator answers that nothing needs to be built, as the claim has
    it; on the manager that [combine_json] builds, whose sources are the
    generator of [Path.glob], it answers that the source list has
    changed. *)
Theorem unchanged_sources_look_changed :
  let s := Sample.manager_state 1 2 ["dev/fluids/a.json"; "dev/fluids/b.json"] in
  let sources := pathlib_matches "dev/fluids" (files s) in
  pickle_loads Sample.L (Sample.pickle (sorted sources)) = Some (sorted sources)
  /\ data <$> files s !! dev ".fluiddepcache" = Some (Sample.pickle (sorted sources))
  /\ fst <$> result (DependencyManager.needs_build Sample.L
                       (DependencyManager.Make (DependencyManager.PyList sources)
                          (dev "all_fluids.json.z") (dev ".fluiddepcache")) s)
     = Some (false, "")
  /\ fst <$> result ((depfluids <- new_depfluids ;;
                      DependencyManager.needs_build Sample.L depfluids) s)
     = Some (true, "source list has changed").
Proof. repeat split; vm_compute; reflexivity. Qed.

(** C4: on the checkout after two runs, one of the three fluids is removed;
    the two that remain are older than the destination, the destination
    and the cache file exist; the manager that [combine_json] builds
    answers that nothing needs to be built, and after the run the combined
    file still holds the fluid that was removed. *)
Theorem removed_fragment_goes_unnoticed :
  pathlib_matches "dev/fluids" (files Sample.built)
    = ["dev/fluids/c.json"; "dev/fluids/a.json"; "dev/fluids/b.json"]
  /\ pathlib_matches "dev/fluids" (files Sample.removed)
    = ["dev/fluids/a.json"; "dev/fluids/b.json"]
  /\ mtime <$> files Sample.removed !! "dev/fluids/a.json" = Some 0
  /\ mtime <$> files Sample.removed !! "dev/fluids/b.json" = Some 0
  /\ mtime <$> files Sample.removed !! dev "all_fluids.json.z" = Some 24
  /\ is_Some (files Sample.removed !! dev ".fluiddepcache")
  /\ result ((d <- new_depfluids ;; DependencyManager.needs_build Sample.L d) Sample.removed)
     = Some ((false, ""),
             DependencyManager.Make (DependencyManager.Generator [])
               (dev "all_fluids.json.z") (dev ".fluiddepcache"))
  /\ succeeds (main Sample.L Sample.removed) = true
  /\ data <$> files (final_state (main Sample.L Sample.removed)) !! dev "all_fluids.json"
     = Some "[{c}, {a}, {b}]".
Proof.
  split; [vm_compute; reflexivity|].
  split; [vm_compute; reflexivity|].
  split; [vm_compute; reflexivity|].
  split; [vm_compute; reflexivity|].
  split; [vm_compute; reflexivity|].
  split; [vm_compute; eauto|].
  split; [vm_compute; reflexivity|].
  split; vm_compute; reflexivity.
Qed.

(** ** The two aggregation jobs *)

Lemma scandir_present (dir : string) (fs : gmap string file) (e : string * string) :
  In e (scandir dir fs) -> is_Some (fs !! fst e).
Proof.
  unfold scandir. intros H. apply list_elem_of_In, list_elem_of_omap in H.
  destruct H as (p & Hp & He).
  destruct (entry_name dir p); [|discriminate]. injection He as <-. cbn.
  apply list_elem_of_In, in_map_iff in Hp. destruct Hp as ([q f] & <- & Hq).
  apply list_elem_of_In, elem_of_map_to_list in Hq. cbn. eauto.
Qed.

Lemma glob_matches_present (dir : string) (fs : gmap string file) (p : string) :
  In p (glob_matches dir fs) -> is_Some (fs !! p).
Proof.
  unfold glob_matches. intros H. apply in_map_iff in H. destruct H as (e & <- & He).
  apply filter_In in He. apply (scandir_present dir), He.
Qed.

Lemma load_fragments_undecodable (L : libs) (paths : list string) (master : list (json L))
      (s : state) :
  (forall p, In p paths -> is_Some (files s !! p)) ->
  (exists p, In p paths /\ undecodable L s p) ->
  exists p, In p paths /\ undecodable L s p
            /\ load_fragments L paths master s = Raise (ValueError ("unable to decode file " ++ p)) s.
Proof.
  revert master. induction paths as [|x paths IH]; intros master Hall (p & Hin & Hbad).
  - destruct Hin.
  - destruct (Hall x (or_introl eq_refl)) as [f Hf].
    cbn [load_fragments]. rewrite (bind_ok _ _ _ _ _ (read_present _ _ _ Hf)).
    destruct (json_loads L (data f)) as [fluid| |] eqn:Hj.
    + destruct (IH (master ++ [fluid])%list) as (q & Hq & Hqbad & Hrun).
      * intros y Hy. apply Hall. now right.
      * destruct Hin as [->|Hin]; [|eauto].
        destruct Hbad as (f' & Hf' & Hno). rewrite Hf in Hf'. injection Hf' as <-.
        exfalso. exact (Hno _ Hj).
      * exists q. split; [now right|]. auto.
    + exists x. split; [now left|]. split; [|reflexivity].
      exists f. split; [exact Hf|]. intros j. rewrite Hj. discriminate.
    + exists x. split; [now left|]. split; [|reflexivity].
      exists f. split; [exact Hf|]. intros j. rewrite Hj. discriminate.
Qed.

Lemma package_fluids_stops (L : libs) (depfluids : DependencyManager.t) :
  stops_at_bad_fragment L "dev/fluids" (package_fluids L depfluids).
Proof.
  intros s Hbad. unfold package_fluids.
  destruct (load_fragments_undecodable L (glob_matches "dev/fluids" (files s)) [] s)
    as (p & Hin & Hp & Hrun); [apply glob_matches_present | exact Hbad |].
  exists p. split; [exact Hin|]. split; [exact Hp|].
  rewrite (bind_ok (glob_json "dev/fluids") _ s s _ eq_refl).
  now rewrite (bind_raise _ _ _ _ _ Hrun).
Qed.

Lemma package_incompressibles_stops (L : libs) (depincomp : DependencyManager.t) :
  stops_at_bad_fragment L "dev/incompressible_liquids/json" (package_incompressibles L depincomp).
Proof.
  intros s Hbad. unfold package_incompressibles.
  destruct (load_fragments_undecodable L
              (glob_matches "dev/incompressible_liquids/json" (files s)) [] s)
    as (p & Hin & Hp & Hrun); [apply glob_matches_present | exact Hbad |].
  exists p. split; [exact Hin|]. split; [exact Hp|].
  rewrite (bind_ok (glob_json "dev/incompressible_liquids/json") _ s s _ eq_refl).
  now rewrite (bind_raise _ _ _ _ _ Hrun).
Qed.

(** C8: when a fragment that the glob of an aggregation job matches does
    not decode as JSON, the body of the job raises a [ValueError] whose
    message names an undecodable fragment, and it raises in the state in
    which it started: no fragment is skipped and no output is written. *)
Theorem malformed_fragment_is_fatal (L : libs) (depfluids depincomp : DependencyManager.t) :
  stops_at_bad_fragment L "dev/fluids" (package_fluids L depfluids)
  /\ stops_at_bad_fragment L "dev/incompressible_liquids/json"
       (package_incompressibles L depincomp).
Proof. split; [apply package_fluids_stops | apply package_incompressibles_stops]. Qed.

Lemma malformed_fragment_is_fatal_witness :
  exists p, In p (glob_matches "dev/fluids" (files Sample.bad_fragment))
            /\ package_fluids Sample.L Sample.manager Sample.bad_fragment
               = Raise (ValueError ("unable to decode file " ++ p)) Sample.bad_fragment.
Proof.
  destruct (proj1 (malformed_fragment_is_fatal Sample.L Sample.manager Sample.manager)
              Sample.bad_fragment) as (p & Hin & _ & Hrun).
  - exists "dev/fluids/b.json". split.
    + vm_compute. tauto.
    + exists (File 0 "b}"). split; [reflexivity|]. intros j. discriminate.
  - exists p. split; assumption.
Defined.

(** The fluids are packaged only when their manager asks for it. *)
Lemma combine_fluids_fresh (L : libs) (s : state) (reason : string)
      (depfluids depfluids' : DependencyManager.t) :
  new_depfluids s = Ok depfluids s ->
  DependencyManager.needs_build L depfluids s = Ok ((false, reason), depfluids') s ->
  combine_fluids L s = Ok tt s.
Proof.
  intros Hn Hb. unfold combine_fluids.
  rewrite (bind_ok _ _ _ _ _ Hn), (bind_ok _ _ _ _ _ Hb). reflexivity.
Qed.

(** The incompressibles are packaged whatever their manager answers. *)
Lemma combine_incompressibles_always (L : libs) (s : state) (r : bool * string)
      (depincomp depincomp' : DependencyManager.t) :
  new_depincomp s = Ok depincomp s ->
  DependencyManager.needs_build L depincomp s = Ok (r, depincomp') s ->
  combine_incompressibles L s = package_incompressibles L depincomp' s.
Proof.
  intros Hn Hb. unfold combine_incompressibles.
  rewrite (bind_ok _ _ _ _ _ Hn), (bind_ok _ _ _ _ _ Hb). reflexivity.
Qed.

(** C5: on the checkout after two runs the manager of the incompressibles
    answers that nothing needs to be built, and [combine_json] writes the
    two combined files and the cache of the job all the same. *)
Theorem fresh_incompressibles_are_repackaged :
  result ((d <- new_depincomp ;; DependencyManager.needs_build Sample.L d) Sample.built)
  = Some ((false, ""),
          DependencyManager.Make (DependencyManager.Generator [])
            (dev "all_incompressibles.json") (dev ".incompdepcache"))
  /\ written (final_state (combine_incompressibles Sample.L Sample.built))
     = [ dev ".incompdepcache"; dev "all_incompressibles.json";
         dev "all_incompressibles_verbose.json" ].
Proof.
  split; vm_compute; reflexivity.
Qed.

(** ** Damaged caches *)

(** A file of digests that does not parse gives the empty dictionary. *)
Lemma load_hashes_undecodable (L : libs) (s : state) (f : file) :
  files s !! hashes_fname = Some f -> hashes_loads L (data f) = JSONDecodeError ->
  load_hashes L s = Ok tt {| files := files s; tick := tick s; written := written s; hashes := ∅ |}.
Proof.
  intros Hf Hp. unfold load_hashes.
  rewrite (bind_ok _ _ _ _ _ (exists_present _ _ _ Hf)).
  rewrite (bind_ok _ _ _ _ _ (read_present _ _ _ Hf)).
  rewrite Hp. reflexivity.
Qed.

(** A cache file that does not unpickle raises, once no source is found
    newer than the destination. *)
Lemma manager_unreadable_cache (L : libs) (self : DependencyManager.t) (s : state) (fd fc : file) :
  files s !! DependencyManager.destination self = Some fd ->
  files s !! DependencyManager.cachefile self = Some fc ->
  DependencyManager.scan_sources (mtime fd) (DependencyManager.pending (DependencyManager.sources self)) s
    = Ok DependencyManager.NoneNewer s ->
  pickle_loads L (data fc) = None ->
  DependencyManager.needs_build L self s
    = Raise (UnpicklingError (DependencyManager.cachefile self)) s.
Proof.
  intros Hd Hc Hscan Hp. unfold DependencyManager.needs_build.
  rewrite (bind_ok _ _ _ _ _ (exists_present _ _ _ Hd)). cbn [negb].
  rewrite (bind_ok _ _ _ _ _ (exists_present _ _ _ Hc)). cbn [negb].
  rewrite (bind_ok _ _ _ _ _ (getmtime_present _ _ _ Hd)).
  rewrite (bind_ok _ _ _ _ _ Hscan).
  cbn [DependencyManager.with_sources DependencyManager.cachefile].
  rewrite (bind_ok _ _ _ _ _ (exists_present _ _ _ Hc)).
  rewrite (bind_ok _ _ _ _ _ (read_present _ _ _ Hc)).
  rewrite Hp. reflexivity.
Qed.

(** C7: on the checkout after two runs, with a file of digests that does
    not parse the run succeeds; with a cache file of the fluids that does
    not unpickle the run ends with the exception of the unpickling, after
    the hidden version file and before any other job. *)
Theorem corrupt_manifest_aborts :
  succeeds (main Sample.L Sample.corrupt_hashes) = true
  /\ pickle_loads Sample.L "garbage" = None
  /\ exception (main Sample.L Sample.corrupt_manifest)
     = Some (UnpicklingError (dev ".fluiddepcache"))
  /\ written (final_state (main Sample.L Sample.corrupt_manifest)) = [".version"].
Proof.
  split; [vm_compute; reflexivity|]. split; [reflexivity|].
  split; vm_compute; reflexivity.
Qed.

(** ** Running the script twice *)

Lemma pure_ok {A} (m : M A) (s s' : state) (a : A) : pure m -> m s = Ok a s' -> s' = s.
Proof. intros Hm H. specialize (Hm s). rewrite H in Hm. exact Hm. Qed.

Lemma get_version_frame (s s' : state) (version : string) :
  files s' !! "CMakeLists.txt" = files s !! "CMakeLists.txt" ->
  get_version s = Ok version s -> get_version s' = Ok version s'.
Proof.
  unfold get_version, bind, read_text. intros ->.
  destruct (files s !! "CMakeLists.txt") as [f|]; [|discriminate].
  destruct (parse_version (universal_newlines (data f))); cbn; [|discriminate].
  intros H. now injection H as <-.
Qed.

Lemma get_gitrev_frame (L : libs) (s s' : state) (r : option string) :
  files s' !! dev "gitrevision.txt" = files s !! dev "gitrevision.txt" ->
  get_gitrev L s = Ok r s -> get_gitrev L s' = Ok r s'.
Proof.
  intros Hf. unfold get_gitrev.
  destruct (git L) as [| |returncode stdout].
  - intros H. now injection H as <-.
  - intros H. now injection H as <-.
  - destruct (bool_decide (returncode <> 0)).
    + destruct (files s !! dev "gitrevision.txt") as [f|] eqn:E.
      * rewrite !(bind_ok _ _ _ _ _ (exists_present _ _ _ E)).
        rewrite !(bind_ok _ _ _ _ _ (exists_present _ _ _ Hf)).
        rewrite !(bind_ok _ _ _ _ _ (read_text_present _ _ _ E)).
        rewrite !(bind_ok _ _ _ _ _ (read_text_present _ _ _ Hf)).
        intros H. now injection H as <-.
      * rewrite !(bind_ok _ _ _ _ _ (exists_missing _ _ E)).
        rewrite !(bind_ok _ _ _ _ _ (exists_missing _ _ Hf)).
        intros H. now injection H as <-.
    + destruct (contains " " (strip stdout)); [discriminate|].
      intros H. now injection H as <-.
Qed.

Lemma version_to_file_ok (L : libs) (s s' : state) :
  version_to_file L s = Ok tt s' ->
  exists version, get_version s = Ok version s /\ is_ascii version = true
    /\ hashes s' !! "version" = Some (get_hash version)
    /\ data <$> files s' !! ".version" = Some version.
Proof.
  unfold version_to_file. intros H.
  apply bind_ok_inv in H as (version & s1 & Hv & H).
  pose proof (pure_ok _ _ _ _ pure_get_version Hv) as ->.
  exists version. split; [exact Hv|].
  revert H. unfold bind, get_hashes, get_hash_str, encode_ascii, store_hash, set_hashes,
    get_hashes, now, write, ret, raise, bind.
  destruct (hashes s !! "version") as [stored|] eqn:Hs.
  - destruct (is_ascii version); [|discriminate]. cbn.
    destruct (bool_decide (stored <> get_hash version)) eqn:Hd; cbn.
    + intros H. injection H as <-. cbn.
      rewrite lookup_insert_eq, lookup_insert_eq. auto.
    + intros H. injection H as <-. cbn. rewrite lookup_insert_eq.
      apply bool_decide_eq_false_1 in Hd. apply dec_stable in Hd. subst stored. auto.
  - cbn. destruct (is_ascii version); [|discriminate]. cbn.
    intros H. injection H as <-. cbn. rewrite lookup_insert_eq, lookup_insert_eq. auto.
Qed.

Lemma version_to_file_fresh (L : libs) (s : state) (version : string) :
  get_version s = Ok version s -> is_ascii version = true ->
  hashes s !! "version" = Some (get_hash version) ->
  version_to_file L s = write L ".version" version s.
Proof.
  intros Hv Ha Hs. unfold version_to_file.
  rewrite (bind_ok _ _ _ _ _ Hv).
  unfold bind, get_hashes, encode_ascii, ret. rewrite Hs, Ha. cbn.
  rewrite bool_decide_eq_false_2; [reflexivity | tauto].
Qed.

Lemma gitrev_to_file_ok (L : libs) (s s' : state) :
  gitrev_to_file L s = Ok tt s' ->
  exists r, get_gitrev L s = Ok r s /\
    forall gitrev, r = Some gitrev ->
      is_ascii gitrev = true /\ hashes s' !! "gitrevision" = Some (get_hash gitrev).
Proof.
  unfold gitrev_to_file. intros H.
  apply bind_ok_inv in H as (r & s1 & Hr & H).
  pose proof (pure_ok _ _ _ _ (pure_get_gitrev L) Hr) as ->.
  exists r. split; [exact Hr|]. intros gitrev ->.
  revert H. unfold bind, get_hashes, get_hash_str, encode_ascii, store_hash, set_hashes,
    get_hashes, now, write, ret, raise, bind.
  destruct (hashes s !! "gitrevision") as [stored|] eqn:Hs.
  - destruct (is_ascii gitrev); [|discriminate]. cbn.
    destruct (bool_decide (stored <> get_hash gitrev)) eqn:Hd; cbn.
    + intros H. injection H as <-. cbn. rewrite lookup_insert_eq. auto.
    + intros H. injection H as <-.
      apply bool_decide_eq_false_1 in Hd. apply dec_stable in Hd. subst stored. auto.
  - cbn. destruct (is_ascii gitrev); [|discriminate]. cbn.
    intros H. injection H as <-. cbn. rewrite lookup_insert_eq. auto.
Qed.

Lemma gitrev_to_file_fresh (L : libs) (s : state) (r : option string) :
  get_gitrev L s = Ok r s ->
  (forall gitrev, r = Some gitrev ->
     is_ascii gitrev = true /\ hashes s !! "gitrevision" = Some (get_hash gitrev)) ->
  gitrev_to_file L s = Ok tt s.
Proof.
  intros Hr H. unfold gitrev_to_file. rewrite (bind_ok _ _ _ _ _ Hr).
  destruct r as [gitrev|]; [|reflexivity].
  destruct (H gitrev eq_refl) as [Ha Hs].
  unfold bind, get_hashes, get_hash_str, encode_ascii, ret. rewrite Hs, Ha. cbn.
  rewrite bool_decide_eq_false_2; [reflexivity | tauto].
Qed.

Ltac not_in := let H := fresh in intros H; cbv in H; intuition discriminate.

Lemma touches_ok {A} paths keys (m : M A) (s s' : state) (a : A) :
  touches paths keys m -> m s = Ok a s' ->
  (exists new, written s' = (new ++ written s)%list /\ forall p, In p new -> In p paths)
  /\ (forall p, ~ In p paths -> files s' !! p = files s !! p)
  /\ (forall k, ~ In k keys -> hashes s' !! k = hashes s !! k).
Proof. intros Hm H. specialize (Hm s). cbv zeta in Hm. rewrite H in Hm. exact Hm. Qed.

Lemma flush_ok (L : libs) (s s' : state) (d : string) :
  hashes s !! "version" = Some d ->
  (h <- get_hashes ;;
   if bool_decide (h <> ∅) then write L hashes_fname (hashes_dumps L h) else ret tt) s = Ok tt s' ->
  s' = {| files := <[hashes_fname := File (clock L (tick s)) (hashes_dumps L (hashes s))]> (files s);
          tick := S (tick s); written := hashes_fname :: written s; hashes := hashes s |}.
Proof.
  intros Hd. unfold bind, get_hashes.
  rewrite bool_decide_eq_true_2.
  - unfold write. intros H. now injection H as <-.
  - intros E. rewrite E in Hd. rewrite lookup_empty in Hd. discriminate.
Qed.

Lemma load_hashes_parsed (L : libs) (s : state) (f : file) (h : gmap string string) :
  files s !! hashes_fname = Some f -> hashes_loads L (data f) = Parsed h ->
  load_hashes L s = Ok tt {| files := files s; tick := tick s; written := written s; hashes := h |}.
Proof.
  intros Hf Hp. unfold load_hashes.
  rewrite (bind_ok _ _ _ _ _ (exists_present _ _ _ Hf)).
  rewrite (bind_ok _ _ _ _ _ (read_present _ _ _ Hf)).
  rewrite Hp. reflexivity.
Qed.

(** *** An embed job in another state *)

Lemma dev_not_include (a b : string) : dev a <> include b.
Proof. unfold dev, include. discriminate. Qed.

Lemma gate_closed_after (s : state) (outpath variable hex : string) (f : file) :
  let s' := {| files := <[outpath := f]> (files s); tick := S (tick s);
               written := outpath :: written s;
               hashes := <[variable := get_hash hex]> (hashes s) |} in
  must_write outpath variable hex s' = Ok false s'.
Proof.
  cbv zeta. rewrite must_write_spec. f_equal.
  apply bool_decide_eq_false_2. unfold gate_open. cbn [files hashes].
  rewrite !lookup_insert_eq. intros [H|[H|H]]; congruence.
Qed.

Lemma needs_build_ok (inpath outpath : string) (s s' : state) (b : bool) :
  needs_build inpath outpath s = Ok b s' -> s' = s.
Proof. intros H. exact (pure_ok _ _ _ _ (pure_needs_build inpath outpath) H). Qed.

Lemma read_ok_inv (p : string) (s s' : state) (text : string) :
  read p s = Ok text s' -> exists f, files s !! p = Some f /\ text = data f /\ s' = s.
Proof.
  unfold read. destruct (files s !! p) as [f|]; [|discriminate].
  intros H. injection H as <- <-. eauto.
Qed.

(** The state after an embed job has written its header and stored the
    digest. *)
Lemma written_header (L : libs) (s s' : state) (outpath variable content hex : string) :
  (write L outpath content ;;; store_hash variable (get_hash hex)) s = Ok tt s' ->
  s' = {| files := <[outpath := File (clock L (tick s)) content]> (files s);
          tick := S (tick s); written := outpath :: written s;
          hashes := <[variable := get_hash hex]> (hashes s) |}.
Proof. intros H. now injection H as <-. Qed.

Lemma embed_z_settles (L : libs) (job : string * string * string) : settles (embed_z L job).
Proof.
  destruct job as [[infile outfile] variable]. intros s s' H.
  cbn [embed_z] in *.
  apply bind_ok_inv in H as (stale & s0 & Hnb & H).
  pose proof (needs_build_ok _ _ _ _ _ Hnb) as ->.
  destruct stale; cbn [negb] in H.
  2: { injection H as <-. rewrite (bind_ok _ _ _ _ _ Hnb). reflexivity. }
  apply bind_ok_inv in H as (json_ & s0 & Hrd & H).
  destruct (read_ok_inv _ _ _ _ Hrd) as (fi & Hfi & -> & ->).
  rewrite (bind_ok _ _ _ _ _ (must_write_spec _ _ _ _)) in H.
  destruct (bool_decide (gate_open s (include outfile) variable (Hex.hex_string (data fi)))) eqn:Hg.
  2: { injection H as <-. rewrite (bind_ok _ _ _ _ _ Hnb). cbn [negb].
       rewrite (bind_ok _ _ _ _ _ Hrd).
       rewrite (bind_ok _ _ _ _ _ (must_write_spec _ _ _ _)), Hg. reflexivity. }
  apply written_header in H. subst s'.
  match goal with |- context [Ok tt ?t] => set (s' := t) end.
  assert (Hi' : files s' !! dev infile = Some fi).
  { unfold s'. cbn [files]. rewrite lookup_insert_ne by (apply not_eq_sym, dev_not_include).
    exact Hfi. }
  assert (Ho' : exists fo, files s' !! include outfile = Some fo).
  { unfold s'. cbn [files]. rewrite lookup_insert_eq. eauto. }
  destruct Ho' as [fo Ho'].
  rewrite (bind_ok _ _ _ _ _ (needs_build_both _ _ _ _ _ Hi' Ho')).
  destruct (_ <? _); cbn [negb]; [|reflexivity].
  rewrite (bind_ok _ _ _ _ _ (read_present _ _ _ Hi')).
  unfold s' at 1. rewrite (bind_ok _ _ _ _ _ (gate_closed_after _ _ _ _ _)). reflexivity.
Qed.

Lemma embed_json_settles (L : libs) (job : string * string * string) : settles (embed_json L job).
Proof.
  destruct job as [[infile outfile] variable]. intros s s' H.
  cbn [embed_json] in *.
  apply bind_ok_inv in H as (stale & s0 & Hnb & H).
  pose proof (needs_build_ok _ _ _ _ _ Hnb) as ->.
  destruct stale; cbn [negb] in H.
  2: { injection H as <-. rewrite (bind_ok _ _ _ _ _ Hnb). reflexivity. }
  apply bind_ok_inv in H as (text & s0 & Hrd & H).
  destruct (read_ok_inv _ _ _ _ Hrd) as (fi & Hfi & -> & ->).
  destruct (json_loads L (data fi)) as [jj| |] eqn:Hj; try discriminate.
  rewrite (bind_ok _ _ _ _ _ (read_text_present _ _ _ Hfi)) in H.
  unfold encode_ascii in H.
  destruct (is_ascii (universal_newlines (data fi))) eqn:Ha; [|discriminate].
  rewrite (bind_ok _ _ s s (universal_newlines (data fi)) eq_refl) in H.
  rewrite (bind_ok _ _ _ _ _ (must_write_spec _ _ _ _)) in H.
  destruct (bool_decide (gate_open s (include outfile) variable
                           (Hex.hex_string (universal_newlines (data fi))))) eqn:Hg.
  2: { injection H as <-. rewrite (bind_ok _ _ _ _ _ Hnb). cbn [negb].
       rewrite (bind_ok _ _ _ _ _ Hrd), Hj.
       rewrite (bind_ok _ _ _ _ _ (read_text_present _ _ _ Hfi)).
       unfold encode_ascii. rewrite Ha.
       rewrite (bind_ok _ _ s s (universal_newlines (data fi)) eq_refl).
       rewrite (bind_ok _ _ _ _ _ (must_write_spec _ _ _ _)), Hg. reflexivity. }
  rewrite (bind_ok (now L) _ s s _ eq_refl) in H.
  apply written_header in H. subst s'.
  match goal with |- context [Ok tt ?t] => set (s' := t) end.
  assert (Hi' : files s' !! dev infile = Some fi).
  { unfold s'. cbn [files]. rewrite lookup_insert_ne by (apply not_eq_sym, dev_not_include).
    exact Hfi. }
  assert (Ho' : exists fo, files s' !! include outfile = Some fo).
  { unfold s'. cbn [files]. rewrite lookup_insert_eq. eauto. }
  destruct Ho' as [fo Ho'].
  rewrite (bind_ok _ _ _ _ _ (needs_build_both _ _ _ _ _ Hi' Ho')).
  destruct (_ <? _); cbn [negb]; [|reflexivity].
  rewrite (bind_ok _ _ _ _ _ (read_present _ _ _ Hi')), Hj.
  rewrite (bind_ok _ _ _ _ _ (read_text_present _ _ _ Hi')).
  unfold encode_ascii. rewrite Ha.
  rewrite (bind_ok _ _ s' s' (universal_newlines (data fi)) eq_refl).
  unfold s' at 1. rewrite (bind_ok _ _ _ _ _ (gate_closed_after _ _ _ _ _)). reflexivity.
Qed.

(** The flush of the dictionary that ends [generate]. *)
Lemma touches_flush (L : libs) :
  touches [hashes_fname] []
    (h <- get_hashes ;;
     if bool_decide (h <> ∅) then write L hashes_fname (hashes_dumps L h) else ret tt).
Proof.
  intros s0. unfold bind, get_hashes.
  destruct (bool_decide (hashes s0 <> ∅)).
  - apply (touches_write L [hashes_fname] [] hashes_fname); now left.
  - apply (touches_pure [hashes_fname] [] (ret tt)), pure_ret.
Qed.

Lemma for_each_app {A} (body : A -> M unit) (l1 l2 : list A) (s : state) :
  for_each body (l1 ++ l2) s = (for_each body l1 ;;; for_each body l2) s.
Proof.
  revert s. induction l1 as [|x l1 IH]; intros s; cbn [app for_each].
  - reflexivity.
  - unfold bind at 1 2 3. destruct (body x s) as [[] s'|e s']; [|reflexivity].
    rewrite IH. reflexivity.
Qed.

Lemma cons_not_self {A} (x : A) (l : list A) : x :: l <> l.
Proof. intros H. apply (f_equal (@length A)) in H. cbn in H. lia. Qed.

(** The staleness test of an embed job looks at its two files only. *)
Lemma needs_build_view (inpath outpath : string) (s t : state) (b : bool) :
  files t !! inpath = files s !! inpath -> files t !! outpath = files s !! outpath ->
  needs_build inpath outpath s = Ok b s -> needs_build inpath outpath t = Ok b t.
Proof.
  intros Hi Ho.
  destruct (files s !! outpath) as [fo|] eqn:Eo.
  - destruct (files s !! inpath) as [fi|] eqn:Ei.
    + rewrite (needs_build_both _ _ _ _ _ Ei Eo), (needs_build_both _ _ _ _ _ Hi Ho).
      intros H. now injection H as <-.
    + rewrite (needs_build_no_input _ _ _ _ Eo Ei). discriminate.
  - rewrite (needs_build_no_output _ _ _ Eo), (needs_build_no_output _ _ _ Ho).
    intros H. now injection H as <-.
Qed.

(** A plain JSON job that ends well and changes nothing does the same in
    every state that gives it the same input, the same header and the
    same digest. *)
Lemma embed_json_view (L : libs) (infile outfile variable : string) (s t : state) :
  files t !! dev infile = files s !! dev infile ->
  files t !! include outfile = files s !! include outfile ->
  hashes t !! variable = hashes s !! variable ->
  embed_json L (infile, outfile, variable) s = Ok tt s ->
  embed_json L (infile, outfile, variable) t = Ok tt t.
Proof.
  intros Hi Ho Hv H. cbn [embed_json] in *.
  apply bind_ok_inv in H as (stale & s0 & Hnb & H).
  pose proof (needs_build_ok _ _ _ _ _ Hnb) as ->.
  rewrite (bind_ok _ _ _ _ _ (needs_build_view _ _ _ _ _ Hi Ho Hnb)).
  destruct stale; cbn [negb] in *; [|reflexivity].
  apply bind_ok_inv in H as (text & s0 & Hrd & H).
  destruct (read_ok_inv _ _ _ _ Hrd) as (fi & Hfi & -> & ->).
  assert (Hfi' : files t !! dev infile = Some fi) by now rewrite Hi.
  rewrite (bind_ok _ _ _ _ _ (read_present _ _ _ Hfi')).
  destruct (json_loads L (data fi)) as [jj| |] eqn:Hj; try discriminate.
  rewrite (bind_ok _ _ _ _ _ (read_text_present _ _ _ Hfi)) in H.
  rewrite (bind_ok _ _ _ _ _ (read_text_present _ _ _ Hfi')).
  unfold encode_ascii in *.
  destruct (is_ascii (universal_newlines (data fi))) eqn:Ha; [|discriminate].
  rewrite (bind_ok _ _ s s (universal_newlines (data fi)) eq_refl) in H.
  rewrite (bind_ok _ _ t t (universal_newlines (data fi)) eq_refl).
  rewrite (bind_ok _ _ _ _ _ (must_write_spec _ _ _ _)) in H.
  rewrite (bind_ok _ _ _ _ _ (must_write_spec _ _ _ _)).
  assert (Hg : gate_open t (include outfile) variable (Hex.hex_string (universal_newlines (data fi)))
               <-> gate_open s (include outfile) variable
                     (Hex.hex_string (universal_newlines (data fi)))).
  { unfold gate_open. now rewrite Ho, Hv. }
  rewrite (bool_decide_ext _ _ Hg).
  destruct (bool_decide (gate_open s _ _ _)); [|reflexivity].
  exfalso. rewrite (bind_ok (now L) _ s s _ eq_refl) in H.
  apply written_header in H. apply (f_equal written) in H. cbn [written] in H.
  symmetry in H. exact (cons_not_self _ _ H).
Qed.

(** *** One job of the loop over [values] in both runs

    The job is ([infile], [outfile], [variable]), with [pre] before it and
    [post] after it in [values]; nothing else in [TO_CPP] writes its input
    or its header or assigns its key. *)
Section OneJob.

Variables (L : libs) (pre post : list (string * string * string)).
Variables (infile outfile variable : string).

Hypothesis Hvalues : values = (pre ++ (infile, outfile, variable) :: post)%list.
Hypothesis Hin : ~ In (dev infile) (other_paths pre post).
Hypothesis Hout : ~ In (include outfile) (other_paths pre post).
Hypothesis Hvar : ~ In variable (other_keys pre post).

Lemma touches_jobs (l : list (string * string * string)) :
  incl l (zvalues ++ pre ++ post) ->
  forall embed, (forall paths keys job, In (job_outpath job) paths -> In (job_variable job) keys ->
                   touches paths keys (embed job)) ->
  touches (other_paths pre post) (other_keys pre post) (for_each embed l).
Proof.
  intros Hl embed Hembed. apply touches_for_each. intros job Hjob. apply Hembed.
  - unfold other_paths. apply in_or_app. right. apply in_or_app. right.
    apply in_map, Hl, Hjob.
  - unfold other_keys. apply in_map, Hl, Hjob.
Qed.

Lemma touches_before_job : touches (other_paths pre post) (other_keys pre post) (before_job L pre).
Proof.
  unfold before_job, combine_json.
  apply touches_bind; [apply touches_bind; [|intros _] | intros _; apply touches_bind; [|intros _]].
  - eapply touches_weaken; [| |apply (touches_combine_fluids L (other_keys pre post))].
    + unfold other_paths. apply incl_appl, incl_refl.
    + apply incl_refl.
  - eapply touches_weaken; [| |apply (touches_combine_incompressibles L (other_keys pre post))].
    + unfold other_paths. apply incl_appr, incl_appl, incl_refl.
    + apply incl_refl.
  - apply touches_jobs; [apply incl_appl, incl_refl | apply touches_embed_z].
  - apply touches_jobs; [apply incl_appr, incl_appl, incl_refl | apply touches_embed_json].
Qed.

Lemma touches_after_job : touches (other_paths pre post) (other_keys pre post) (for_each (embed_json L) post).
Proof. apply touches_jobs; [apply incl_appr, incl_appr, incl_refl | apply touches_embed_json]. Qed.

Lemma TO_CPP_at_job (s : state) :
  TO_CPP L s =
  (before_job L pre ;;; embed_json L (infile, outfile, variable) ;;; for_each (embed_json L) post) s.
Proof.
  unfold TO_CPP, before_job. rewrite Hvalues. unfold bind.
  destruct (combine_json L s) as [[] s1|e s1]; [|reflexivity].
  destruct (for_each (embed_z L) zvalues s1) as [[] s2|e s2]; [|reflexivity].
  rewrite for_each_app. unfold bind.
  destruct (for_each (embed_json L) pre s2) as [[] s3|e s3]; reflexivity.
Qed.

(** Where [TO_CPP] has ended well the job is settled, and the rest of the
    run has left its input, its header and its digest alone. *)
Lemma job_settled (s s' : state) :
  TO_CPP L s = Ok tt s' ->
  exists u, embed_json L (infile, outfile, variable) u = Ok tt u
            /\ files s' !! dev infile = files u !! dev infile
            /\ files s' !! include outfile = files u !! include outfile
            /\ hashes s' !! variable = hashes u !! variable.
Proof.
  rewrite TO_CPP_at_job. intros H.
  apply bind_ok_inv in H as ([] & s1 & _ & H).
  apply bind_ok_inv in H as ([] & u & Hjob & H).
  exists u. split; [exact (embed_json_settles L _ _ _ Hjob)|].
  destruct (touches_ok _ _ _ _ _ _ touches_after_job H) as (_ & F & K).
  repeat split; [apply F, Hin | apply F, Hout | apply K, Hvar].
Qed.

(** From a state that gives the settled job the same input, header and
    digest, [TO_CPP] writes only other files and assigns only other keys,
    whether it ends well or raises. *)
Lemma job_skipped (u t : state) :
  embed_json L (infile, outfile, variable) u = Ok tt u ->
  files t !! dev infile = files u !! dev infile ->
  files t !! include outfile = files u !! include outfile ->
  hashes t !! variable = hashes u !! variable ->
  let t' := final_state (TO_CPP L t) in
  (exists new, written t' = (new ++ written t)%list /\ forall p, In p new -> In p (other_paths pre post))
  /\ (forall p, ~ In p (other_paths pre post) -> files t' !! p = files t !! p)
  /\ (forall k, ~ In k (other_keys pre post) -> hashes t' !! k = hashes t !! k).
Proof.
  intros Hu Hi Ho Hv. cbv zeta. rewrite TO_CPP_at_job.
  pose proof (touches_before_job t) as T. cbv zeta in T.
  destruct (before_job L pre t) as [[] v|e v] eqn:Hb; cbn [final_state] in T.
  2: { rewrite (bind_raise _ _ _ _ _ Hb). exact T. }
  rewrite (bind_ok _ _ _ _ _ Hb).
  destruct T as ((new1 & Hw1 & Hn1) & F1 & K1).
  assert (Hjob : embed_json L (infile, outfile, variable) v = Ok tt v).
  { apply (embed_json_view L infile outfile variable u v); [| | |exact Hu].
    - rewrite F1 by exact Hin. exact Hi.
    - rewrite F1 by exact Hout. exact Ho.
    - rewrite K1 by exact Hvar. exact Hv. }
  rewrite (bind_ok _ _ _ _ _ Hjob).
  destruct (touches_after_job v) as ((new2 & Hw2 & Hn2) & F2 & K2).
  split; [|split].
  - exists (new2 ++ new1)%list. split.
    + rewrite Hw2, Hw1. now rewrite app_assoc.
    + intros p Hp. apply in_app_or in Hp. destruct Hp; auto.
  - intros p Hp. now rewrite F2, F1.
  - intros k Hk. now rewrite K2, K1.
Qed.

End OneJob.

(** *** The two runs *)

Section Rerun.

Variables (L : libs) (s0 s1 : state).
Hypothesis first_run : main L s0 = Ok tt s1.
Hypothesis reloads : hashes_loads L (hashes_dumps L (hashes s1)) = Parsed (hashes s1).

(** The first run has ended with [TO_CPP] and the flush; the second one
    loads the dictionary that the first one held, writes the hidden
    version file, finds the revision as it was, and goes on to [TO_CPP]
    and the flush. *)
Lemma second_run_start :
  exists version sc sd,
    TO_CPP L sc = Ok tt sd
    /\ hashes s1 = hashes sd
    /\ files s1 = <[hashes_fname := File (clock L (tick sd)) (hashes_dumps L (hashes sd))]> (files sd)
    /\ hashes s1 !! "version" = Some (get_hash version)
    /\ data <$> files s1 !! ".version" = Some version
    /\ main L (new_process s1)
       = (TO_CPP L ;;;
          h <- get_hashes ;;
          if bool_decide (h <> ∅) then write L hashes_fname (hashes_dumps L h) else ret tt)
           {| files := <[".version" := File (clock L (tick s1)) version]> (files s1);
              tick := S (tick s1); written := [".version"]; hashes := hashes s1 |}.
Proof.
  pose proof first_run as H1. unfold main in H1.
  apply bind_ok_inv in H1 as ([] & sa & Hload & H1). unfold generate in H1.
  apply bind_ok_inv in H1 as ([] & sb & Hver & H1).
  apply bind_ok_inv in H1 as ([] & sc & Hgit & H1).
  apply bind_ok_inv in H1 as ([] & sd & Hcpp & H1).
  destruct (version_to_file_ok _ _ _ Hver) as (version & Hgv & Hascii & Hkey & Hdot).
  destruct (touches_ok _ _ _ _ _ _ (touches_version_to_file L) Hver) as (_ & Fv & _).
  destruct (gitrev_to_file_ok _ _ _ Hgit) as (r & Hgr & Hrev).
  destruct (touches_ok _ _ _ _ _ _ (touches_gitrev_to_file L) Hgit) as (_ & Fg & Kg).
  destruct (touches_ok _ _ _ _ _ _ (touches_TO_CPP L) Hcpp) as (_ & Fc & Kc).
  assert (Hkey_d : hashes sd !! "version" = Some (get_hash version)).
  { rewrite Kc by not_in. rewrite Kg by not_in. exact Hkey. }
  pose proof (flush_ok _ _ _ _ Hkey_d H1) as E1.
  assert (Hh1 : hashes s1 = hashes sd) by (rewrite E1; reflexivity).
  assert (Hf1 : files s1 = <[hashes_fname := File (clock L (tick sd)) (hashes_dumps L (hashes sd))]> (files sd))
    by (rewrite E1; reflexivity).
  assert (Hcm : files s1 !! "CMakeLists.txt" = files sa !! "CMakeLists.txt").
  { rewrite Hf1, lookup_insert_ne by discriminate.
    rewrite Fc by not_in. rewrite Fg by not_in. apply Fv. not_in. }
  assert (Hgt : files s1 !! dev "gitrevision.txt" = files sb !! dev "gitrevision.txt").
  { rewrite Hf1, lookup_insert_ne by discriminate.
    rewrite Fc by not_in. apply Fg. not_in. }
  assert (Hdot1 : data <$> files s1 !! ".version" = Some version).
  { rewrite Hf1, lookup_insert_ne by discriminate.
    rewrite Fc by not_in. rewrite Fg by not_in. exact Hdot. }
  assert (Hrev1 : forall gitrev, r = Some gitrev ->
            is_ascii gitrev = true /\ hashes s1 !! "gitrevision" = Some (get_hash gitrev)).
  { intros gitrev Hr. destruct (Hrev gitrev Hr) as [Ha Hk]. split; [exact Ha|].
    rewrite Hh1. rewrite Kc by not_in. exact Hk. }
  exists version, sc, sd.
  split; [exact Hcpp|]. split; [exact Hh1|]. split; [exact Hf1|].
  split; [rewrite Hh1; exact Hkey_d|]. split; [exact Hdot1|].
  set (t0 := {| files := files s1; tick := tick s1; written := []; hashes := hashes s1 |}).
  assert (Hl2 : load_hashes L (new_process s1) = Ok tt t0).
  { apply (load_hashes_parsed L (new_process s1)
             (File (clock L (tick sd)) (hashes_dumps L (hashes sd)))).
    - cbn. rewrite Hf1. apply lookup_insert_eq.
    - cbn. rewrite <- Hh1. exact reloads. }
  assert (Hv2 : version_to_file L t0 = write L ".version" version t0).
  { apply version_to_file_fresh; [|exact Hascii|].
    - apply (get_version_frame sa); [exact Hcm | exact Hgv].
    - cbn. rewrite Hh1. exact Hkey_d. }
  unfold write in Hv2. cbn [files tick written hashes t0 app] in Hv2.
  match type of Hv2 with _ = Ok tt ?t => set (t1 := t) in * end.
  assert (Hg2 : gitrev_to_file L t1 = Ok tt t1).
  { apply (gitrev_to_file_fresh L t1 r).
    - apply (get_gitrev_frame L sb); [|exact Hgr].
      cbn. rewrite lookup_insert_ne by discriminate. exact Hgt.
    - intros gitrev Hr. cbn. apply Hrev1, Hr. }
  unfold main. rewrite (bind_ok _ _ _ _ _ Hl2). unfold generate.
  rewrite (bind_ok _ _ _ _ _ Hv2), (bind_ok _ _ _ _ _ Hg2). reflexivity.
Qed.

(** What the flush adds to what [TO_CPP] has done. *)
Lemma after_flush (t : state) :
  let t' := final_state (TO_CPP L t) in
  let s' := final_state ((TO_CPP L ;;;
                          h <- get_hashes ;;
                          if bool_decide (h <> ∅) then write L hashes_fname (hashes_dumps L h)
                          else ret tt) t) in
  (exists flushed, written s' = (flushed ++ written t')%list
                   /\ forall p, In p flushed -> p = hashes_fname)
  /\ (forall p, p <> hashes_fname -> files s' !! p = files t' !! p)
  /\ (forall k, hashes s' !! k = hashes t' !! k).
Proof.
  cbv zeta. destruct (TO_CPP L t) as [[] t'|e t'] eqn:E.
  - rewrite (bind_ok _ _ _ _ _ E). cbn [final_state].
    destruct (touches_flush L t') as ((flushed & Hw & Hn) & F & K).
    split; [|split].
    + exists flushed. split; [exact Hw|]. intros p Hp. destruct (Hn p Hp) as [<-|[]]. reflexivity.
    + intros p Hp. apply F. intros [Ep|[]]. apply Hp. now symmetry.
    + intros k. apply K. intros [].
  - rewrite (bind_raise _ _ _ _ _ E). cbn [final_state].
    split; [|split]; [exists []; split; [reflexivity | intros p []] | reflexivity | reflexivity].
Qed.

(** The second run, whether it ends well or raises. *)
Lemma second_run_writes :
  let second := main L (new_process s1) in
  let s2 := final_state second in
  (exists flushed new,
     written s2 = (flushed ++ new ++ [".version"])%list
     /\ (forall p, In p flushed -> p = hashes_fname)
     /\ (forall p, In p new -> In p to_cpp_paths)
     /\ (succeeds second = true -> flushed = [hashes_fname]))
  /\ (forall p, p <> ".version" -> p <> hashes_fname -> ~ In p to_cpp_paths ->
                files s2 !! p = files s1 !! p)
  /\ (forall k, ~ In k to_cpp_keys -> hashes s2 !! k = hashes s1 !! k)
  /\ data <$> files s2 !! ".version" = data <$> files s1 !! ".version".
Proof.
  cbv zeta.
  destruct second_run_start as (version & sc & sd & _ & _ & _ & Hkey & Hdot & ->).
  match goal with |- context [final_state (_ ?t)] => set (t1 := t) end.
  destruct (after_flush t1) as ((flushed & Hwf & Hnf) & Ff & Kf).
  pose proof (touches_TO_CPP L t1) as T. cbv zeta in T.
  destruct T as ((new & Hw & Hn) & F & K).
  split; [|split; [|split]].
  - exists flushed, new. split; [|split; [|split]].
    + rewrite Hwf, Hw. reflexivity.
    + exact Hnf.
    + exact Hn.
    + intros Hs. destruct (TO_CPP L t1) as [[] t3|e t3] eqn:E.
      2: { rewrite (bind_raise _ _ _ _ _ E) in Hs. discriminate. }
      rewrite (bind_ok _ _ _ _ _ E) in Hs, Hwf. cbn [final_state] in *.
      assert (Hk3 : hashes t3 !! "version" = Some (get_hash version)).
      { rewrite K by not_in. exact Hkey. }
      match type of Hs with succeeds (?m t3) = true =>
        destruct (m t3) as [[] s2|e s2] eqn:E2; [|discriminate] end.
      pose proof (flush_ok _ _ _ _ Hk3 E2) as ->. cbn [final_state written] in Hwf.
      change (hashes_fname :: written t3) with ([hashes_fname] ++ written t3)%list in Hwf.
      apply app_inv_tail in Hwf. now symmetry.
  - intros p Hv Hh Hp. rewrite Ff by exact Hh. rewrite F by exact Hp.
    cbn. now rewrite lookup_insert_ne by (intros E; apply Hv; now symmetry).
  - intros k Hk. rewrite Kf. now rewrite K by exact Hk.
  - rewrite Ff by discriminate. rewrite F by not_in.
    cbn. now rewrite lookup_insert_eq, Hdot.
Qed.

(** A job of [values] whose input, header and key are nobody else's: the
    second run leaves its header and its digest as they were. *)
Lemma second_run_skips (pre post : list (string * string * string))
      (infile outfile variable : string) :
  values = (pre ++ (infile, outfile, variable) :: post)%list ->
  ~ In (dev infile) (hashes_fname :: other_paths pre post) ->
  ~ In (include outfile) (other_paths pre post) ->
  ~ In variable (other_keys pre post) ->
  let s2 := final_state (main L (new_process s1)) in
  ~ In (include outfile) (written s2)
  /\ files s2 !! include outfile = files s1 !! include outfile
  /\ hashes s2 !! variable = hashes s1 !! variable.
Proof.
  intros Hvalues Hin Hout Hvar. cbv zeta.
  assert (Hin' : ~ In (dev infile) (other_paths pre post)) by (intros H; apply Hin; now right).
  assert (Hnh : dev infile <> hashes_fname) by (intros H; apply Hin; now left).
  destruct second_run_start as (version & sc & sd & Hcpp & Hh1 & Hf1 & _ & _ & ->).
  match goal with |- context [final_state (_ ?t)] => set (t1 := t) end.
  destruct (job_settled L pre post infile outfile variable Hvalues Hin' Hout Hvar sc sd Hcpp)
    as (u & Hu & Fi & Fo & Kv).
  destruct (after_flush t1) as ((flushed & Hwf & Hnf) & Ff & Kf).
  assert (Hi1 : files t1 !! dev infile = files u !! dev infile).
  { cbn. rewrite lookup_insert_ne by (unfold dev; discriminate).
    rewrite Hf1, lookup_insert_ne by (intros E; apply Hnh; now symmetry). exact Fi. }
  assert (Ho1 : files t1 !! include outfile = files s1 !! include outfile).
  { cbn. now rewrite lookup_insert_ne by (unfold include; discriminate). }
  assert (Ho1' : files s1 !! include outfile = files u !! include outfile).
  { rewrite Hf1, lookup_insert_ne by (unfold include, hashes_fname, dev; discriminate). exact Fo. }
  assert (Hv1 : hashes t1 !! variable = hashes u !! variable).
  { cbn. rewrite Hh1. exact Kv. }
  destruct (job_skipped L pre post infile outfile variable Hvalues Hin' Hout Hvar u t1 Hu Hi1
              (eq_trans Ho1 Ho1') Hv1) as ((new & Hw & Hn) & F & K).
  split; [|split].
  - rewrite Hwf, Hw. cbn [written t1]. intros H.
    apply in_app_or in H as [H|H].
    + apply Hnf in H. revert H. unfold include, hashes_fname, dev. discriminate.
    + apply in_app_or in H as [H|[H|[]]].
      * apply Hout, Hn, H.
      * revert H. unfold include. discriminate.
  - rewrite Ff by (unfold include, hashes_fname, dev; discriminate).
    rewrite F by exact Hout. exact Ho1.
  - rewrite Kf, K by exact Hvar. reflexivity.
Qed.

End Rerun.

(** C1, as the specification states it, fails on a checkout that has just
    been built: the second run succeeds and opens nine files for writing,
    among them the hidden version file and the file of the digests. *)
Lemma rerun_counterexample :
  succeeds (main Sample.L Sample.checkout) = true
  /\ succeeds (main Sample.L (Sample.run Sample.checkout)) = true
  /\ written (final_state (main Sample.L (Sample.run Sample.checkout)))
     = [ "dev/hashes.json"; "dev/.incompdepcache"; "dev/all_incompressibles.json";
         "dev/all_incompressibles_verbose.json"; "dev/.fluiddepcache"; "dev/all_fluids.json";
         "dev/all_fluids_verbose.json"; "dev/all_fluids.json.z"; ".version" ].
Proof. repeat split; vm_compute; reflexivity. Qed.

Ltac skipped_job L s0 s1 E1 Hr i :=
  lazymatch goal with
  | |- context [job_outpath (?infile, ?outfile, ?variable)] =>
      apply (second_run_skips L s0 s1 E1 Hr (take i values) (drop (S i) values)
               infile outfile variable);
      [reflexivity | not_in | not_in | not_in]
  end.

(** C1, amended: when a run has succeeded and the file of the digests it
    wrote reads back as the dictionary it held, a second run on the same
    files, whether it ends well or raises, writes the hidden version file
    again, with the same text; it writes neither the version header nor
    the revision header nor the header of any job of [values] after the
    first two, the eight jobs whose input the script does not produce, and
    leaves these headers and their digests as they were; when it ends
    well it has written the file of the digests again. *)
Theorem rerun_writes (L : libs) (s0 : state) :
  let s1 := final_state (main L s0) in
  let second := main L (new_process s1) in
  let s2 := final_state second in
  succeeds (main L s0) = true ->
  hashes_loads L (hashes_dumps L (hashes s1)) = Parsed (hashes s1) ->
  In ".version" (written s2)
  /\ data <$> files s2 !! ".version" = data <$> files s1 !! ".version"
  /\ (succeeds second = true -> In hashes_fname (written s2))
  /\ (forall p key, In (p, key) [ (include "cpversion.h", "version");
                                   (include "gitrevision.h", "gitrevision") ] ->
        ~ In p (written s2) /\ files s2 !! p = files s1 !! p
        /\ hashes s2 !! key = hashes s1 !! key)
  /\ (forall job, In job (drop 2 values) ->
        ~ In (job_outpath job) (written s2)
        /\ files s2 !! job_outpath job = files s1 !! job_outpath job
        /\ hashes s2 !! job_variable job = hashes s1 !! job_variable job).
Proof.
  cbv zeta. intros H1 Hr.
  destruct (main L s0) as [[] s1|] eqn:E1; [|discriminate]. cbn [final_state] in *.
  destruct (second_run_writes L s0 s1 E1 Hr)
    as ((flushed & new & Hw & Hnf & Hn & Hs) & F & K & Hdot).
  split; [|split; [|split; [|split]]].
  - rewrite Hw. apply in_or_app. right. apply in_or_app. right. now left.
  - exact Hdot.
  - intros Hok. rewrite Hw, (Hs Hok). now left.
  - assert (Hp : forall p, p <> ".version" -> p <> hashes_fname -> ~ In p to_cpp_paths ->
                           ~ In p (written (final_state (main L (new_process s1))))).
    { intros p Hv Hh Hp. rewrite Hw. intros H.
      apply in_app_or in H as [H|H]; [now apply Hh, Hnf|].
      apply in_app_or in H as [H|[H|[]]]; [now apply Hp, Hn | now apply Hv]. }
    intros p key [E|[E|[]]]; injection E as <- <-.
    + split; [apply Hp; [discriminate | discriminate | not_in]|].
      split; [apply F; [discriminate | discriminate | not_in] | apply K; not_in].
    + split; [apply Hp; [discriminate | discriminate | not_in]|].
      split; [apply F; [discriminate | discriminate | not_in] | apply K; not_in].
  - intros job Hjob. cbn in Hjob.
    destruct Hjob as [<-|[<-|[<-|[<-|[<-|[<-|[<-|[<-|[]]]]]]]]].
    + skipped_job L s0 s1 E1 Hr 2%nat.
    + skipped_job L s0 s1 E1 Hr 3%nat.
    + skipped_job L s0 s1 E1 Hr 4%nat.
    + skipped_job L s0 s1 E1 Hr 5%nat.
    + skipped_job L s0 s1 E1 Hr 6%nat.
    + skipped_job L s0 s1 E1 Hr 7%nat.
    + skipped_job L s0 s1 E1 Hr 8%nat.
    + skipped_job L s0 s1 E1 Hr 9%nat.
Qed.

Lemma rerun_writes_witness :
  succeeds (main Sample.L Sample.checkout) = true
  /\ In ".version" (written (final_state (main Sample.L (Sample.run Sample.checkout))))
  /\ ~ In (include "cpversion.h")
         (written (final_state (main Sample.L (Sample.run Sample.checkout))))
  /\ ~ In (include "all_cubics_JSON.h")
         (written (final_state (main Sample.L (Sample.run Sample.checkout)))).
Proof.
  assert (H1 : succeeds (main Sample.L Sample.checkout) = true) by (vm_compute; reflexivity).
  split; [exact H1|].
  destruct (rerun_writes Sample.L Sample.checkout H1) as (Hv & _ & _ & Hc & Hj).
  - vm_compute. reflexivity.
  - split; [exact Hv|]. split.
    + exact (proj1 (Hc _ _ (or_introl eq_refl))).
    + apply (Hj ("cubics/all_cubic_fluids.json", "all_cubics_JSON.h", "all_cubics_JSON")).
      cbn. tauto.
Defined.

(** * Further properties *)

(** ** More on the encoding *)

(** X1: [to_chunks] cuts a list into consecutive slices that put together
    give the list back; no slice is empty, none is longer than the width,
    and all but the last have exactly the width; a width below one counts
    as one, so that every slice then holds one item. *)
Theorem to_chunks_partition {A} (l : list A) (n : Z) :
  let width := Z.to_nat (Z.max n 1) in
  let chunks := Hex.to_chunks l n in
  List.concat chunks = l
  /\ Forall (fun c => c <> [] /\ (length c <= width)%nat) chunks
  /\ (forall (i : nat) (c : list A),
        chunks !! i = Some c -> (S i < length chunks)%nat -> length c = width)
  /\ (n < 1 -> Forall (fun c => length c = 1%nat) chunks).
Proof.
  cbv zeta. unfold Hex.to_chunks.
  assert (E : (if n <? 1 then 1 else n) = Z.max n 1).
  { destruct (Z.ltb_spec n 1); lia. }
  rewrite E. set (w := Z.to_nat (Z.max n 1)).
  assert (Hw : (0 < w)%nat) by (unfold w; lia).
  assert (Hlen : forall (i : nat) (c : list A),
             Hex.slices (length l) l w !! i = Some c ->
             (length c <= w)%nat /\ ((S i < length (Hex.slices (length l) l w))%nat -> length c = w)).
  { apply slices_lengths; [exact Hw | lia]. }
  split; [apply slices_concat; [exact Hw | lia]|].
  split; [|split].
  - apply Forall_lookup_2. intros i c Hi. split.
    + pose proof (slices_nonempty (length l) l w Hw) as Hne.
      exact (Forall_lookup_1 _ _ _ _ Hne Hi).
    + apply (Hlen i c Hi).
  - intros i c Hi. apply (Hlen i c Hi).
  - intros Hn. apply Forall_lookup_2. intros i c Hi.
    pose proof (slices_nonempty (length l) l w Hw) as Hne.
    pose proof (Forall_lookup_1 _ _ _ _ Hne Hi) as Hc.
    destruct (Hlen i c Hi) as [Hle _].
    assert (w = 1%nat) by (unfold w; lia).
    destruct c; [congruence | cbn [length] in *; lia].
Qed.

Lemma to_chunks_partition_witness :
  Forall (fun c => length c = 1%nat) (Hex.to_chunks ["a"; "b"; "c"] 0).
Proof. apply (to_chunks_partition ["a"; "b"; "c"] 0). lia. Defined.

Lemma chars_append (a b : string) :
  list_ascii_of_string (a ++ b) = (list_ascii_of_string a ++ list_ascii_of_string b)%list.
Proof.
  induction a as [|x a IH]; [reflexivity|].
  change (x :: list_ascii_of_string (a ++ b) = x :: (list_ascii_of_string a ++ list_ascii_of_string b)%list).
  now rewrite IH.
Qed.

Lemma chars_length (s : string) : length (list_ascii_of_string s) = String.length s.
Proof. induction s as [|x s IH]; [reflexivity | cbn; now rewrite IH]. Qed.

(** The characters of a joined list: those of the items, each followed by
    the separator, but for the last separator. *)
Lemma chars_concat (sep : string) (ls : list string) :
  ls <> [] ->
  (list_ascii_of_string (String.concat sep ls) ++ list_ascii_of_string sep)%list
  = List.concat (map (fun x => list_ascii_of_string x ++ list_ascii_of_string sep)%list ls).
Proof.
  induction ls as [|x ls IH]; [congruence|]. intros _.
  destruct ls as [|y ls].
  - cbn [String.concat map List.concat]. now rewrite app_nil_r.
  - change (String.concat sep (x :: y :: ls)) with (x ++ sep ++ String.concat sep (y :: ls)).
    rewrite !chars_append. specialize (IH ltac:(discriminate)).
    cbn [map List.concat] in *. rewrite <- IH. now rewrite <- !app_assoc.
Qed.

Lemma joined_chars (P : ascii -> Prop) (sep : string) (ls : list string) :
  ls <> [] -> Forall P (list_ascii_of_string sep) ->
  Forall (fun x => Forall P (list_ascii_of_string x)) ls ->
  Forall P (list_ascii_of_string (String.concat sep ls)).
Proof.
  intros Hne Hsep Hls.
  assert (H : Forall P (list_ascii_of_string (String.concat sep ls) ++ list_ascii_of_string sep)%list).
  { rewrite chars_concat by exact Hne.
    induction Hls as [|x ls Hx Hls IH]; [constructor|].
    cbn [map List.concat]. apply Forall_app. split; [apply Forall_app; split; assumption|].
    destruct ls; [constructor | apply IH; discriminate]. }
  apply Forall_app in H. apply H.
Qed.

Lemma list_sum_cons (x : nat) (l : list nat) : list_sum (x :: l) = (x + list_sum l)%nat.
Proof. reflexivity. Qed.

Lemma joined_length (sep : string) (ls : list string) :
  ls <> [] ->
  (String.length (String.concat sep ls) + String.length sep
   = list_sum (map (fun x => String.length x + String.length sep) ls))%nat.
Proof.
  intros Hne. rewrite <- !chars_length, <- length_app, chars_concat by exact Hne.
  clear Hne. induction ls as [|x ls IH]; [reflexivity|].
  cbn [map List.concat]. rewrite list_sum_cons, !length_app, IH, !chars_length. reflexivity.
Qed.

Lemma hex_digit_char (n : N) : hex_char (Hex.hex_digit n) = true.
Proof.
  destruct n as [|p]; [reflexivity|].
  do 4 (destruct p as [p|p|]; try reflexivity).
Qed.

Lemma literal_chars (b : ascii) :
  Forall (fun c => encoding_char c = true) (list_ascii_of_string (Hex.literal b)).
Proof.
  unfold Hex.literal. cbn [list_ascii_of_string].
  repeat constructor; unfold encoding_char; rewrite ?hex_digit_char; reflexivity.
Qed.

Lemma line_length (c : list ascii) :
  c <> [] -> (String.length (String.concat ", " (map Hex.literal c)) + 2 = 6 * length c)%nat.
Proof.
  intros Hc.
  pose proof (joined_length ", " (map Hex.literal c)) as H.
  change (String.length ", ") with 2%nat in H.
  rewrite H by (destruct c; [congruence | discriminate]).
  clear. induction c as [|b c IH]; [reflexivity|].
  cbn [map length]. rewrite list_sum_cons, IH.
  change (String.length (Hex.literal b)) with 4%nat. lia.
Qed.

Lemma text_length (cs : list (list ascii)) :
  cs <> [] -> Forall (fun c => c <> []) cs ->
  (String.length (String.concat ("," ++ Hex.nl)
                    (map (String.concat ", ") (map (map Hex.literal) cs))) + 2
   = 6 * length (List.concat cs))%nat.
Proof.
  intros Hne Hcs.
  pose proof (joined_length ("," ++ Hex.nl) (map (String.concat ", ") (map (map Hex.literal) cs))) as H.
  change (String.length ("," ++ Hex.nl)) with 2%nat in H.
  rewrite H by (destruct cs; [congruence | discriminate]).
  clear Hne H. induction Hcs as [|c cs Hc Hcs IH]; [reflexivity|].
  cbn [map List.concat]. rewrite list_sum_cons, IH, length_app.
  pose proof (line_length c Hc). lia.
Qed.

Lemma text_chars (cs : list (list ascii)) :
  cs <> [] -> Forall (fun c => c <> []) cs ->
  Forall (fun x => encoding_char x = true)
    (list_ascii_of_string (String.concat ("," ++ Hex.nl)
                             (map (String.concat ", ") (map (map Hex.literal) cs)))).
Proof.
  intros Hne Hcs.
  apply joined_chars; [destruct cs; [congruence | discriminate] | repeat constructor |].
  rewrite !Forall_map. eapply Forall_impl; [exact Hcs|].
  intros c Hc. cbn beta.
  apply joined_chars; [destruct c; [congruence | discriminate] | repeat constructor |].
  rewrite Forall_map. apply Forall_forall. intros b _. apply literal_chars.
Qed.

Lemma encoding_char_ascii (c : ascii) : encoding_char c = true -> (N_of_ascii c <? 128)%N = true.
Proof.
  unfold encoding_char, hex_char, Hex.hex_value. intros H.
  apply N.ltb_lt.
  destruct ((48 <=? N_of_ascii c) && (N_of_ascii c <=? 57))%N eqn:E1.
  { apply andb_prop in E1 as [_ E1]. apply N.leb_le in E1. lia. }
  destruct ((97 <=? N_of_ascii c) && (N_of_ascii c <=? 102))%N eqn:E2.
  { apply andb_prop in E2 as [_ E2]. apply N.leb_le in E2. lia. }
  cbn in H.
  repeat (apply orb_prop in H as [H|H]); try discriminate;
    apply Ascii.eqb_eq in H; subst c; cbn; lia.
Qed.

(** X2: the text that is hashed and written is made of hex digits, [x],
    commas, spaces and line feeds only, so its [encode('ascii')] never
    raises; it holds six characters for every byte of the payload and four
    for the terminator, and is never empty. *)
Theorem hex_string_shape (payload : string) :
  Forall (fun c => encoding_char c = true) (list_ascii_of_string (Hex.hex_string payload))
  /\ is_ascii (Hex.hex_string payload) = true
  /\ String.length (Hex.hex_string payload) = (6 * String.length payload + 4)%nat.
Proof.
  assert (E : Hex.hex_string payload =
              String.concat ("," ++ Hex.nl)
                (map (String.concat ", ")
                   (map (map Hex.literal)
                      (Hex.slices (length (list_ascii_of_string payload ++ [zero])%list)
                         (list_ascii_of_string payload ++ [zero])%list 16)))).
  { unfold Hex.hex_string, Hex.to_chunks.
    rewrite literals_map, length_map, slices_map. reflexivity. }
  set (B := (list_ascii_of_string payload ++ [zero])%list) in *.
  assert (Hne : Hex.slices (length B) B 16 <> []).
  { intros H0. apply slices_nil_inv in H0; [|lia].
    unfold B in H0. destruct (list_ascii_of_string payload); discriminate. }
  pose proof (slices_nonempty (length B) B 16 ltac:(lia)) as Hcs.
  pose proof (text_chars _ Hne Hcs) as Hchars.
  pose proof (text_length _ Hne Hcs) as Hlen.
  rewrite slices_concat in Hlen by lia.
  rewrite E. split; [exact Hchars|]. split.
  - unfold is_ascii. apply forallb_forall. intros c Hc.
    apply encoding_char_ascii. rewrite Forall_forall in Hchars. apply Hchars.
    now apply list_elem_of_In.
  - assert (HB : length B = S (String.length payload)).
    { unfold B. rewrite length_app, chars_length. cbn [length]. lia. }
    rewrite HB in Hlen at 2. lia.
Qed.


(** X3: payloads that differ give encoded texts that differ, so the
    digest that gates a write is never that of another payload's text by
    the fault of the encoding. *)
Theorem hex_string_distinct (a b : string) :
  a <> b -> Hex.hex_string a <> Hex.hex_string b.
Proof.
  intros Hab H. apply Hab.
  pose proof (decode_hex_string a) as Ha. rewrite H, decode_hex_string in Ha.
  now injection Ha.
Qed.

Lemma hex_string_distinct_witness :
  "ab" <> "ac" /\ Hex.hex_string "ab" <> Hex.hex_string "ac".
Proof.
  split; [discriminate|]. apply hex_string_distinct. discriminate.
Defined.

(** ** The shape of a digest *)

Lemma round_length (st : list Z) (kw : Z * Z) : length (SHA224.round st kw) = length st.
Proof.
  unfold SHA224.round.
  repeat (destruct st as [|? st]; try reflexivity).
Qed.

Lemma rounds_length (kws : list (Z * Z)) (st : list Z) :
  length (fold_left SHA224.round kws st) = length st.
Proof.
  revert st. induction kws as [|kw kws IH]; intros st; [reflexivity|].
  cbn [fold_left]. now rewrite IH, round_length.
Qed.

Lemma compress_length (hs block : list Z) : length (SHA224.compress hs block) = length hs.
Proof.
  unfold SHA224.compress. rewrite length_zip_with, rounds_length. lia.
Qed.

Lemma blocks_length (blocks : list (list Z)) (hs : list Z) :
  length (fold_left SHA224.compress blocks hs) = length hs.
Proof.
  revert hs. induction blocks as [|b blocks IH]; intros hs; [reflexivity|].
  cbn [fold_left]. now rewrite IH, compress_length.
Qed.

Lemma hex8_chars (x : Z) :
  Forall (fun c => hex_char c = true) (list_ascii_of_string (SHA224.hex8 x))
  /\ String.length (SHA224.hex8 x) = 8%nat.
Proof.
  unfold SHA224.hex8. rewrite list_ascii_of_string_of_list_ascii. split.
  - apply Forall_map. apply Forall_forall. intros i _. apply hex_digit_char.
  - rewrite <- chars_length, list_ascii_of_string_of_list_ascii. reflexivity.
Qed.

Lemma digest_words (ws : list Z) :
  Forall (fun c => hex_char c = true)
    (list_ascii_of_string (String.concat "" (map SHA224.hex8 ws)))
  /\ String.length (String.concat "" (map SHA224.hex8 ws)) = (8 * length ws)%nat.
Proof.
  destruct ws as [|w ws]; [split; [constructor | reflexivity]|].
  split.
  - apply joined_chars; [discriminate | constructor |].
    rewrite Forall_map. apply Forall_forall. intros x _. apply hex8_chars.
  - pose proof (joined_length "" (map SHA224.hex8 (w :: ws)) ltac:(discriminate)) as H.
    change (String.length "") with 0%nat in H. rewrite Nat.add_0_r in H. rewrite H.
    clear. generalize (w :: ws). intros l. induction l as [|x l IH]; [reflexivity|].
    cbn [map length]. rewrite list_sum_cons, IH. destruct (hex8_chars x) as [_ ->]. lia.
Qed.

(** X4: a digest is 56 lowercase hex digits, whatever was hashed. *)
Theorem get_hash_shape (data : string) :
  String.length (get_hash data) = 56%nat
  /\ Forall (fun c => hex_char c = true) (list_ascii_of_string (get_hash data))
  /\ is_ascii (get_hash data) = true.
Proof.
  unfold get_hash, SHA224.hexdigest. cbv zeta.
  set (h := fold_left SHA224.compress _ SHA224.H0).
  assert (Hh : length h = 8%nat) by (unfold h; now rewrite blocks_length).
  destruct (digest_words (take 7 h)) as [Hc Hl].
  split; [|split].
  - rewrite Hl, length_take, Hh. reflexivity.
  - exact Hc.
  - unfold is_ascii. apply forallb_forall. intros c Hin.
    apply encoding_char_ascii. unfold encoding_char.
    rewrite Forall_forall in Hc. rewrite (Hc c); [reflexivity|]. now apply list_elem_of_In.
Qed.

(** ** The version *)

(** X5: [get_version] needs a line with VERSION_REVISION: without one the
    list of revision lines is empty and its first item does not exist. *)
Theorem get_version_needs_revision (s : state) (f : file) :
  files s !! "CMakeLists.txt" = Some f ->
  (forall line, In line (lines (universal_newlines (data f))) ->
                contains "VERSION_REVISION" line = false) ->
  get_version s = Raise IndexError s.
Proof.
  intros Hf Hno. unfold get_version.
  rewrite (bind_ok _ _ _ _ _ (read_text_present _ _ _ Hf)).
  unfold parse_version. cbv zeta.
  assert (E : version_field "VERSION_REVISION" "MINOR" (lines (universal_newlines (data f))) = None).
  { unfold version_field.
    replace (List.filter _ (lines (universal_newlines (data f)))) with (@nil string); [reflexivity|].
    symmetry. generalize dependent (lines (universal_newlines (data f))).
    intros ls Hls. induction ls as [|x ls IH]; [reflexivity|].
    cbn [List.filter]. rewrite (Hls x (or_introl eq_refl)). cbn [andb].
    apply IH. intros y Hy. apply Hls. now right. }
  rewrite E.
  destruct (version_field "VERSION_MAJOR" "MINOR" _); [|reflexivity].
  destruct (version_field "VERSION_MINOR" "MAJOR" _); [|reflexivity].
  destruct (version_field "VERSION_PATCH" "MINOR" _); reflexivity.
Qed.

Lemma get_version_needs_revision_witness :
  get_version (Sample.only_cmakelists Sample.docstring_cmakelists)
  = Raise IndexError (Sample.only_cmakelists Sample.docstring_cmakelists).
Proof.
  apply (get_version_needs_revision _ (File 0 Sample.docstring_cmakelists)); [reflexivity|].
  intros line H. vm_compute in H.
  repeat (destruct H as [<-|H]; [vm_compute; reflexivity|]). destruct H.
Defined.

(** X6: a successful [version_to_file] leaves the digest of the version in
    [hashes] and the version in the hidden file; it has written the hidden
    file, after the header if it wrote the header; called again at once it
    writes the hidden file only and leaves [hashes] and the header as they
    are. *)
Theorem version_to_file_settles (L : libs) (s s1 : state) :
  version_to_file L s = Ok tt s1 ->
  exists version,
    get_version s = Ok version s
    /\ hashes s1 !! "version" = Some (get_hash version)
    /\ data <$> files s1 !! ".version" = Some version
    /\ (written s1 = ".version" :: written s
        \/ written s1 = ".version" :: include "cpversion.h" :: written s)
    /\ exists s2,
         version_to_file L s1 = Ok tt s2
         /\ written s2 = ".version" :: written s1
         /\ hashes s2 = hashes s1
         /\ files s2 !! include "cpversion.h" = files s1 !! include "cpversion.h".
Proof.
  intros H.
  destruct (version_to_file_ok L s s1 H) as (version & Hv & Ha & Hk & Hd).
  destruct (touches_ok _ _ _ _ _ _ (touches_version_to_file L) H) as (_ & Hf & _).
  exists version. split; [exact Hv|]. split; [exact Hk|]. split; [exact Hd|]. split.
  - revert H. unfold version_to_file. rewrite (bind_ok _ _ _ _ _ Hv).
    unfold bind, get_hashes, get_hash_str, encode_ascii, store_hash, set_hashes,
      get_hashes, now, write, ret, raise, bind.
    rewrite Ha.
    destruct (hashes s !! "version") as [stored|]; cbn.
    + destruct (bool_decide (stored <> get_hash version)); cbn;
        intros E; injection E as <-; cbn; auto.
    + intros E; injection E as <-; cbn; auto.
  - assert (Hv1 : get_version s1 = Ok version s1).
    { apply (get_version_frame s); [|exact Hv]. apply Hf. not_in. }
    pose proof (version_to_file_fresh L s1 version Hv1 Ha Hk) as E.
    eexists. split; [exact E|]. cbn. split; [reflexivity|]. split; [reflexivity|].
    now rewrite lookup_insert_ne by discriminate.
Qed.

Lemma version_to_file_settles_witness :
  succeeds (version_to_file Sample.L Sample.checkout) = true
  /\ exists version,
       hashes (final_state (version_to_file Sample.L Sample.checkout)) !! "version"
       = Some (get_hash version).
Proof.
  split; [vm_compute; reflexivity|].
  destruct (version_to_file Sample.L Sample.checkout) as [[] s1|e s1] eqn:E.
  - destruct (version_to_file_settles Sample.L Sample.checkout s1 E) as (version & _ & Hk & _).
    exists version. exact Hk.
  - exfalso. assert (H : succeeds (version_to_file Sample.L Sample.checkout) = true)
      by (vm_compute; reflexivity).
    rewrite E in H. discriminate.
Defined.

(** ** The revision *)

(** X7: when [git rev-parse HEAD] succeeds and prints something with a space
    in it, the error that the script means to raise is built from a name
    that is not defined: the run ends with a [NameError], which no handler
    of [gitrev_to_file] catches, and nothing is written. *)
Theorem gitrev_with_space_raises (L : libs) (s : state) (stdout : string) :
  git L = GitRevParse 0 stdout -> contains " " (strip stdout) = true ->
  gitrev_to_file L s = Raise (NameError "rev") s.
Proof.
  intros Hg Hsp. unfold gitrev_to_file, get_gitrev. rewrite Hg.
  rewrite bool_decide_eq_false_2 by tauto. rewrite Hsp. reflexivity.
Qed.

Lemma gitrev_with_space_raises_witness :
  gitrev_to_file (Sample.with_git (GitRevParse 0 "fatal: not a repository")) Sample.nothing
  = Raise (NameError "rev") Sample.nothing.
Proof.
  apply (gitrev_with_space_raises _ _ "fatal: not a repository"); reflexivity.
Defined.

Lemma gitrev_to_file_succeeds (L : libs) (s : state) (gitrev : string) :
  get_gitrev L s = Ok (Some gitrev) s -> is_ascii gitrev = true ->
  exists s', gitrev_to_file L s = Ok tt s'.
Proof.
  intros Hr Ha. unfold gitrev_to_file. rewrite (bind_ok _ _ _ _ _ Hr).
  unfold bind, get_hashes, get_hash_str, encode_ascii, store_hash, set_hashes,
    get_hashes, now, write, ret, raise, bind.
  rewrite Ha.
  destruct (hashes s !! "gitrevision") as [stored|]; cbv beta iota.
  - destruct (bool_decide (stored <> get_hash gitrev)); eauto.
  - eauto.
Qed.

(** X8: without git the revision is unknown and the run goes on: when
    [git --version] fails, or [git rev-parse] fails and there is no
    gitrevision.txt, [gitrev_to_file] succeeds with the digest of [???] in
    [hashes], and it changes nothing if that digest was there already;
    when a process cannot be started it succeeds and changes nothing. *)
Theorem gitrev_unavailable (L : libs) (s : state) :
  (git L = GitOSError -> gitrev_to_file L s = Ok tt s)
  /\ (git L = GitNotFound
      \/ (exists returncode stdout,
             git L = GitRevParse returncode stdout /\ returncode <> 0
             /\ files s !! dev "gitrevision.txt" = None) ->
      succeeds (gitrev_to_file L s) = true
      /\ hashes (final_state (gitrev_to_file L s)) !! "gitrevision" = Some (get_hash "???")
      /\ (hashes s !! "gitrevision" = Some (get_hash "???") ->
          final_state (gitrev_to_file L s) = s)).
Proof.
  split.
  - intros Hg. unfold gitrev_to_file, get_gitrev. rewrite Hg. reflexivity.
  - intros Hg.
    assert (Hr : get_gitrev L s = Ok (Some "???") s).
    { unfold get_gitrev. destruct Hg as [->|(rc & out & -> & Hrc & Hf)]; [reflexivity|].
      rewrite bool_decide_eq_true_2 by exact Hrc.
      rewrite (bind_ok _ _ _ _ _ (exists_missing _ _ Hf)). reflexivity. }
    destruct (gitrev_to_file_succeeds L s "???" Hr eq_refl) as [s' E].
    rewrite E. cbn [succeeds final_state]. split; [reflexivity|].
    destruct (gitrev_to_file_ok L s s' E) as (r & Hr' & Hpost).
    rewrite Hr in Hr'. injection Hr' as <-.
    split; [apply (Hpost "???" eq_refl)|].
    intros Hs.
    assert (E' : gitrev_to_file L s = Ok tt s).
    { apply (gitrev_to_file_fresh L s (Some "???") Hr).
      intros g Hg'. injection Hg' as <-. split; [reflexivity | exact Hs]. }
    rewrite E in E'. now injection E'.
Qed.

Lemma gitrev_unavailable_witness :
  hashes (final_state (gitrev_to_file (Sample.with_git GitNotFound) Sample.nothing)) !! "gitrevision"
  = Some (get_hash "???").
Proof.
  apply (proj2 (gitrev_unavailable (Sample.with_git GitNotFound) Sample.nothing)).
  left. reflexivity.
Defined.

(** ** What a run may touch *)

Lemma touches_generate (L : libs) : touches generate_paths generate_keys (generate L).
Proof.
  unfold generate.
  apply touches_bind; [|intros _; apply touches_bind; [|intros _; apply touches_bind; [|intros _]]].
  - eapply touches_weaken; [| |apply touches_version_to_file].
    + intros p [<-|[<-|[]]]; in_list.
    + intros p [<-|[]]; in_list.
  - eapply touches_weaken; [| |apply touches_gitrev_to_file].
    + intros p [<-|[]]; in_list.
    + intros p [<-|[]]; in_list.
  - eapply touches_weaken; [| |apply touches_TO_CPP].
    + unfold generate_paths. do 4 apply incl_tl. apply incl_refl.
    + unfold generate_keys. do 2 apply incl_tl. apply incl_refl.
  - touches_walk.
Qed.

(** X9: whatever the state and the libraries, and whether it ends well or
    raises, [generate] opens for writing only the headers, the hidden
    version file, the combined files, the two caches and the file of the
    digests, and assigns only the keys of the version, of the revision and
    of the embed jobs.  No fragment and no hand-written input is among
    them: all of these are the same after the run as before. *)
Theorem generate_footprint (L : libs) :
  touches generate_paths generate_keys (generate L)
  /\ (forall name, ~ In (dev ("fluids/" ++ name)) generate_paths)
  /\ (forall name, ~ In (dev ("incompressible_liquids/json/" ++ name)) generate_paths)
  /\ Forall (fun p => ~ In p generate_paths) hand_written.
Proof.
  split; [apply touches_generate|]. split; [|split].
  - intros name H. cbv in H. intuition discriminate.
  - intros name H. cbv in H. intuition discriminate.
  - repeat constructor; not_in.
Qed.

Lemma generate_footprint_witness :
  files (final_state (generate Sample.L Sample.checkout)) !! "dev/fluids/a.json"
  = files Sample.checkout !! "dev/fluids/a.json".
Proof.
  apply (proj1 (proj2 (proj1 (generate_footprint Sample.L) Sample.checkout))).
  apply (proj1 (proj2 (generate_footprint Sample.L)) "a.json").
Defined.

(** X10: a run of [generate] that ends well has written the file of the
    digests last, with the dictionary as the run leaves it, and the
    dictionary holds the digest of the version: the test [if hashes:]
    never fails on such a run. *)
Theorem generate_flushes (L : libs) (s s' : state) :
  generate L s = Ok tt s' ->
  data <$> files s' !! hashes_fname = Some (hashes_dumps L (hashes s'))
  /\ head (written s') = Some hashes_fname
  /\ is_Some (hashes s' !! "version")
  /\ hashes s' <> ∅.
Proof.
  intros H. unfold generate in H.
  apply bind_ok_inv in H as ([] & sb & Hver & H).
  apply bind_ok_inv in H as ([] & sc & Hgit & H).
  apply bind_ok_inv in H as ([] & sd & Hcpp & H).
  destruct (version_to_file_ok _ _ _ Hver) as (version & _ & _ & Hkey & _).
  destruct (touches_ok _ _ _ _ _ _ (touches_gitrev_to_file L) Hgit) as (_ & _ & Kg).
  destruct (touches_ok _ _ _ _ _ _ (touches_TO_CPP L) Hcpp) as (_ & _ & Kc).
  assert (Hkey_d : hashes sd !! "version" = Some (get_hash version)).
  { rewrite Kc by not_in. rewrite Kg by not_in. exact Hkey. }
  rewrite (flush_ok _ _ _ _ Hkey_d H). cbn [files written hashes head].
  rewrite lookup_insert_eq. split; [reflexivity|]. split; [reflexivity|].
  split; [rewrite Hkey_d; eauto|].
  intros E. rewrite E, lookup_empty in Hkey_d. discriminate.
Qed.

Lemma generate_flushes_witness :
  succeeds (generate Sample.L Sample.checkout) = true
  /\ head (written (final_state (generate Sample.L Sample.checkout))) = Some hashes_fname.
Proof.
  split; [vm_compute; reflexivity|].
  destruct (generate Sample.L Sample.checkout) as [[] s1|e s1] eqn:E.
  - apply (generate_flushes Sample.L Sample.checkout s1 E).
  - exfalso. assert (H : succeeds (generate Sample.L Sample.checkout) = true)
      by (vm_compute; reflexivity).
    rewrite E in H. discriminate.
Defined.

(** ** Entries of the dictionary *)

Lemma keeps_pure {A} (m : M A) : pure m -> keeps_entries m.
Proof. intros Hm s k Hk. now rewrite (Hm s). Qed.

Lemma keeps_bind {A B} (m : M A) (k : A -> M B) :
  keeps_entries m -> (forall a, keeps_entries (k a)) -> keeps_entries (bind m k).
Proof.
  intros Hm Hk s x Hx. unfold bind. specialize (Hm s x Hx).
  destruct (m s) as [a s1|e s1]; cbn [final_state] in *; [apply Hk, Hm | exact Hm].
Qed.

Lemma keeps_write (L : libs) (p content : string) : keeps_entries (write L p content).
Proof. intros s k Hk. exact Hk. Qed.

Lemma keeps_store_hash (key value : string) : keeps_entries (store_hash key value).
Proof.
  intros s k Hk. cbn. destruct (decide (key = k)) as [->|Hne].
  - rewrite lookup_insert_eq. eauto.
  - now rewrite lookup_insert_ne.
Qed.

Lemma keeps_for_each {A} (body : A -> M unit) (l : list A) :
  (forall x, keeps_entries (body x)) -> keeps_entries (for_each body l).
Proof.
  intros H. induction l as [|x l IH]; cbn [for_each].
  - apply keeps_pure, pure_ret.
  - apply keeps_bind; [apply H | intros _; exact IH].
Qed.

Ltac keeps_leaf :=
  first [ apply keeps_pure; solve [eauto with pure]
        | apply keeps_write
        | apply keeps_store_hash ].

Ltac keeps_walk := walk @keeps_bind keeps_leaf.

Lemma keeps_write_cache (L : libs) (self : DependencyManager.t) :
  keeps_entries (DependencyManager.write_cache L self).
Proof.
  unfold DependencyManager.write_cache, DependencyManager.sorted_sources. keeps_walk.
Qed.

Lemma keeps_combine_json (L : libs) : keeps_entries (combine_json L).
Proof.
  unfold combine_json, combine_fluids, combine_incompressibles,
    package_fluids, package_incompressibles.
  walk @keeps_bind ltac:(first [keeps_leaf | apply keeps_write_cache]).
Qed.

Lemma keeps_embed_z (L : libs) job : keeps_entries (embed_z L job).
Proof. destruct job as [[infile outfile] variable]. cbn [embed_z]. keeps_walk. Qed.

Lemma keeps_embed_json (L : libs) job : keeps_entries (embed_json L job).
Proof. destruct job as [[infile outfile] variable]. cbn [embed_json]. keeps_walk. Qed.

Lemma keeps_version_to_file (L : libs) : keeps_entries (version_to_file L).
Proof. unfold version_to_file. keeps_walk. Qed.

Lemma keeps_gitrev_to_file (L : libs) : keeps_entries (gitrev_to_file L).
Proof. unfold gitrev_to_file. keeps_walk. Qed.

(** X11: [generate] only assigns in [hashes]: a key that has a digest before
    the run has one after it, whether the run ends well or raises. *)
Theorem generate_keeps_entries (L : libs) : keeps_entries (generate L).
Proof.
  unfold generate, TO_CPP.
  apply keeps_bind; [apply keeps_version_to_file | intros _].
  apply keeps_bind; [apply keeps_gitrev_to_file | intros _].
  apply keeps_bind; [|intros _; keeps_walk].
  apply keeps_bind; [apply keeps_combine_json | intros _].
  apply keeps_bind; [|intros _]; apply keeps_for_each; intros job;
    [apply keeps_embed_z | apply keeps_embed_json].
Qed.

Lemma generate_keeps_entries_witness :
  is_Some (hashes (final_state (generate Sample.L Sample.header_kept)) !! "all_fluids_JSON_z").
Proof.
  apply (generate_keeps_entries Sample.L Sample.header_kept "all_fluids_JSON_z").
  eexists. reflexivity.
Defined.

(** ** An embed job run twice *)

(** X12: an embed job of either kind that has ended well is settled: run again
    at once, whatever the clock says, it ends well and changes neither a
    file nor the dictionary. *)
Theorem embed_jobs_settle (L : libs) (job : string * string * string) :
  settles (embed_z L job) /\ settles (embed_json L job).
Proof. split; [apply embed_z_settles | apply embed_json_settles]. Qed.

Lemma embed_jobs_settle_witness :
  succeeds (embed_z Sample.L ("all_fluids.json.z", "all_fluids_JSON_z.h", "all_fluids_JSON_z")
              Sample.header_lost) = true
  /\ succeeds (embed_z Sample.L ("all_fluids.json.z", "all_fluids_JSON_z.h", "all_fluids_JSON_z")
                 (final_state (embed_z Sample.L
                    ("all_fluids.json.z", "all_fluids_JSON_z.h", "all_fluids_JSON_z")
                    Sample.header_lost))) = true.
Proof.
  split; [vm_compute; reflexivity|].
  destruct (embed_z Sample.L ("all_fluids.json.z", "all_fluids_JSON_z.h", "all_fluids_JSON_z")
              Sample.header_lost) as [[] s1|e s1] eqn:E.
  - cbn [final_state].
    now rewrite (proj1 (embed_jobs_settle Sample.L _) _ _ E).
  - exfalso.
    assert (H : succeeds (embed_z Sample.L
                  ("all_fluids.json.z", "all_fluids_JSON_z.h", "all_fluids_JSON_z")
                  Sample.header_lost) = true) by (vm_compute; reflexivity).
    rewrite E in H. discriminate.
Defined.

(** ** Steps that fail *)

Lemma aon_pure {A} (m : M A) : pure m -> all_or_nothing m.
Proof. intros Hm s e s' H. specialize (Hm s). now rewrite H in Hm. Qed.

Lemma aon_never_raises {A} (m : M A) : never_raises m -> all_or_nothing m.
Proof. intros Hm s e s' H. specialize (Hm s). rewrite H in Hm. discriminate. Qed.

Lemma aon_bind {A B} (m : M A) (k : A -> M B) :
  pure m -> (forall a, all_or_nothing (k a)) -> all_or_nothing (bind m k).
Proof.
  intros Hm Hk s e s' H. unfold bind in H. specialize (Hm s).
  destruct (m s) as [a s1|e1 s1]; cbn in Hm; subst s1; [apply (Hk a _ _ _ H) | now injection H].
Qed.

Lemma never_raises_ret {A} (a : A) : never_raises (ret a).
Proof. intros s. reflexivity. Qed.

Lemma never_raises_write (L : libs) (p content : string) : never_raises (write L p content).
Proof. intros s. reflexivity. Qed.

Lemma never_raises_store_hash (key value : string) : never_raises (store_hash key value).
Proof. intros s. reflexivity. Qed.

Lemma never_raises_now (L : libs) : never_raises (now L).
Proof. intros s. reflexivity. Qed.

Lemma never_raises_bind {A B} (m : M A) (k : A -> M B) :
  never_raises m -> (forall a, never_raises (k a)) -> never_raises (bind m k).
Proof.
  intros Hm Hk s. unfold bind. specialize (Hm s).
  destruct (m s) as [a s1|e s1]; [apply Hk | discriminate].
Qed.

Lemma never_raises_write_cache (L : libs) (self : DependencyManager.t) :
  never_raises (DependencyManager.write_cache L self).
Proof. intros s. reflexivity. Qed.

Ltac calm :=
  repeat first [ apply never_raises_ret | apply never_raises_write | apply never_raises_store_hash
               | apply never_raises_now | apply never_raises_write_cache
               | apply never_raises_bind; [|intros ?] ].

Ltac aon_leaf :=
  first [ apply aon_pure; solve [eauto with pure]
        | apply aon_never_raises; solve [calm] ].

Ltac aon_walk := walk @aon_bind ltac:(first [aon_leaf | solve [eauto with pure]]).

Lemma aon_embed_z (L : libs) job : all_or_nothing (embed_z L job).
Proof. destruct job as [[infile outfile] variable]. cbn [embed_z]. aon_walk. Qed.

Lemma aon_embed_json (L : libs) job : all_or_nothing (embed_json L job).
Proof. destruct job as [[infile outfile] variable]. cbn [embed_json]. aon_walk. Qed.

Lemma aon_package_fluids (L : libs) dm : all_or_nothing (package_fluids L dm).
Proof. unfold package_fluids. aon_walk. Qed.

Lemma aon_package_incompressibles (L : libs) dm : all_or_nothing (package_incompressibles L dm).
Proof. unfold package_incompressibles. aon_walk. Qed.

Lemma aon_version_to_file (L : libs) : all_or_nothing (version_to_file L).
Proof.
  unfold version_to_file.
  apply aon_bind; [eauto with pure | intros version].
  apply aon_bind; [eauto with pure | intros h].
  apply aon_bind; [destruct (h !! "version"); pure_walk | intros stale].
  destruct stale; [|aon_leaf].
  unfold get_hash_str, encode_ascii.
  destruct (is_ascii version); [|intros s e s' H; now injection H].
  aon_leaf.
Qed.

(** X13: each of these steps has changed nothing when it raises: an embed job
    of either kind, the body of either aggregation job, and
    [version_to_file].  Whatever stops them stops them before their first
    write. *)
Theorem failing_steps_change_nothing (L : libs) (job : string * string * string)
        (dm : DependencyManager.t) :
  all_or_nothing (embed_z L job) /\ all_or_nothing (embed_json L job)
  /\ all_or_nothing (package_fluids L dm) /\ all_or_nothing (package_incompressibles L dm)
  /\ all_or_nothing (version_to_file L).
Proof.
  repeat split;
    [ apply aon_embed_z | apply aon_embed_json | apply aon_package_fluids
    | apply aon_package_incompressibles | apply aon_version_to_file ].
Qed.

(** ** What the aggregation jobs write *)

Lemma load_fragments_ok (L : libs) (paths : list string) (master master' : list (json L))
      (s s' : state) :
  load_fragments L paths master s = Ok master' s' ->
  s' = s /\ exists loaded, master' = (master ++ loaded)%list
                           /\ Forall2 (decodes_to L s) paths loaded.
Proof.
  revert master. induction paths as [|p paths IH]; intros master H.
  - injection H as <- <-. split; [reflexivity|]. exists []. split; [now rewrite app_nil_r | constructor].
  - cbn [load_fragments] in H.
    apply bind_ok_inv in H as (text & s0 & Hrd & H).
    unfold read in Hrd. destruct (files s !! p) as [f|] eqn:Hf; [|discriminate].
    injection Hrd as <- <-.
    destruct (json_loads L (data f)) as [fluid| |] eqn:Hj; try discriminate.
    destruct (IH _ H) as (-> & loaded & -> & Hall).
    split; [reflexivity|]. exists (fluid :: loaded). split; [now rewrite <- app_assoc|].
    constructor; [|exact Hall]. exists f. auto.
Qed.

(** X14: the loop over the fragments keeps what was loaded before, adds one
    value for every path, in the order of the paths, each the value that
    its file decodes to, and changes nothing. *)
Theorem load_fragments_in_order (L : libs) (paths : list string)
        (master master' : list (json L)) (s s' : state) :
  load_fragments L paths master s = Ok master' s' ->
  s' = s
  /\ length master' = (length master + length paths)%nat
  /\ exists loaded, master' = (master ++ loaded)%list
                    /\ Forall2 (decodes_to L s) paths loaded.
Proof.
  intros H. destruct (load_fragments_ok L paths master master' s s' H) as (-> & loaded & -> & Hall).
  split; [reflexivity|]. split; [|eauto].
  rewrite length_app. f_equal. symmetry. exact (Forall2_length _ _ _ Hall).
Qed.

Lemma load_fragments_in_order_witness :
  exists master,
    load_fragments Sample.L ["dev/fluids/a.json"; "dev/fluids/b.json"] [] Sample.checkout
    = Ok master Sample.checkout
    /\ length master = 2%nat.
Proof.
  destruct (load_fragments Sample.L ["dev/fluids/a.json"; "dev/fluids/b.json"] [] Sample.checkout)
    as [master s1|e s1] eqn:E.
  - destruct (load_fragments_in_order _ _ _ _ _ _ E) as (-> & Hlen & _).
    exists master. split; [reflexivity | exact Hlen].
  - exfalso.
    assert (H : succeeds (load_fragments Sample.L ["dev/fluids/a.json"; "dev/fluids/b.json"] []
                            Sample.checkout) = true) by (vm_compute; reflexivity).
    rewrite E in H. discriminate.
Defined.

(** X15: when the body of the fluids job ends well, every fragment that the
    glob matched has been decoded; the compact file holds the dump of the
    values in the order of the glob, the compressed file the compression
    of that same dump, the verbose file the indented dump, and the cache
    file the pickle of the sorted sources the manager still had to give.
    The last three files written are, from the most recent, the cache
    file, the compact file and the verbose file. *)
Theorem package_fluids_outputs (L : libs) (dm : DependencyManager.t) (s s' : state) :
  DependencyManager.cachefile dm = dev ".fluiddepcache" ->
  package_fluids L dm s = Ok tt s' ->
  exists master,
    Forall2 (decodes_to L s) (glob_matches "dev/fluids" (files s)) master
    /\ data <$> files s' !! dev "all_fluids.json" = Some (json_dumps L master)
    /\ data <$> files s' !! dev "all_fluids.json.z" = Some (zlib_compress L (json_dumps L master))
    /\ data <$> files s' !! dev "all_fluids_verbose.json" = Some (json_dumps_indent L master)
    /\ data <$> files s' !! dev ".fluiddepcache"
       = Some (pickle_dumps L (sorted (DependencyManager.pending (DependencyManager.sources dm))))
    /\ written s' = dev ".fluiddepcache" :: dev "all_fluids.json" :: dev "all_fluids_verbose.json"
                    :: dev "all_fluids.json.z" :: written s.
Proof.
  intros Hc H. unfold package_fluids in H.
  rewrite (bind_ok (glob_json "dev/fluids") _ s s _ eq_refl) in H.
  apply bind_ok_inv in H as (master & s0 & Hload & H).
  destruct (load_fragments_ok _ _ _ _ _ _ Hload) as (-> & loaded & E & Hall).
  cbn [app] in E. subst loaded.
  exists master. split; [exact Hall|].
  unfold DependencyManager.write_cache, DependencyManager.sorted_sources in H.
  cbn [DependencyManager.with_sources DependencyManager.cachefile] in H.
  rewrite Hc in H.
  injection H as <-. cbn [files written].
  repeat split.
  - now rewrite lookup_insert_ne, lookup_insert_eq by discriminate.
  - now rewrite !lookup_insert_ne, lookup_insert_eq by discriminate.
  - now rewrite !lookup_insert_ne, lookup_insert_eq by discriminate.
  - now rewrite lookup_insert_eq.
Qed.

Lemma package_fluids_outputs_witness :
  succeeds (package_fluids Sample.L Sample.manager Sample.checkout) = true
  /\ exists master,
       data <$> files (final_state (package_fluids Sample.L Sample.manager Sample.checkout))
                  !! dev "all_fluids.json.z"
       = Some (zlib_compress Sample.L (json_dumps Sample.L master)).
Proof.
  split; [vm_compute; reflexivity|].
  destruct (package_fluids Sample.L Sample.manager Sample.checkout) as [[] s1|e s1] eqn:E.
  - destruct (package_fluids_outputs Sample.L Sample.manager Sample.checkout s1 eq_refl E)
      as (master & _ & _ & Hz & _).
    exists master. exact Hz.
  - exfalso.
    assert (H : succeeds (package_fluids Sample.L Sample.manager Sample.checkout) = true)
      by (vm_compute; reflexivity).
    rewrite E in H. discriminate.
Defined.

(** ** The manager and its cache *)

(** X16: with a list of sources, [write_cache] and [needs_build] agree: once
    the cache is written, a manager whose destination exists and is newer
    than every source answers that nothing needs to be built, provided the
    pickle reads back and the cache file is neither the destination nor a
    source. *)
Theorem write_cache_then_fresh (L : libs) (self : DependencyManager.t) (s : state)
        (l : list string) (fd : file) :
  DependencyManager.sources self = DependencyManager.PyList l ->
  DependencyManager.cachefile self <> DependencyManager.destination self ->
  ~ In (DependencyManager.cachefile self) l ->
  files s !! DependencyManager.destination self = Some fd ->
  (forall src, In src l -> exists f, files s !! src = Some f /\ mtime f < mtime fd) ->
  pickle_loads L (pickle_dumps L (sorted l)) = Some (sorted l) ->
  exists s',
    DependencyManager.write_cache L self s = Ok self s'
    /\ DependencyManager.needs_build L self s' = Ok ((false, ""), self) s'.
Proof.
  intros Hl Hcd Hcl Hd Hold Hp.
  unfold DependencyManager.write_cache. rewrite (sorted_sources_list self l Hl).
  eexists. split; [reflexivity|].
  match goal with |- DependencyManager.needs_build _ _ ?t = _ => set (s' := t) end.
  assert (Hd' : files s' !! DependencyManager.destination self = Some fd).
  { unfold s'. cbn [files]. now rewrite lookup_insert_ne. }
  assert (Hc' : files s' !! DependencyManager.cachefile self
                = Some (File (clock L (tick s)) (pickle_dumps L (sorted l)))).
  { unfold s'. cbn [files]. apply lookup_insert_eq. }
  rewrite (manager_compare L self s' l Hl fd _ (sorted l) Hd' Hc').
  - rewrite bool_decide_eq_false_2; [reflexivity | tauto].
  - apply scan_all_older. intros src Hsrc. destruct (Hold src Hsrc) as (f & Hf & Hlt).
    exists f. split; [|exact Hlt]. unfold s'. cbn [files].
    rewrite lookup_insert_ne; [exact Hf|]. intros E. apply Hcl. now rewrite E.
  - exact Hp.
Qed.

Lemma write_cache_then_fresh_witness :
  exists s',
    DependencyManager.write_cache Sample.L Sample.manager (Sample.manager_state 1 2 [])
    = Ok Sample.manager s'
    /\ DependencyManager.needs_build Sample.L Sample.manager s' = Ok ((false, ""), Sample.manager) s'.
Proof.
  apply (write_cache_then_fresh Sample.L Sample.manager (Sample.manager_state 1 2 [])
           ["dev/fluids/b.json"; "dev/fluids/a.json"] (File 5 "z")).
  - reflexivity.
  - discriminate.
  - intros [H|[H|[]]]; discriminate.
  - reflexivity.
  - intros src [<-|[<-|[]]]; eexists; (split; [reflexivity | reflexivity]).
  - reflexivity.
Defined.

(** X17: with a generator for sources, as [combine_json] gives one, a cache
    that records at least one source always differs from what is left to
    sort: when the destination and the cache exist and no source is newer,
    the manager answers that the source list has changed, whatever the
    cache records and whatever the sources are. *)
Theorem generator_sources_always_changed (L : libs) (self : DependencyManager.t) (s : state)
        (rest : list string) (fd fc : file) (previous : list string) :
  DependencyManager.sources self = DependencyManager.Generator rest ->
  files s !! DependencyManager.destination self = Some fd ->
  files s !! DependencyManager.cachefile self = Some fc ->
  (forall src, In src rest -> exists f, files s !! src = Some f /\ mtime f < mtime fd) ->
  pickle_loads L (data fc) = Some previous ->
  previous <> [] ->
  fst <$> result (DependencyManager.needs_build L self s) = Some (true, "source list has changed").
Proof.
  intros Hg Hd Hc Hold Hp Hne.
  rewrite (manager_generator_compare L self s rest fd fc previous Hg Hd Hc
             (scan_all_older _ _ _ Hold) Hp).
  rewrite bool_decide_eq_true_2 by congruence. reflexivity.
Qed.

Lemma generator_sources_always_changed_witness :
  fst <$> result (DependencyManager.needs_build Sample.L
                    (DependencyManager.Make
                       (DependencyManager.Generator ["dev/fluids/a.json"; "dev/fluids/b.json"])
                       "dev/all_fluids.json.z" "dev/.fluiddepcache")
                    (Sample.manager_state 1 2 ["dev/fluids/a.json"; "dev/fluids/b.json"]))
  = Some (true, "source list has changed").
Proof.
  apply (generator_sources_always_changed Sample.L _ _ ["dev/fluids/a.json"; "dev/fluids/b.json"]
           (File 5 "z") (File 5 (Sample.pickle ["dev/fluids/a.json"; "dev/fluids/b.json"]))
           ["dev/fluids/a.json"; "dev/fluids/b.json"]).
  - reflexivity.
  - reflexivity.
  - reflexivity.
  - intros src [<-|[<-|[]]]; eexists; (split; [reflexivity | reflexivity]).
  - reflexivity.
  - discriminate.
Defined.

(** ** Hidden fragments *)

Lemma scandir_name (dir : string) (fs : gmap string file) (p name : string) :
  In (p, name) (scandir dir fs) -> entry_name dir p = Some name.
Proof.
  unfold scandir. intros H. apply list_elem_of_In, list_elem_of_omap in H.
  destruct H as (q & _ & Hq).
  destruct (entry_name dir q) as [n|] eqn:E; [|discriminate].
  injection Hq as <- <-. exact E.
Qed.

(** The two listings: every file that [glob.glob] matches is matched by
    [Path.glob], and a file whose name ends in [.json] and starts with a
    dot is matched by [Path.glob] only. *)
Lemma hidden_fragments_are_sources_only (dir : string) (fs : gmap string file) :
  (forall p, In p (glob_matches dir fs) -> In p (pathlib_matches dir fs))
  /\ (forall p name,
        In (p, name) (scandir dir fs) -> ends_with ".json" name = true ->
        String.prefix "." name = true ->
        In p (pathlib_matches dir fs) /\ ~ In p (glob_matches dir fs)).
Proof.
  split.
  - unfold glob_matches, pathlib_matches. intros p H.
    apply in_map_iff in H as (e & <- & He). apply filter_In in He as [He Hf].
    apply in_map, filter_In. split; [exact He|]. now apply andb_prop in Hf.
  - intros p name Hin Hjson Hdot. split.
    + unfold pathlib_matches. apply (in_map fst _ (p, name)), filter_In. auto.
    + unfold glob_matches. intros H.
      apply in_map_iff in H as ([q n] & E & He). cbn in E. subst q.
      apply filter_In in He as [He Hf]. cbn [snd] in Hf.
      pose proof (scandir_name _ _ _ _ Hin) as E1.
      pose proof (scandir_name _ _ _ _ He) as E2.
      rewrite E1 in E2. injection E2 as <-.
      rewrite Hdot in Hf. apply andb_prop in Hf as [_ Hf]. discriminate.
Qed.

Lemma hidden_fragments_sample :
  In "dev/fluids/.x.json"
     (pathlib_matches "dev/fluids" {[ "dev/fluids/.x.json" := File 0 "{}" ]})
  /\ ~ In "dev/fluids/.x.json"
       (glob_matches "dev/fluids" {[ "dev/fluids/.x.json" := File 0 "{}" ]}).
Proof.
  apply (proj2 (hidden_fragments_are_sources_only "dev/fluids"
                  {[ "dev/fluids/.x.json" := File 0 "{}" ]}) _ ".x.json").
  - vm_compute. tauto.
  - reflexivity.
  - reflexivity.
Qed.

Lemma load_fragments_decodable (L : libs) (paths : list string) (master : list (json L))
      (s : state) :
  (forall p, In p paths -> exists j, decodes_to L s p j) ->
  exists loaded, load_fragments L paths master s = Ok (master ++ loaded)%list s
                 /\ Forall2 (decodes_to L s) paths loaded.
Proof.
  revert master. induction paths as [|x paths IH]; intros master Hall.
  - exists []. split; [now rewrite app_nil_r | constructor].
  - destruct (Hall x (or_introl eq_refl)) as (j & f & Hf & Hj).
    destruct (IH (master ++ [j])%list) as (loaded & Hrun & Hdec).
    { intros p Hp. apply Hall. now right. }
    exists (j :: loaded). split.
    + cbn [load_fragments]. rewrite (bind_ok _ _ _ _ _ (read_present _ _ _ Hf)), Hj.
      rewrite Hrun. now rewrite <- app_assoc.
    + constructor; [exists f; auto | exact Hdec].
Qed.

(** The manager that [combine_json] builds asks for a build as soon as one
    of the files that [Path.glob] gives is not older than the compressed
    file. *)
Lemma depfluids_newer_source (L : libs) (s : state) (p : string) (f fd : file) :
  In p (pathlib_matches "dev/fluids" (files s)) ->
  files s !! p = Some f ->
  files s !! dev "all_fluids.json.z" = Some fd -> mtime fd <= mtime f ->
  exists reason depfluids,
    DependencyManager.needs_build L
      (DependencyManager.Make (DependencyManager.Generator (pathlib_matches "dev/fluids" (files s)))
         (dev "all_fluids.json.z") (dev ".fluiddepcache")) s
    = Ok ((true, reason), depfluids) s
    /\ DependencyManager.cachefile depfluids = dev ".fluiddepcache".
Proof.
  intros Hin Hf Hd Hle.
  unfold DependencyManager.needs_build.
  cbn [DependencyManager.destination DependencyManager.cachefile DependencyManager.sources
       DependencyManager.pending].
  rewrite (bind_ok _ _ _ _ _ (exists_present _ _ _ Hd)). cbn [negb].
  destruct (files s !! dev ".fluiddepcache") as [fc|] eqn:Hc.
  - rewrite (bind_ok _ _ _ _ _ (exists_present _ _ _ Hc)). cbn [negb].
    rewrite (bind_ok _ _ _ _ _ (getmtime_present _ _ _ Hd)).
    destruct (scan_finds (mtime fd) (pathlib_matches "dev/fluids" (files s)) s)
      as (src & fsrc & rest & _ & _ & _ & Hscan).
    + intros q Hq. unfold pathlib_matches in Hq.
      apply in_map_iff in Hq as (e & <- & He). apply filter_In in He.
      apply (scandir_present "dev/fluids"), He.
    + exists p, f. auto.
    + rewrite (bind_ok _ _ _ _ _ Hscan). eexists _, _. split; reflexivity.
  - rewrite (bind_ok _ _ _ _ _ (exists_missing _ _ Hc)). cbn [negb].
    eexists _, _. split; reflexivity.
Qed.

Lemma hidden_fluid_fragments :
  glob_matches "dev/fluids" (files Sample.hidden_fluid) = ["dev/fluids/a.json"].
Proof. vm_compute. reflexivity. Qed.

(** X18: a fluid whose file name starts with a dot is a source of the
    manager and is not a fragment of the loop.  When such a file is not
    older than the compressed file and the other fragments decode,
    [combine_json]'s fluids job rebuilds and ends well, whatever the
    hidden file holds: the combined file is the dump of the other
    fragments, and the hidden one is not among them. *)
Theorem hidden_fragment_rebuilds_without_it (L : libs) (s : state) (p name : string)
        (f fd : file) :
  In (p, name) (scandir "dev/fluids" (files s)) ->
  ends_with ".json" name = true -> String.prefix "." name = true ->
  files s !! p = Some f ->
  files s !! dev "all_fluids.json.z" = Some fd -> mtime fd <= mtime f ->
  (forall q, In q (glob_matches "dev/fluids" (files s)) -> exists j, decodes_to L s q j) ->
  exists master s',
    combine_fluids L s = Ok tt s'
    /\ Forall2 (decodes_to L s) (glob_matches "dev/fluids" (files s)) master
    /\ ~ In p (glob_matches "dev/fluids" (files s))
    /\ data <$> files s' !! dev "all_fluids.json" = Some (json_dumps L master)
    /\ written s' = dev ".fluiddepcache" :: dev "all_fluids.json" :: dev "all_fluids_verbose.json"
                    :: dev "all_fluids.json.z" :: written s.
Proof.
  intros Hin Hjson Hdot Hf Hd Hle Hdec.
  destruct (hidden_fragments_are_sources_only "dev/fluids" (files s)) as [_ Hhid].
  destruct (Hhid p name Hin Hjson Hdot) as [Hsrc Hnot].
  destruct (depfluids_newer_source L s p f fd Hsrc Hf Hd Hle) as (reason & dm & Hnb & Hc).
  destruct (load_fragments_decodable L _ [] s Hdec) as (master & Hload & Hall).
  cbn [app] in Hload.
  exists master. eexists. split; [|split; [exact Hall|split; [exact Hnot|]]].
  - unfold combine_fluids.
    rewrite (bind_ok new_depfluids _ s s _ eq_refl).
    rewrite (bind_ok _ _ _ _ _ Hnb). unfold package_fluids.
    rewrite (bind_ok (glob_json "dev/fluids") _ s s _ eq_refl).
    rewrite (bind_ok _ _ _ _ _ Hload).
    unfold DependencyManager.write_cache, DependencyManager.sorted_sources.
    cbn [DependencyManager.with_sources DependencyManager.cachefile]. rewrite Hc.
    reflexivity.
  - cbn [files written]. split; [|reflexivity].
    now rewrite lookup_insert_ne, lookup_insert_eq by discriminate.
Qed.

Lemma hidden_fragment_rebuilds_without_it_witness :
  exists master s',
    combine_fluids Sample.L Sample.hidden_fluid = Ok tt s'
    /\ Forall2 (decodes_to Sample.L Sample.hidden_fluid) ["dev/fluids/a.json"] master
    /\ data <$> files s' !! dev "all_fluids.json" = Some (json_dumps Sample.L master).
Proof.
  destruct (hidden_fragment_rebuilds_without_it Sample.L Sample.hidden_fluid
              "dev/fluids/.x.json" ".x.json" (File 9 "garbage") (File 5 "z"))
    as (master & s' & Hrun & Hall & _ & Hdata & _).
  - vm_compute. tauto.
  - vm_compute. reflexivity.
  - vm_compute. reflexivity.
  - vm_compute. reflexivity.
  - vm_compute. reflexivity.
  - vm_compute. discriminate.
  - rewrite hidden_fluid_fragments. intros q [<-|[]].
    exists "{a}", (File 1 "{a}"). split; vm_compute; reflexivity.
  - rewrite hidden_fluid_fragments in Hall. exists master, s'. auto.
Defined.

(** ** Inputs that are missing or unfit *)

Lemma getmtime_missing (p : string) (s : state) :
  files s !! p = None -> getmtime p s = Raise (FileNotFoundError p) s.
Proof. intros H. unfold getmtime. now rewrite H. Qed.

Lemma scan_missing (d : Z) (before after : list string) (src : string) (s : state) :
  (forall x, In x before -> exists f, files s !! x = Some f /\ mtime f < d) ->
  files s !! src = None ->
  DependencyManager.scan_sources d (before ++ src :: after) s = Raise (FileNotFoundError src) s.
Proof.
  intros Hb Hs. induction before as [|x before IH]; cbn [app DependencyManager.scan_sources].
  - now rewrite (bind_raise _ _ _ _ _ (getmtime_missing _ _ Hs)).
  - destruct (Hb x (or_introl eq_refl)) as (f & Hf & Hlt).
    rewrite (bind_ok _ _ _ _ _ (getmtime_present _ _ _ Hf)).
    destruct (Z.leb_spec d (mtime f)); [lia|].
    apply IH. intros y Hy. apply Hb. now right.
Qed.

Lemma scan_stops (d : Z) (l before after : list string) (src : string) (s : state) (f : file) :
  l = (before ++ src :: after)%list ->
  (forall x, In x before -> exists g, files s !! x = Some g /\ mtime g < d) ->
  files s !! src = Some f -> d <= mtime f ->
  DependencyManager.scan_sources d l s = Ok (DependencyManager.Newer src after) s.
Proof.
  intros -> Hb Hs Hle. induction before as [|x before IH]; cbn [app DependencyManager.scan_sources].
  - rewrite (bind_ok _ _ _ _ _ (getmtime_present _ _ _ Hs)).
    destruct (Z.leb_spec d (mtime f)); [reflexivity|lia].
  - destruct (Hb x (or_introl eq_refl)) as (g & Hg & Hlt).
    rewrite (bind_ok _ _ _ _ _ (getmtime_present _ _ _ Hg)).
    destruct (Z.leb_spec d (mtime g)); [lia|].
    apply IH. intros y Hy. apply Hb. now right.
Qed.

Lemma package_fluids_cache (L : libs) (dm : DependencyManager.t) (s s' : state) :
  DependencyManager.cachefile dm = dev ".fluiddepcache" ->
  package_fluids L dm s = Ok tt s' ->
  data <$> files s' !! dev ".fluiddepcache"
  = Some (pickle_dumps L (sorted (DependencyManager.pending (DependencyManager.sources dm)))).
Proof.
  intros Hc H. unfold package_fluids in H.
  rewrite (bind_ok (glob_json "dev/fluids") _ s s _ eq_refl) in H.
  apply bind_ok_inv in H as (master & s0 & Hload & H).
  unfold DependencyManager.write_cache, DependencyManager.sorted_sources in H.
  cbn [DependencyManager.with_sources DependencyManager.cachefile] in H.
  rewrite Hc in H.
  injection H as <-. cbn [files]. now rewrite lookup_insert_eq.
Qed.

(** X19: a source that no longer exists when the manager looks at its
    modification time stops the run: with the destination and the cache
    file in place and every earlier source older than the destination,
    [needs_build] raises [FileNotFoundError] for that source, whether the
    sources are a list or a generator. *)
Theorem manager_missing_source (L : libs) (self : DependencyManager.t) (s : state)
        (before after : list string) (src : string) (fd fc : file) :
  DependencyManager.pending (DependencyManager.sources self) = (before ++ src :: after)%list ->
  files s !! DependencyManager.destination self = Some fd ->
  files s !! DependencyManager.cachefile self = Some fc ->
  (forall x, In x before -> exists f, files s !! x = Some f /\ mtime f < mtime fd) ->
  files s !! src = None ->
  DependencyManager.needs_build L self s = Raise (FileNotFoundError src) s.
Proof.
  intros Hp Hd Hc Hb Hs. unfold DependencyManager.needs_build.
  rewrite (bind_ok _ _ _ _ _ (exists_present _ _ _ Hd)). cbn [negb].
  rewrite (bind_ok _ _ _ _ _ (exists_present _ _ _ Hc)). cbn [negb].
  rewrite (bind_ok _ _ _ _ _ (getmtime_present _ _ _ Hd)).
  rewrite Hp. now rewrite (bind_raise _ _ _ _ _ (scan_missing _ _ _ _ _ Hb Hs)).
Qed.

Lemma manager_missing_source_witness :
  DependencyManager.needs_build Sample.L
    (DependencyManager.Make
       (DependencyManager.PyList ["dev/fluids/a.json"; "dev/fluids/gone.json"])
       "dev/all_fluids.json.z" "dev/.fluiddepcache")
    (Sample.manager_state 1 2 [])
  = Raise (FileNotFoundError "dev/fluids/gone.json") (Sample.manager_state 1 2 []).
Proof.
  apply (manager_missing_source Sample.L _ _ ["dev/fluids/a.json"] [] "dev/fluids/gone.json"
           (File 5 "z") (File 5 (Sample.pickle []))).
  - reflexivity.
  - reflexivity.
  - reflexivity.
  - intros x [<-|[]]. eexists. split; reflexivity.
  - reflexivity.
Defined.

(** X20: when neither the header nor its input exists, the staleness test
    of an embed job answers True without a look at the input, and the job
    then fails where it opens the input: it raises [FileNotFoundError],
    not the [ValueError] of the staleness test, and writes nothing.  This
    holds for the jobs of both kinds. *)
Theorem embed_without_input (L : libs) (infile outfile variable : string) (s : state) :
  files s !! include outfile = None -> files s !! dev infile = None ->
  embed_z L (infile, outfile, variable) s = Raise (FileNotFoundError (dev infile)) s
  /\ embed_json L (infile, outfile, variable) s = Raise (FileNotFoundError (dev infile)) s.
Proof.
  intros Ho Hi. split; cbn [embed_z embed_json];
    rewrite (bind_ok _ _ _ _ _ (needs_build_no_output _ _ _ Ho)); cbn [negb];
    now rewrite (bind_raise _ _ _ _ _ (read_missing _ _ Hi)).
Qed.

Lemma embed_without_input_witness :
  embed_z Sample.L ("all_fluids.json.z", "all_fluids_JSON_z.h", "all_fluids_JSON_z") Sample.nothing
  = Raise (FileNotFoundError "dev/all_fluids.json.z") Sample.nothing.
Proof.
  apply (embed_without_input Sample.L "all_fluids.json.z" "all_fluids_JSON_z.h"
           "all_fluids_JSON_z" Sample.nothing); reflexivity.
Defined.

(** X21: a plain JSON job that finds its input newer than its header, or
    has no header, first checks the input: an input that does not decode
    as JSON raises the [ValueError] that names it; an input that decodes
    but holds a byte above 127 raises where the text is encoded to ASCII;
    in both cases neither the header nor the dictionary is touched. *)
Theorem embed_json_unfit_input (L : libs) (infile outfile variable : string) (s : state)
        (fi : file) :
  needs_build (dev infile) (include outfile) s = Ok true s ->
  files s !! dev infile = Some fi ->
  ((forall j, json_loads L (data fi) <> Parsed j) ->
   embed_json L (infile, outfile, variable) s
   = Raise (ValueError ("unable to decode file " ++ dev infile)) s)
  /\ ((exists j, json_loads L (data fi) = Parsed j) ->
      is_ascii (universal_newlines (data fi)) = false ->
      embed_json L (infile, outfile, variable) s = Raise UnicodeError s).
Proof.
  intros Hnb Hi. split.
  - intros Hbad. cbn [embed_json]. rewrite (bind_ok _ _ _ _ _ Hnb). cbn [negb].
    rewrite (bind_ok _ _ _ _ _ (read_present _ _ _ Hi)).
    destruct (json_loads L (data fi)) as [j| |] eqn:Hj; [|reflexivity|reflexivity].
    exfalso. exact (Hbad j eq_refl).
  - intros [j Hj] Ha. cbn [embed_json]. rewrite (bind_ok _ _ _ _ _ Hnb). cbn [negb].
    rewrite (bind_ok _ _ _ _ _ (read_present _ _ _ Hi)), Hj.
    rewrite (bind_ok _ _ _ _ _ (read_text_present _ _ _ Hi)).
    unfold encode_ascii. rewrite Ha. reflexivity.
Qed.

Lemma embed_json_unfit_input_witness :
  embed_json Sample.L ("all_fluids.json", "all_fluids_JSON.h", "all_fluids_JSON")
    Sample.non_ascii_input
  = Raise UnicodeError Sample.non_ascii_input.
Proof.
  apply (proj2 (embed_json_unfit_input Sample.L "all_fluids.json" "all_fluids_JSON.h"
                  "all_fluids_JSON" Sample.non_ascii_input (File 8 Sample.accented)
                  eq_refl eq_refl)).
  - eexists. reflexivity.
  - reflexivity.
Defined.

(** ** What the cache of the fluids records *)

(** X22: the cache that the fluids job writes records, sorted, the sources
    that the staleness test had not yet taken from the glob.  When the
    compressed file or the cache file is missing the test takes none, and
    every source is recorded; when the test stops at a source that is not
    older than the compressed file, only the sources that the glob gives
    after that one are recorded. *)
Theorem fluids_cache_records_the_rest (L : libs) (s s' : state) :
  combine_fluids L s = Ok tt s' ->
  let all := pathlib_matches "dev/fluids" (files s) in
  let recorded := data <$> files s' !! dev ".fluiddepcache" in
  (files s !! dev "all_fluids.json.z" = None \/ files s !! dev ".fluiddepcache" = None ->
   recorded = Some (pickle_dumps L (sorted all)))
  /\ (forall before src after fd fc fsrc,
        all = (before ++ src :: after)%list ->
        files s !! dev "all_fluids.json.z" = Some fd ->
        files s !! dev ".fluiddepcache" = Some fc ->
        (forall x, In x before -> exists f, files s !! x = Some f /\ mtime f < mtime fd) ->
        files s !! src = Some fsrc -> mtime fd <= mtime fsrc ->
        recorded = Some (pickle_dumps L (sorted after))).
Proof.
  intros H all recorded. unfold combine_fluids in H.
  set (dm := DependencyManager.Make (DependencyManager.Generator all)
               (dev "all_fluids.json.z") (dev ".fluiddepcache")).
  rewrite (bind_ok new_depfluids _ s s dm eq_refl) in H.
  assert (Hpack : forall dm', DependencyManager.cachefile dm' = dev ".fluiddepcache" ->
                  package_fluids L dm' s = Ok tt s' ->
                  recorded = Some (pickle_dumps L
                    (sorted (DependencyManager.pending (DependencyManager.sources dm'))))).
  { intros dm' Hc Hp.
    exact (package_fluids_cache L dm' s s' Hc Hp). }
  split.
  - intros Hmiss.
    assert (E : DependencyManager.needs_build L dm s
                = Ok ((true, "destination does not exist"), dm) s
                \/ DependencyManager.needs_build L dm s
                   = Ok ((true, "cache file does not exist"), dm) s).
    { unfold DependencyManager.needs_build. cbn [DependencyManager.destination dm DependencyManager.cachefile].
      destruct (files s !! dev "all_fluids.json.z") as [fd|] eqn:Hd.
      - destruct Hmiss as [Hm|Hm]; [discriminate|]. right.
        rewrite (bind_ok _ _ _ _ _ (exists_present _ _ _ Hd)). cbn [negb].
        now rewrite (bind_ok _ _ _ _ _ (exists_missing _ _ Hm)).
      - left. now rewrite (bind_ok _ _ _ _ _ (exists_missing _ _ Hd)). }
    destruct E as [E|E]; rewrite (bind_ok _ _ _ _ _ E) in H;
      exact (Hpack dm eq_refl H).
  - intros before src after fd fc fsrc Hall Hd Hc Hold Hsrc Hle.
    assert (E : DependencyManager.needs_build L dm s
                = Ok ((true, DependencyManager.newer_reason src),
                      DependencyManager.with_sources dm (DependencyManager.Generator after)) s).
    { unfold DependencyManager.needs_build. cbn [DependencyManager.destination dm DependencyManager.cachefile].
      rewrite (bind_ok _ _ _ _ _ (exists_present _ _ _ Hd)). cbn [negb].
      rewrite (bind_ok _ _ _ _ _ (exists_present _ _ _ Hc)). cbn [negb].
      rewrite (bind_ok _ _ _ _ _ (getmtime_present _ _ _ Hd)).
      cbn [DependencyManager.sources DependencyManager.pending].
      rewrite (bind_ok _ _ _ _ _ (scan_stops _ _ _ _ _ _ _ Hall Hold Hsrc Hle)).
      reflexivity. }
    rewrite (bind_ok _ _ _ _ _ E) in H.
    exact (Hpack (DependencyManager.with_sources dm (DependencyManager.Generator after)) eq_refl H).
Qed.

Lemma fluids_cache_records_the_rest_witness :
  succeeds (combine_fluids Sample.L Sample.checkout) = true
  /\ data <$> files (final_state (combine_fluids Sample.L Sample.checkout)) !! dev ".fluiddepcache"
     = Some (pickle_dumps Sample.L (sorted (pathlib_matches "dev/fluids" (files Sample.checkout)))).
Proof.
  split; [vm_compute; reflexivity|].
  destruct (combine_fluids Sample.L Sample.checkout) as [[] s1|e s1] eqn:E.
  - apply (proj1 (fluids_cache_records_the_rest Sample.L Sample.checkout s1 E)).
    left. reflexivity.
  - exfalso.
    assert (H : succeeds (combine_fluids Sample.L Sample.checkout) = true)
      by (vm_compute; reflexivity).
    rewrite E in H. discriminate.
Defined.
